(** * Collaborative video editor: the real-time hub and the timeline reorder endpoint

    Shallow embedding of
    - [backend/app/websockets/manager.py]   (class [ConnectionManager]),
    - [backend/app/api/api_v1/endpoints/websocket.py] (receive loop and
      message router),
    - [backend/app/api/api_v1/endpoints/timeline.py]  ([reorder_timeline_clips]),
    followed by the properties of the hub proved about that embedding. *)

From stdpp Require Import gmap strings list fin_maps sorting.
From Stdlib Require Import QArith.QArith_base.
Close Scope Q_scope.
Set Warnings "-clear-no-such-hyp".

(** ** Python values *)

(** What [json.loads] produces and [json.dumps] consumes.  Python floats are
    only stored and relayed by this code, never computed with, except for
    [index * 1.0] in the reorder endpoint; they are carried as rationals. *)
#[warnings="-register-all"]
Inductive json : Type :=
  | JNull
  | JBool (b : bool)
  | JInt (n : Z)
  | JFloat (q : Q)
  | JStr (s : string)
  | JArr (l : list json)
  | JObj (d : list (string * json)).

(** A Python [dict] whose iteration order is observed: an association list in
    insertion order.  [set] keeps the position of an existing key and appends
    a new one, as [d[k] = v] does; [del] is [del d[k]] once membership has
    been checked by the caller. *)
Module Dict.
Section dict.
Context {K V : Type} `{EqDecision K}.
Implicit Types (d : list (K * V)) (k : K) (v : V).

Fixpoint get d k : option V :=
  match d with
  | [] => None
  | (k', v) :: d' => if decide (k' = k) then Some v else get d' k
  end.

Definition get_default d k (dflt : V) : V := default dflt (get d k).

Fixpoint set d k v : list (K * V) :=
  match d with
  | [] => [(k, v)]
  | (k', v') :: d' =>
      if decide (k' = k) then (k', v) :: d' else (k', v') :: set d' k v
  end.

Fixpoint del d k : list (K * V) :=
  match d with
  | [] => []
  | (k', v') :: d' => if decide (k' = k) then d' else (k', v') :: del d' k
  end.

(** [d.update(other)] *)
Definition update d (other : list (K * V)) : list (K * V) :=
  foldl (λ acc kv, set acc kv.1 kv.2) d other.

Definition mem d k : bool := bool_decide (is_Some (get d k)).
End dict.
End Dict.

Abbreviation pyobj := (list (string * json)).

(** ** State of the connection manager *)

(** A [WebSocket] object, identified by its identity. *)
Definition Conn := nat.

Module User.
(** The [user] dictionary handed to [connect]: [{"id": ..., "username": ...}]. *)
Record t := mk { id : Z; username : string }.
End User.

(** The value stored in [connection_users]. *)
Record ConnInfo := {
  user_id : Z;
  username : string;
  project_id : Z
}.

Record ConnectionManager := {
  active_connections : gmap Z (list Conn);        (* project_id -> sockets *)
  connection_users : gmap Conn ConnInfo;          (* socket -> user info *)
  user_cursors : gmap Z (list (Z * pyobj))        (* project_id -> user_id -> cursor *)
}.

(** [ConnectionManager.__init__] *)
Definition init : ConnectionManager :=
  {| active_connections := ∅; connection_users := ∅; user_cursors := ∅ |}.

(** ** Effects: exceptions and the transport *)

Inductive exn :=
  | KeyError
  | ValueError
  | AttributeError
  | JSONDecodeError
  | RuntimeError
  | WebSocketDisconnect.

Inductive result (A : Type) :=
  | Ok (a : A)
  | Raise (e : exn).
Arguments Ok {A} a.
Arguments Raise {A} e.

(** What the server does on the wire.  [SendText ws m] records a successful
    [ws.send_text(json.dumps(m))]. *)
Inductive effect :=
  | Accept (ws : Conn)
  | SendText (ws : Conn) (message : json)
  | Close (ws : Conn).

(** A computation over the manager: it always leaves a manager state and a
    trace behind, also when it raises, since the manager is a live object. *)
Record outcome (A : Type) := Outcome {
  final : ConnectionManager;
  trace : list effect;
  value : result A
}.
Arguments Outcome {A} final trace value.
Arguments final {A} o.
Arguments trace {A} o.
Arguments value {A} o.

Definition M (A : Type) : Type := ConnectionManager → outcome A.

Definition ret {A} (a : A) : M A := λ self, Outcome self [] (Ok a).

Definition bind {A B} (m : M A) (f : A → M B) : M B := λ self,
  match m self with
  | Outcome self' t (Ok a) =>
      match f a self' with
      | Outcome self'' t' v => Outcome self'' (t ++ t') v
      end
  | Outcome self' t (Raise e) => Outcome self' t (Raise e)
  end.

Definition raise {A} (e : exn) : M A := λ self, Outcome self [] (Raise e).

(** [try: m  except Exception as e: h e] *)
Definition try_except {A} (m : M A) (h : exn → M A) : M A := λ self,
  match m self with
  | Outcome self' t (Ok a) => Outcome self' t (Ok a)
  | Outcome self' t (Raise e) =>
      match h e self' with
      | Outcome self'' t' v => Outcome self'' (t ++ t') v
      end
  end.

Definition get : M ConnectionManager := λ self, Outcome self [] (Ok self).
Definition modify (f : ConnectionManager → ConnectionManager) : M unit :=
  λ self, Outcome (f self) [] (Ok tt).
Definition emit (e : effect) : M unit := λ self, Outcome self [e] (Ok tt).

(** [d[k]] on a Python dict or [l.remove(x)]: the lookup or the exception. *)
Definition lookup_or {A} (e : exn) (o : option A) : M A :=
  match o with
  | Some a => ret a
  | None => raise e
  end.

Declare Scope hub_scope.
Delimit Scope hub_scope with hub.
Notation "x <- m ;; k" := (bind m (λ x, k))
  (at level 100, m at next level, right associativity) : hub_scope.
Notation "m ;; k" := (bind m (λ _, k))
  (at level 100, right associativity) : hub_scope.
Open Scope hub_scope.

Fixpoint for_each {A} (l : list A) (body : A → M unit) : M unit :=
  match l with
  | [] => ret tt
  | a :: l' => body a ;; for_each l' body
  end.

Definition set_active_connections (f : gmap Z (list Conn) → gmap Z (list Conn)) : M unit :=
  modify (λ self,
    {| active_connections := f (active_connections self);
       connection_users := connection_users self;
       user_cursors := user_cursors self |}).

Definition set_connection_users (f : gmap Conn ConnInfo → gmap Conn ConnInfo) : M unit :=
  modify (λ self,
    {| active_connections := active_connections self;
       connection_users := f (connection_users self);
       user_cursors := user_cursors self |}).

Definition set_user_cursors (f : gmap Z (list (Z * pyobj)) → gmap Z (list (Z * pyobj))) : M unit :=
  modify (λ self,
    {| active_connections := active_connections self;
       connection_users := connection_users self;
       user_cursors := f (user_cursors self) |}).

(** The transport while one call runs: [broken ws = Some e] when a write to
    [ws] raises [e], [None] when it goes through. *)
Abbreviation transport := (Conn → option exn).

(** [websocket.send_text(json.dumps(message))] *)
Definition send_text (broken : transport) (websocket : Conn) (message : json) : M unit :=
  match broken websocket with
  | Some e => raise e
  | None => emit (SendText websocket message)
  end.

(** [list.remove(x)]: drops the first occurrence, [None] for [ValueError]. *)
Fixpoint list_remove (x : Conn) (l : list Conn) : option (list Conn) :=
  match l with
  | [] => None
  | y :: l' => if decide (y = x) then Some l' else (y ::.) <$> list_remove x l'
  end.

(** ** [ConnectionManager] *)

Definition colors : list string :=
  ["#FF6B6B"; "#4ECDC4"; "#45B7D1"; "#96CEB4"; "#FFEAA7";
   "#DDA0DD"; "#98D8C8"; "#F7DC6F"; "#BB8FCE"; "#85C1E9"]%string.

Definition _generate_user_color (user_id : Z) : string :=
  nth (Z.to_nat (user_id `mod` Z.of_nat (length colors))) colors ""%string.

Definition disconnect (websocket : Conn) : M unit :=
  self <- get ;;
  match connection_users self !! websocket with
  | None => ret tt
  | Some user_info =>
      let project_id := project_id user_info in
      let user_id := user_id user_info in
      (* Remove from active connections *)
      match active_connections self !! project_id with
      | Some conns =>
          conns' <- lookup_or ValueError (list_remove websocket conns) ;;
          set_active_connections (<[project_id := conns']>) ;;
          match conns' with
          | [] =>
              set_active_connections (delete project_id) ;;
              self <- get ;;
              lookup_or KeyError (user_cursors self !! project_id) ;;
              set_user_cursors (delete project_id)
          | _ :: _ => ret tt
          end
      | None => ret tt
      end ;;
      (* Remove user cursor *)
      self <- get ;;
      match user_cursors self !! project_id with
      | Some room =>
          if Dict.mem room user_id
          then set_user_cursors (<[project_id := Dict.del room user_id]>)
          else ret tt
      | None => ret tt
      end ;;
      (* Remove from connection users *)
      set_connection_users (delete websocket)
  end.

Definition send_personal_message (broken : transport) (websocket : Conn) (message : json) : M unit :=
  try_except (send_text broken websocket message) (λ _, ret tt).

(** The delivery loop of [broadcast_to_project]; it returns
    [disconnected_websockets]. *)
Fixpoint broadcast_loop (broken : transport) (message : json)
    (exclude_websocket : option Conn) (conns : list Conn) : M (list Conn) :=
  match conns with
  | [] => ret []
  | websocket :: rest =>
      if decide (Some websocket = exclude_websocket)
      then broadcast_loop broken message exclude_websocket rest
      else
        failed <- try_except (send_text broken websocket message ;; ret false)
                             (λ _, ret true) ;;
        disconnected <- broadcast_loop broken message exclude_websocket rest ;;
        ret (if failed : bool then websocket :: disconnected else disconnected)
  end.

Definition broadcast_to_project (broken : transport) (project_id : Z)
    (message : json) (exclude_websocket : option Conn) : M unit :=
  self <- get ;;
  match active_connections self !! project_id with
  | None => ret tt
  | Some conns =>
      disconnected_websockets <- broadcast_loop broken message exclude_websocket conns ;;
      (* Clean up disconnected websockets *)
      for_each disconnected_websockets disconnect
  end.

(** One element of the [active_users] comprehension of [connect]. *)
Definition active_user (item : Z * pyobj) : option json :=
  uname ← Dict.get item.2 "username"%string;
  Some (JObj [("id", JInt item.1); ("username", uname); ("cursor", JObj item.2)]%string).

Definition connect (broken : transport) (websocket : Conn) (project_id : Z)
    (user : User.t) : M unit :=
  emit (Accept websocket) ;;
  self <- get ;;
  (if decide (active_connections self !! project_id = None)
   then set_active_connections (<[project_id := []]>) ;;
        set_user_cursors (<[project_id := []]>)
   else ret tt) ;;
  self <- get ;;
  conns <- lookup_or KeyError (active_connections self !! project_id) ;;
  set_active_connections (<[project_id := conns ++ [websocket]]>) ;;
  set_connection_users (<[websocket :=
    {| user_id := User.id user;
       username := User.username user;
       project_id := project_id |}]>) ;;
  (* Initialize user cursor *)
  self <- get ;;
  room <- lookup_or KeyError (user_cursors self !! project_id) ;;
  set_user_cursors (<[project_id := Dict.set room (User.id user)
    [("x", JInt 0); ("y", JInt 0);
     ("username", JStr (User.username user));
     ("color", JStr (_generate_user_color (User.id user)))]%string]>) ;;
  (* Notify others that user joined *)
  self <- get ;;
  room <- lookup_or KeyError (user_cursors self !! project_id) ;;
  cursor <- lookup_or KeyError (Dict.get room (User.id user)) ;;
  broadcast_to_project broken project_id
    (JObj [("type", JStr "user_joined");
           ("user", JObj [("id", JInt (User.id user));
                          ("username", JStr (User.username user));
                          ("cursor", JObj cursor)])]%string)
    (Some websocket) ;;
  (* Send current project state to new user *)
  self <- get ;;
  room <- lookup_or KeyError (user_cursors self !! project_id) ;;
  active_users <- lookup_or KeyError (mapM active_user room) ;;
  send_personal_message broken websocket
    (JObj [("type", JStr "project_state");
           ("active_users", JArr active_users)]%string).

Definition handle_cursor_update (broken : transport) (websocket : Conn)
    (data : pyobj) : M unit :=
  self <- get ;;
  match connection_users self !! websocket with
  | None => ret tt
  | Some user_info =>
      let project_id := project_id user_info in
      let user_id := user_id user_info in
      (* Update cursor position *)
      match user_cursors self !! project_id with
      | Some room =>
          match Dict.get room user_id with
          | Some cursor =>
              let cursor' := Dict.update cursor
                [("x", Dict.get_default data "x" (JInt 0));
                 ("y", Dict.get_default data "y" (JInt 0));
                 ("timestamp", Dict.get_default data "timestamp" JNull)]%string in
              set_user_cursors (<[project_id := Dict.set room user_id cursor']>) ;;
              (* Broadcast cursor update to other users *)
              broadcast_to_project broken project_id
                (JObj [("type", JStr "cursor_update");
                       ("user_id", JInt user_id);
                       ("cursor", JObj cursor')]%string)
                (Some websocket)
          | None => ret tt
          end
      | None => ret tt
      end
  end.

Definition handle_timeline_update (broken : transport) (websocket : Conn)
    (data : pyobj) : M unit :=
  self <- get ;;
  match connection_users self !! websocket with
  | None => ret tt
  | Some user_info =>
      broadcast_to_project broken (project_id user_info)
        (JObj [("type", JStr "timeline_update");
               ("user_id", JInt (user_id user_info));
               ("data", JObj data)]%string)
        (Some websocket)
  end.

Definition handle_chat_message (broken : transport) (websocket : Conn)
    (data : pyobj) : M unit :=
  self <- get ;;
  match connection_users self !! websocket with
  | None => ret tt
  | Some user_info =>
      broadcast_to_project broken (project_id user_info)
        (JObj [("type", JStr "chat_message");
               ("user_id", JInt (user_id user_info));
               ("username", JStr (username user_info));
               ("message", Dict.get_default data "message" (JStr ""));
               ("timestamp", Dict.get_default data "timestamp" JNull)]%string)
        None
  end.

(** ** The websocket endpoint *)

(** [v == "literal"] for a decoded JSON value [v]. *)
Definition is_str (v : json) (s : string) : bool :=
  match v with
  | JStr s' => bool_decide (s' = s)
  | _ => false
  end.

(** What one turn of the receive loop gets: [receive_text] raises
    [WebSocketDisconnect], or returns a text on which [json.loads] either
    raises ([None]) or yields a value. *)
Inductive received :=
  | Disconnected
  | Text (parsed : option json).

Inductive loop_state :=
  | Receiving      (* the [while True] loop goes on *)
  | Finished.      (* [websocket_endpoint] has returned *)

Section endpoint.
(** [f"{message_type}"], the text Python prints for a decoded value. *)
Variable py_format : json → string.

Definition handle_websocket_message (broken : transport) (websocket : Conn)
    (message : json) (project_id : Z) : M unit :=
  match message with
  | JObj d =>
      let message_type := Dict.get_default d "type"%string JNull in
      try_except
        (if is_str message_type "cursor_update" then
           handle_cursor_update broken websocket d
         else if is_str message_type "timeline_update" then
           handle_timeline_update broken websocket d
         else if is_str message_type "chat_message" then
           handle_chat_message broken websocket d
         else if is_str message_type "ping" then
           (* Respond to ping with pong *)
           send_text broken websocket
             (JObj [("type", JStr "pong");
                    ("timestamp", Dict.get_default d "timestamp" JNull)]%string)
         else
           (* Unknown message type *)
           send_text broken websocket
             (JObj [("type", JStr "error");
                    ("message", JStr ("Unknown message type: " +:+
                                      py_format message_type))]%string))
        (λ _, send_text broken websocket
                (JObj [("type", JStr "error");
                       ("message", JStr "Internal server error")]%string))
  | _ => raise AttributeError        (* [message.get] on a non-dict *)
  end.

(** One turn of the receive loop of [websocket_endpoint], with the two
    [try] blocks that surround it. *)
Definition receive_iteration (broken : transport) (websocket : Conn)
    (project_id : Z) (ev : received) : M loop_state :=
  try_except
    (try_except
       (match ev with
        | Disconnected => raise WebSocketDisconnect
        | Text None => raise JSONDecodeError
        | Text (Some message) =>
            handle_websocket_message broken websocket message project_id
        end ;;
        ret Receiving)
       (λ e, match e with
             | WebSocketDisconnect => disconnect websocket ;; ret Finished
             | _ => raise e
             end))
    (λ _, try_except (emit (Close websocket)) (λ _, ret tt) ;; ret Finished).
End endpoint.

(** ** The reorder endpoint of the timeline *)

Module Timeline.
(** Row of [timeline_clips]; the primary key [id] is the key of the table. *)
Record TimelineClip := {
  project_id : Z;
  media_file_id : option Z;
  clip_type : string;
  start_time : Q;
  duration : Q;
  media_start : option Q;
  media_end : option Q;
  track_number : Z;
  properties : option json;
  position : option json
}.

Record ProjectMember := {
  member_project_id : Z;
  member_user_id : Z;
  role : string
}.

Record Db := {
  timeline_clips : gmap Z TimelineClip;
  project_members : list ProjectMember
}.

Inductive response :=
  | Success (message : string)
  | HTTPException (status_code : Z) (detail : string).

Definition with_start_time (clip : TimelineClip) (t : Q) : TimelineClip :=
  {| project_id := project_id clip;
     media_file_id := media_file_id clip;
     clip_type := clip_type clip;
     start_time := t;
     duration := duration clip;
     media_start := media_start clip;
     media_end := media_end clip;
     track_number := track_number clip;
     properties := properties clip;
     position := position clip |}.

(** Body of the [for index, clip_id in enumerate(clip_order)] loop. *)
Definition reorder_step (pid : Z) (clips : gmap Z TimelineClip)
    (index : nat) (clip_id : Z) : gmap Z TimelineClip :=
  match clips !! clip_id with
  | Some clip =>
      if decide (project_id clip = pid)
      then <[clip_id := with_start_time clip (Qmult (inject_Z (Z.of_nat index)) 1)]> clips
      else clips
  | None => clips
  end.

Fixpoint reorder_loop (pid : Z) (index : nat) (clip_order : list Z)
    (clips : gmap Z TimelineClip) : gmap Z TimelineClip :=
  match clip_order with
  | [] => clips
  | clip_id :: rest =>
      reorder_loop pid (S index) rest (reorder_step pid clips index clip_id)
  end.

Definition find_member (pid uid : Z) (db : Db) : option ProjectMember :=
  List.find (λ m, bool_decide (member_project_id m = pid ∧ member_user_id m = uid))
            (project_members db).

Definition can_edit (pid uid : Z) (db : Db) : bool :=
  match find_member pid uid db with
  | Some member => bool_decide (role member ∈ ["owner"; "editor"]%string)
  | None => false
  end.

Definition reorder_timeline_clips (project_id : Z) (clip_order : list Z)
    (current_user : Z) (db : Db) : Db * response :=
  if can_edit project_id current_user db then
    ({| timeline_clips := reorder_loop project_id 0 clip_order (timeline_clips db);
        project_members := project_members db |},
     Success "Timeline reordered successfully")
  else
    (db, HTTPException 403 "Insufficient permissions to edit timeline").

(** Index of the last occurrence of [x] in [l], counting from [index]. *)
Fixpoint last_index (x : Z) (index : nat) (l : list Z) : option nat :=
  match l with
  | [] => None
  | y :: rest =>
      match last_index x (S index) rest with
      | Some i => Some i
      | None => if decide (y = x) then Some index else None
      end
  end.

(** A small database: clips 1 and 2 in project 7, clip 3 in project 8, and
    user 100 an editor of project 7. *)
Definition sample_clip (pid : Z) (t : Q) : TimelineClip :=
  {| project_id := pid; media_file_id := None; clip_type := "video";
     start_time := t; duration := inject_Z 5; media_start := None;
     media_end := None; track_number := 0; properties := None;
     position := Some (JObj [("x", JInt 4)]%string) |}.

Definition sample_db : Db :=
  {| timeline_clips :=
       <[1%Z := sample_clip 7 (inject_Z 30)]>
         (<[2%Z := sample_clip 7 (inject_Z 40)]>
            (<[3%Z := sample_clip 8 (inject_Z 50)]> ∅));
     project_members :=
       [{| member_project_id := 7; member_user_id := 100; role := "editor" |}] |}.
End Timeline.

(** ** Reachable states and what they satisfy *)

(** The presence entry of participant [P] in room [R], if any. *)
Definition presence (s : ConnectionManager) (R P : Z) : option pyobj :=
  room ← user_cursors s !! R; Dict.get room P.

(** [ws] is a live connection of participant [P] registered in room [R]. *)
Definition live (s : ConnectionManager) (R P : Z) (ws : Conn) : Prop :=
  ∃ info conns,
    connection_users s !! ws = Some info ∧
    project_id info = R ∧ user_id info = P ∧
    active_connections s !! R = Some conns ∧ ws ∈ conns.

(** The calls the transport layer makes on the manager. *)
Inductive call :=
  | Connect (websocket : Conn) (project_id : Z) (user : User.t)
  | Disconnect (websocket : Conn)
  | BroadcastToProject (project_id : Z) (message : json) (exclude : option Conn)
  | HandleCursorUpdate (websocket : Conn) (data : pyobj)
  | HandleTimelineUpdate (websocket : Conn) (data : pyobj)
  | HandleChatMessage (websocket : Conn) (data : pyobj).

Definition exec (broken : transport) (c : call) : M unit :=
  match c with
  | Connect ws R user => connect broken ws R user
  | Disconnect ws => disconnect ws
  | BroadcastToProject R message exclude => broadcast_to_project broken R message exclude
  | HandleCursorUpdate ws data => handle_cursor_update broken ws data
  | HandleTimelineUpdate ws data => handle_timeline_update broken ws data
  | HandleChatMessage ws data => handle_chat_message broken ws data
  end.

(** A socket object joins only while it is not registered: the endpoint
    calls [connect] once, on the socket it has just accepted. *)
Definition admissible (s : ConnectionManager) (c : call) : Prop :=
  match c with
  | Connect ws _ _ => connection_users s !! ws = None
  | _ => True
  end.

(** The stricter discipline in which a participant never holds two
    connections in one room at the same time. *)
Definition single_session (s : ConnectionManager) (c : call) : Prop :=
  match c with
  | Connect ws R user =>
      connection_users s !! ws = None ∧
      map_Forall (λ _ info, project_id info = R → user_id info ≠ User.id user)
                 (connection_users s)
  | _ => True
  end.

Inductive reachable : ConnectionManager → Prop :=
  | reachable_init : reachable init
  | reachable_call s broken c :
      reachable s → admissible s c → reachable (final (exec broken c s)).

Inductive reachable_single : ConnectionManager → Prop :=
  | reachable_single_init : reachable_single init
  | reachable_single_call s broken c :
      reachable_single s → single_session s c →
      reachable_single (final (exec broken c s)).

(** Keys every cursor dictionary carries. *)
Definition cursor_ok (cursor : pyobj) : Prop :=
  is_Some (Dict.get cursor "x"%string) ∧ is_Some (Dict.get cursor "y"%string) ∧
  is_Some (Dict.get cursor "username"%string) ∧ is_Some (Dict.get cursor "color"%string).

Record wf (s : ConnectionManager) : Prop := {
  wf_rooms : ∀ R, active_connections s !! R = None ↔ user_cursors s !! R = None;
  wf_nonempty : ∀ R conns, active_connections s !! R = Some conns → conns ≠ [];
  wf_nodup : ∀ R conns, active_connections s !! R = Some conns → NoDup conns;
  wf_conn_bound : ∀ R conns ws, active_connections s !! R = Some conns → ws ∈ conns →
    ∃ info, connection_users s !! ws = Some info ∧ project_id info = R;
  wf_bound_conn : ∀ ws info, connection_users s !! ws = Some info →
    ∃ conns, active_connections s !! project_id info = Some conns ∧ ws ∈ conns;
  wf_presence_bound : ∀ R P cursor, presence s R P = Some cursor →
    ∃ ws info, connection_users s !! ws = Some info ∧
               project_id info = R ∧ user_id info = P;
  wf_keys : ∀ R room, user_cursors s !! R = Some room → NoDup room.*1;
  wf_cursor : ∀ R P cursor, presence s R P = Some cursor → cursor_ok cursor
}.

(** What holds in addition under the single-session discipline. *)
Record wf_single (s : ConnectionManager) : Prop := {
  single_conn : ∀ ws ws' info info',
    connection_users s !! ws = Some info → connection_users s !! ws' = Some info' →
    project_id info = project_id info' → user_id info = user_id info' → ws = ws';
  single_presence : ∀ ws info, connection_users s !! ws = Some info →
    is_Some (presence s (project_id info) (user_id info))
}.

(** The state [disconnect] leaves when the bookkeeping is consistent. *)
Definition left_state (s : ConnectionManager) (ws : Conn) (info : ConnInfo)
    (conns' : list Conn) (room : list (Z * pyobj)) : ConnectionManager :=
  {| active_connections :=
       match conns' with
       | [] => delete (project_id info) (active_connections s)
       | _ :: _ => <[project_id info := conns']> (active_connections s)
       end;
     connection_users := delete ws (connection_users s);
     user_cursors :=
       match conns' with
       | [] => delete (project_id info) (user_cursors s)
       | _ :: _ => <[project_id info := Dict.del room (user_id info)]> (user_cursors s)
       end |}.

(** ** Who a broadcast reaches *)

Definition writable (broken : transport) (ws : Conn) : bool :=
  match broken ws with
  | None => true
  | Some _ => false
  end.

(** The sockets of [conns] a broadcast writes to successfully, and those on
    which the write raises, in the order of the list. *)
Definition recipients (broken : transport) (exclude : option Conn)
    (conns : list Conn) : list Conn :=
  filter (λ ws, Some ws ≠ exclude ∧ writable broken ws = true) conns.

Definition failures (broken : transport) (exclude : option Conn)
    (conns : list Conn) : list Conn :=
  filter (λ ws, Some ws ≠ exclude ∧ writable broken ws = false) conns.

Definition deliveries (broken : transport) (message : json)
    (exclude : option Conn) (conns : list Conn) : list effect :=
  (λ ws, SendText ws message) <$> recipients broken exclude conns.

(** ** The state a join registers *)

(** The cursor dictionary [connect] stores for a new user. *)
Definition initial_cursor (user : User.t) : pyobj :=
  [("x", JInt 0); ("y", JInt 0);
   ("username", JStr (User.username user));
   ("color", JStr (_generate_user_color (User.id user)))]%string.

Definition bound_info (R : Z) (user : User.t) : ConnInfo :=
  {| user_id := User.id user; username := User.username user; project_id := R |}.

(** The manager after the bookkeeping of [connect], before it notifies anyone. *)
Definition registered_state (s : ConnectionManager) (ws : Conn) (R : Z)
    (user : User.t) : ConnectionManager :=
  {| active_connections :=
       <[R := default [] (active_connections s !! R) ++ [ws]]> (active_connections s);
     connection_users := <[ws := bound_info R user]> (connection_users s);
     user_cursors :=
       <[R := Dict.set (default [] (user_cursors s !! R)) (User.id user)
                       (initial_cursor user)]> (user_cursors s) |}.

Definition user_joined (user : User.t) (cursor : pyobj) : json :=
  JObj [("type", JStr "user_joined");
        ("user", JObj [("id", JInt (User.id user));
                       ("username", JStr (User.username user));
                       ("cursor", JObj cursor)])]%string.

Definition project_state (active_users : list json) : json :=
  JObj [("type", JStr "project_state"); ("active_users", JArr active_users)]%string.

(** [s'] is what the cleanup pass over the sockets [l] leaves of [s]. *)
Definition cleaned (s : ConnectionManager) (l : list Conn) (s' : ConnectionManager) : Prop :=
  for_each l disconnect s = Outcome s' [] (Ok tt) ∧ wf s' ∧
  (wf_single s → wf_single s') ∧
  (∀ x, connection_users s' !! x =
          if decide (x ∈ l) then None else connection_users s !! x) ∧
  (∀ R P cur, presence s' R P = Some cur → presence s R P = Some cur) ∧
  (∀ R P, (∀ x info, x ∈ l → connection_users s !! x = Some info →
             ¬ (project_id info = R ∧ user_id info = P)) →
          presence s' R P = presence s R P).

(** ** The state a cursor move stores *)

(** [cursor.update({"x": ..., "y": ..., "timestamp": ...})] with the payload's
    values and the defaults of [data.get]. *)
Definition moved_cursor (cursor data : pyobj) : pyobj :=
  Dict.update cursor
    [("x", Dict.get_default data "x" (JInt 0));
     ("y", Dict.get_default data "y" (JInt 0));
     ("timestamp", Dict.get_default data "timestamp" JNull)]%string.

Definition moved_state (s : ConnectionManager) (R P : Z) (room : list (Z * pyobj))
    (cursor' : pyobj) : ConnectionManager :=
  {| active_connections := active_connections s;
     connection_users := connection_users s;
     user_cursors := <[R := Dict.set room P cursor']> (user_cursors s) |}.

Definition cursor_update (P : Z) (cursor : pyobj) : json :=
  JObj [("type", JStr "cursor_update"); ("user_id", JInt P);
        ("cursor", JObj cursor)]%string.

Definition timeline_update (P : Z) (data : pyobj) : json :=
  JObj [("type", JStr "timeline_update"); ("user_id", JInt P);
        ("data", JObj data)]%string.

Definition chat_message (info : ConnInfo) (data : pyobj) : json :=
  JObj [("type", JStr "chat_message");
        ("user_id", JInt (user_id info));
        ("username", JStr (username info));
        ("message", Dict.get_default data "message" (JStr ""));
        ("timestamp", Dict.get_default data "timestamp" JNull)]%string.

(** ** Concrete runs *)

Definition alice : User.t := User.mk 1 "alice".
Definition bob : User.t := User.mk 2 "bob".

(** A transport on which every write goes through. *)
Definition up : transport := λ _, None.

(** The manager after a sequence of calls, all on a healthy transport. *)
Definition run_from (s : ConnectionManager) (calls : list call) : ConnectionManager :=
  foldl (λ s c, final (exec up c s)) s calls.

Fixpoint admissible_run (s : ConnectionManager) (calls : list call) : Prop :=
  match calls with
  | [] => True
  | c :: rest => admissible s c ∧ admissible_run (final (exec up c s)) rest
  end.

Fixpoint single_session_run (s : ConnectionManager) (calls : list call) : Prop :=
  match calls with
  | [] => True
  | c :: rest => single_session s c ∧ single_session_run (final (exec up c s)) rest
  end.

(** Alice opens two sockets (10 and 11) on project 7 and closes the first. *)
Definition two_tabs : ConnectionManager :=
  run_from init [Connect 10 7 alice; Connect 11 7 alice; Disconnect 10].

(** Alice on socket 10 and Bob on socket 11, both on project 7. *)
Definition alice_and_bob : ConnectionManager :=
  run_from init [Connect 10 7 alice; Connect 11 7 bob].

(** Alice with two sockets and Bob with one; Alice then closes socket 10. *)
Definition two_tabs_and_bob : ConnectionManager :=
  run_from init [Connect 10 7 alice; Connect 11 7 alice; Connect 12 7 bob;
                 Disconnect 10].

(** Field [k] of a JSON object. *)
Definition field (m : json) (k : string) : option json :=
  match m with
  | JObj d => Dict.get d k
  | _ => None
  end.

(** A transport on which writes to socket 10 raise. *)
Definition socket_10_down : transport :=
  λ ws, if decide (ws = 10) then Some RuntimeError else None.

(** [entry] is the [active_users] element built from the item [(id, cursor)]
    of a room's cursor dictionary. *)
Definition snapshot_entry (item : Z * pyobj) (entry : json) : Prop :=
  ∃ uname, Dict.get item.2 "username"%string = Some uname ∧
    entry = JObj [("id", JInt item.1); ("username", uname);
                  ("cursor", JObj item.2)]%string.

(** ** Envelopes of the router *)


Definition error_envelope (text : string) : json :=
  JObj [("type", JStr "error"); ("message", JStr text)]%string.

Definition pong (d : pyobj) : json :=
  JObj [("type", JStr "pong");
        ("timestamp", Dict.get_default d "timestamp" JNull)]%string.

(** ** The whole websocket endpoint *)

(** [bool(v)] for a decoded JSON value. *)
Definition truthy (v : json) : bool :=
  match v with
  | JNull => false
  | JBool b => b
  | JInt n => negb (n =? 0)%Z
  | JFloat q => negb (Qnum q =? 0)%Z
  | JStr s => negb (String.eqb s "")
  | JArr l => match l with [] => false | _ :: _ => true end
  | JObj d => match d with [] => false | _ :: _ => true end
  end.

Section websocket_endpoint.
Variable py_format : json → string.
(** The two helpers of [app.services.auth] that [validate_websocket_token]
    imports; each returns a value or raises. *)
Variable verify_token : string → result json.
Variable get_user_by_username : json → result (option User.t).
(** [connect] begins with a second [websocket.accept()] on the socket that the
    endpoint has accepted already.  [accepted_again] is what the transport
    does with that call: [None] when it lets it pass, [Some e] when it raises
    [e], in which case [connect] ends at its first statement. *)
Variable accepted_again : Conn → option exn.

(** [validate_websocket_token]: every exception of the helpers is caught
    and turned into [None]. *)
Definition validate_websocket_token (token : string) (project_id : Z) : option User.t :=
  match verify_token token with
  | Ok payload =>
      if negb (truthy payload) then None
      else
        match payload with
        | JObj d =>
            let username := Dict.get_default d "sub"%string JNull in
            if negb (truthy username) then None
            else
              match get_user_by_username username with
              | Ok (Some user) => Some user
              | Ok None => None
              | Raise _ => None
              end
        | _ => None                    (* [payload.get] raises, caught *)
        end
  | Raise _ => None
  end.

(** The [while True] loop over the texts the socket delivers; [Receiving]
    when they are used up and the loop is still waiting. *)
Fixpoint receive_loop (broken : transport) (websocket : Conn) (project_id : Z)
    (events : list received) : M loop_state :=
  match events with
  | [] => ret Receiving
  | ev :: rest =>
      state <- receive_iteration py_format broken websocket project_id ev ;;
      match state with
      | Receiving => receive_loop broken websocket project_id rest
      | Finished => ret Finished
      end
  end.

Definition websocket_endpoint (broken : transport) (websocket : Conn)
    (project_id : Z) (token : option string) (events : list received) : M loop_state :=
  try_except
    ((* Accept the connection first *)
     emit (Accept websocket) ;;
     match token with
     | Some t =>
         if String.eqb t "" then
           send_text broken websocket (error_envelope "Authentication token required") ;;
           emit (Close websocket) ;;
           ret Finished
         else
           match validate_websocket_token t project_id with
           | None =>
               send_text broken websocket (error_envelope "Invalid authentication token") ;;
               emit (Close websocket) ;;
               ret Finished
           | Some user =>
               (* Connect user to project room *)
               match accepted_again websocket with
               | Some e => raise e
               | None =>
                   connect broken websocket project_id
                     (User.mk (User.id user) (User.username user))
               end ;;
               receive_loop broken websocket project_id events
           end
     | None =>
         send_text broken websocket (error_envelope "Authentication token required") ;;
         emit (Close websocket) ;;
         ret Finished
     end)
    (λ _, try_except (emit (Close websocket)) (λ _, ret tt) ;; ret Finished).
End websocket_endpoint.

(** A decoded payload that is a JSON object. *)
Definition object_message (ev : received) : Prop :=
  ∃ d, ev = Text (Some (JObj d)).

(** ** The other endpoints of the timeline *)

Module TimelineApi.
Import Timeline.

(** What an endpoint returns: its value, the [HTTPException] it raises, or
    another exception that leaves the endpoint unhandled. *)
Inductive reply (A : Type) :=
  | Returned (a : A)
  | Rejected (status_code : Z) (detail : string)
  | Unhandled (exception : string).
Arguments Returned {A} a.
Arguments Rejected {A} status_code detail.
Arguments Unhandled {A} exception.

(** The foreign key of [media_file_id]: [media_files] tells which ids the
    database accepts (every id, where it does not enforce the key); the
    column is nullable. *)
Definition fk_accepts (media_files : Z → bool) (media_file_id : option Z) : bool :=
  match media_file_id with
  | Some m => media_files m
  | None => true
  end.

(** The column types of [timeline_clips]: an [Integer] column of the
    configured database (PostgreSQL) holds a signed 32-bit value, the
    [String(50)] column at most fifty characters.  The request schema bounds
    neither. *)
Definition fits_integer (z : Z) : bool :=
  bool_decide (-2147483648 ≤ z ≤ 2147483647)%Z.

Definition row_fits (id : Z) (clip : TimelineClip) : bool :=
  fits_integer id &&
  fits_integer (project_id clip) &&
  from_option fits_integer true (media_file_id clip) &&
  bool_decide (String.length (clip_type clip) ≤ 50)%nat &&
  fits_integer (track_number clip).

(** [create_timeline_clip].  [new_id] is the primary key the database gives
    the new row on commit.  A commit that the database refuses, for a value
    that does not fit its column or for the foreign key, raises out of the
    endpoint and stores nothing. *)
Definition create_timeline_clip (media_files : Z → bool) (new_id : Z)
    (clip_data : TimelineClip) (current_user : Z) (db : Db) :
    Db * reply (Z * TimelineClip) :=
  if can_edit (project_id clip_data) current_user db then
    if negb (row_fits new_id clip_data) then (db, Unhandled "DataError")
    else if fk_accepts media_files (media_file_id clip_data) then
      ({| timeline_clips := <[new_id := clip_data]> (timeline_clips db);
          project_members := project_members db |},
       Returned (new_id, clip_data))
    else (db, Unhandled "IntegrityError")
  else
    (db, Rejected 403 "Insufficient permissions to edit timeline").

(** [get_timeline_clip] *)
Definition get_timeline_clip (clip_id : Z) (current_user : Z) (db : Db) : reply TimelineClip :=
  match timeline_clips db !! clip_id with
  | None => Rejected 404 "Timeline clip not found"
  | Some clip =>
      match find_member (project_id clip) current_user db with
      | None => Rejected 404 "Access denied to timeline clip"
      | Some _ => Returned clip
      end
  end.

(** [delete_timeline_clip] *)
Definition delete_timeline_clip (clip_id : Z) (current_user : Z) (db : Db) : Db * reply unit :=
  match timeline_clips db !! clip_id with
  | None => (db, Rejected 404 "Timeline clip not found")
  | Some clip =>
      if can_edit (project_id clip) current_user db then
        ({| timeline_clips := delete clip_id (timeline_clips db);
            project_members := project_members db |},
         Returned tt)
      else
        (db, Rejected 403 "Insufficient permissions to edit timeline")
  end.

(** [TimelineClipUpdate]: every field is optional; [None] is a field the
    request did not set, [Some None] a field it set to [null]. *)
Module ClipUpdate.
Record t := {
  start_time : option (option Q);
  duration : option (option Q);
  media_start : option (option Q);
  media_end : option (option Q);
  track_number : option (option Z);
  properties : option (option json);
  position : option (option json)
}.
End ClipUpdate.

(** [setattr] on a column that is [nullable=False]: a [null] makes the commit
    fail. *)
Definition required {A} (sent : option (option A)) (old : A) : option A :=
  match sent with
  | None => Some old
  | Some (Some v) => Some v
  | Some None => None
  end.

Definition nullable {A} (sent : option (option A)) (old : option A) : option A :=
  match sent with
  | None => old
  | Some v => v
  end.

(** The row after [for field, value in update_data.items(): setattr(...)],
    or [None] when it cannot be committed. *)
Definition set_fields (clip : TimelineClip) (clip_data : ClipUpdate.t) : option TimelineClip :=
  match required (ClipUpdate.start_time clip_data) (start_time clip),
        required (ClipUpdate.duration clip_data) (duration clip),
        required (ClipUpdate.track_number clip_data) (track_number clip) with
  | Some s, Some d, Some t =>
      Some {| project_id := project_id clip;
              media_file_id := media_file_id clip;
              clip_type := clip_type clip;
              start_time := s;
              duration := d;
              media_start := nullable (ClipUpdate.media_start clip_data) (media_start clip);
              media_end := nullable (ClipUpdate.media_end clip_data) (media_end clip);
              track_number := t;
              properties := nullable (ClipUpdate.properties clip_data) (properties clip);
              position := nullable (ClipUpdate.position clip_data) (position clip) |}
  | _, _, _ => None
  end.

(** [update_timeline_clip] *)
Definition update_timeline_clip (clip_id : Z) (clip_data : ClipUpdate.t)
    (current_user : Z) (db : Db) : Db * reply TimelineClip :=
  match timeline_clips db !! clip_id with
  | None => (db, Rejected 404 "Timeline clip not found")
  | Some clip =>
      if can_edit (project_id clip) current_user db then
        match set_fields clip clip_data with
        | Some clip' =>
            ({| timeline_clips := <[clip_id := clip']> (timeline_clips db);
                project_members := project_members db |},
             Returned clip')
        | None => (db, Unhandled "IntegrityError")
        end
      else
        (db, Rejected 403 "Insufficient permissions to edit timeline")
  end.

(** [get_project_timeline].  The database returns the rows of the project
    ordered by [track_number], then [start_time]; the order of rows that
    agree on both is not fixed, so the answer is given as a relation. *)
Definition timeline_le (a b : TimelineClip) : Prop :=
  (track_number a < track_number b)%Z ∨
  (track_number a = track_number b ∧ Qle (start_time a) (start_time b)).

#[global] Instance timeline_le_dec (a b : TimelineClip) : Decision (timeline_le a b) :=
  or_dec (decide (track_number a < track_number b)%Z)
    (and_dec (decide (track_number a = track_number b))
       (decide (Qnum (start_time a) * Z.pos (Qden (start_time b)) ≤
                Qnum (start_time b) * Z.pos (Qden (start_time a)))%Z)).

Definition project_rows (project_id : Z) (db : Db) (rows : list (Z * TimelineClip)) : Prop :=
  NoDup rows.*1 ∧
  (∀ clip_id clip, (clip_id, clip) ∈ rows ↔
     timeline_clips db !! clip_id = Some clip ∧ Timeline.project_id clip = project_id) ∧
  (∀ i j a b, rows !! i = Some a → rows !! j = Some b → (i < j)%nat → timeline_le a.2 b.2).

Definition get_project_timeline (project_id current_user : Z) (db : Db)
    (answer : reply (list (Z * TimelineClip))) : Prop :=
  match find_member project_id current_user db with
  | None => answer = Rejected 404 "Project not found or access denied"
  | Some _ => ∃ rows, answer = Returned rows ∧ project_rows project_id db rows
  end.

(** One answer the database may give: the rows of the project, sorted. *)
Definition sorted_rows (project_id : Z) (db : Db) : list (Z * TimelineClip) :=
  merge_sort (λ a b, timeline_le a.2 b.2)
    (filter (λ row, Timeline.project_id row.2 = project_id)
            (map_to_list (timeline_clips db))).
End TimelineApi.

(** What a message handler leaves behind: a normal return, a consistent
    manager, and a trace of writes only. *)
Definition handled (o : outcome unit) : Prop :=
  value o = Ok tt ∧ wf (final o) ∧
  (∀ e, e ∈ trace o → ∃ x m, e = SendText x m).

(** The text the endpoint sends before it closes an unauthenticated socket. *)
Definition auth_error (token : option string) : string :=
  match token with
  | Some t =>
      if String.eqb t "" then "Authentication token required"
      else "Invalid authentication token"
  | None => "Authentication token required"
  end.

(** A token service for concrete runs: the token ["tok"] carries the subject
    ["alice"], any other token does not verify; the only user is Alice. *)
Definition sample_verify_token (token : string) : result json :=
  if String.eqb token "tok" then Ok (JObj [("sub", JStr "alice")]%string)
  else Raise ValueError.

Definition sample_get_user (username : json) : result (option User.t) :=
  if is_str username "alice" then Ok (Some alice) else Ok None.

(** A call as its caller meets it.  [connect] begins with
    [await websocket.accept()], which the transport may refuse:
    [accept ws = Some e] is the run in which it raises [e], and [connect]
    ends there, before it has touched the manager; [accept ws = None] is the
    run in which the socket is accepted.  The other methods never call
    [accept]. *)
Definition invoke (accept broken : transport) (c : call) : M unit :=
  match c with
  | Connect ws R user =>
      match accept ws with
      | Some e => raise e
      | None => connect broken ws R user
      end
  | _ => exec broken c
  end.

(** * Properties *)

(** ** Insertion-ordered dictionaries *)

Section dict_facts.
Context {K V : Type} `{EqDecision K}.
Implicit Types (d : list (K * V)) (k : K) (v : V).

Lemma dict_get_set_eq d k v : Dict.get (Dict.set d k v) k = Some v.
Proof.
  induction d as [|[k' v'] d IH]; simpl.
  - by rewrite decide_True.
  - destruct (decide (k' = k)) as [->|Hne]; simpl.
    + by rewrite decide_True.
    + by rewrite decide_False.
Qed.

Lemma dict_get_set_ne d k k' v :
  k ≠ k' → Dict.get (Dict.set d k v) k' = Dict.get d k'.
Proof.
  intros Hne. induction d as [|[k0 v0] d IH]; simpl.
  - by rewrite decide_False.
  - destruct (decide (k0 = k)) as [->|Hne']; simpl.
    + by rewrite !decide_False.
    + by rewrite IH.
Qed.

Lemma dict_get_set d k k' v :
  Dict.get (Dict.set d k v) k' = if decide (k = k') then Some v else Dict.get d k'.
Proof.
  destruct (decide (k = k')) as [->|Hne];
    [apply dict_get_set_eq | by apply dict_get_set_ne].
Qed.

Lemma dict_get_None d k : Dict.get d k = None ↔ k ∉ d.*1.
Proof.
  induction d as [|[k' v'] d IH]; simpl.
  - split; [intros _; apply not_elem_of_nil | done].
  - rewrite not_elem_of_cons. destruct (decide (k' = k)) as [->|Hne].
    + split; [done | by intros [? _]].
    + rewrite IH. naive_solver.
Qed.

Lemma dict_get_Some_keys d k : is_Some (Dict.get d k) ↔ k ∈ d.*1.
Proof.
  rewrite <- not_eq_None_Some, dict_get_None.
  split; [apply dec_stable | by intros ? ?].
Qed.

Lemma dict_get_elem d k v : NoDup d.*1 → Dict.get d k = Some v ↔ (k, v) ∈ d.
Proof.
  induction d as [|[k' v'] d IH]; simpl; intros Hnd.
  - split; [done | by intros ?%elem_of_nil].
  - apply NoDup_cons in Hnd as [Hk Hnd]. rewrite elem_of_cons.
    destruct (decide (k' = k)) as [->|Hne].
    + split; [by intros [= ->]; left |].
      intros [[= ->]|Hin]; [done |].
      destruct Hk. apply list_elem_of_fmap. by exists (k, v).
    + rewrite IH by done. naive_solver.
Qed.

Lemma dict_del_absent d k : Dict.get d k = None → Dict.del d k = d.
Proof.
  induction d as [|[k' v'] d IH]; simpl; [done |].
  destruct (decide (k' = k)); [done |]. intros ?. by rewrite IH.
Qed.

Lemma dict_get_del_ne d k k' :
  k ≠ k' → Dict.get (Dict.del d k) k' = Dict.get d k'.
Proof.
  intros Hne. induction d as [|[k0 v0] d IH]; simpl; [done |].
  destruct (decide (k0 = k)) as [->|Hne']; simpl.
  - by rewrite decide_False.
  - by rewrite IH.
Qed.

Lemma dict_get_del_eq d k : NoDup d.*1 → Dict.get (Dict.del d k) k = None.
Proof.
  induction d as [|[k' v'] d IH]; simpl; [done |]. intros [Hk Hnd]%NoDup_cons.
  destruct (decide (k' = k)) as [->|Hne]; simpl.
  - by apply dict_get_None.
  - rewrite decide_False by done. by apply IH.
Qed.

Lemma dict_keys_del d k k' : k' ∈ (Dict.del d k).*1 → k' ∈ d.*1.
Proof.
  induction d as [|[k0 v0] d IH]; simpl; [done |].
  destruct (decide (k0 = k)); simpl; rewrite !elem_of_cons; naive_solver.
Qed.

Lemma dict_NoDup_del d k : NoDup d.*1 → NoDup (Dict.del d k).*1.
Proof.
  induction d as [|[k' v'] d IH]; simpl; [done |]. intros [Hk Hnd]%NoDup_cons.
  destruct (decide (k' = k)); simpl; [done |].
  apply NoDup_cons. split; [| by apply IH].
  intros ?%dict_keys_del. done.
Qed.

Lemma dict_keys_set d k v k' : k' ∈ (Dict.set d k v).*1 ↔ k' = k ∨ k' ∈ d.*1.
Proof.
  rewrite <- !dict_get_Some_keys, dict_get_set.
  destruct (decide (k = k')) as [->|Hne]; [naive_solver |].
  split; [by right | intros [->|?]; done].
Qed.

Lemma dict_NoDup_set d k v : NoDup d.*1 → NoDup (Dict.set d k v).*1.
Proof.
  induction d as [|[k' v'] d IH]; simpl.
  - intros _. apply NoDup_singleton.
  - intros [Hk Hnd]%NoDup_cons. destruct (decide (k' = k)) as [->|Hne]; simpl.
    + by apply NoDup_cons.
    + apply NoDup_cons. split; [| by apply IH].
      rewrite dict_keys_set. naive_solver.
Qed.
End dict_facts.

(** ** [list.remove] *)

Lemma list_remove_is_Some x l : x ∈ l → is_Some (list_remove x l).
Proof.
  induction l as [|y l IH]; [by intros ?%elem_of_nil |].
  intros Hin. simpl. destruct (decide (y = x)); [done |].
  apply elem_of_cons in Hin as [->|Hin]; [done |].
  destruct (IH Hin) as [l' ->]. done.
Qed.

Lemma list_remove_elem x l l' y :
  NoDup l → list_remove x l = Some l' → y ∈ l' ↔ y ∈ l ∧ y ≠ x.
Proof.
  revert l'. induction l as [|z l IH]; intros l'; [done |].
  intros [Hz Hnd]%NoDup_cons. simpl. destruct (decide (z = x)) as [->|Hne].
  - intros [= ->]. rewrite elem_of_cons. split; [| naive_solver].
    intros Hy. split; [by right | by intros ->].
  - destruct (list_remove x l) as [l0|] eqn:Hrm; [|done]. intros [= <-].
    rewrite !elem_of_cons, (IH l0) by done. naive_solver.
Qed.

Lemma list_remove_NoDup x l l' : NoDup l → list_remove x l = Some l' → NoDup l'.
Proof.
  revert l'. induction l as [|z l IH]; intros l'; [done |].
  intros [Hz Hnd]%NoDup_cons. simpl. destruct (decide (z = x)) as [->|Hne].
  - by intros [= ->].
  - destruct (list_remove x l) as [l0|] eqn:Hrm; [|done]. intros [= <-].
    apply NoDup_cons. split; [| by apply IH].
    rewrite (list_remove_elem x l l0) by done. naive_solver.
Qed.

(** ** [disconnect] *)

Lemma dict_mem_false {K V} `{EqDecision K} (d : list (K * V)) k :
  Dict.mem d k = false → Dict.get d k = None.
Proof.
  unfold Dict.mem. intros Hm%bool_decide_eq_false.
  by apply eq_None_not_Some.
Qed.

Lemma disconnect_unregistered s ws :
  connection_users s !! ws = None → disconnect ws s = Outcome s [] (Ok tt).
Proof. intros Hws. unfold disconnect, bind, get. simpl. by rewrite Hws. Qed.

Lemma disconnect_registered s ws info conns conns' room :
  connection_users s !! ws = Some info →
  active_connections s !! project_id info = Some conns →
  list_remove ws conns = Some conns' →
  user_cursors s !! project_id info = Some room →
  disconnect ws s = Outcome (left_state s ws info conns' room) [] (Ok tt).
Proof.
  intros Hws Hconns Hrm Hroom.
  unfold disconnect, bind, get. simpl. rewrite Hws. simpl.
  rewrite Hconns. simpl. rewrite Hrm. simpl.
  destruct conns' as [|c conns']; simpl.
  - rewrite Hroom. simpl. rewrite lookup_delete_eq. simpl.
    unfold left_state. by rewrite delete_insert_eq.
  - rewrite Hroom. simpl. unfold left_state.
    destruct (Dict.mem room (user_id info)) eqn:Hmem; simpl; [done |].
    apply dict_mem_false in Hmem.
    by rewrite (dict_del_absent _ _ Hmem), (insert_id _ _ _ Hroom).
Qed.

Section left_state_facts.
Context (s : ConnectionManager) (ws : Conn) (info : ConnInfo)
        (conns conns' : list Conn) (room : list (Z * pyobj)).
Hypothesis Hwf : wf s.
Hypothesis Hws : connection_users s !! ws = Some info.
Hypothesis Hconns : active_connections s !! project_id info = Some conns.
Hypothesis Hrm : list_remove ws conns = Some conns'.
Hypothesis Hroom : user_cursors s !! project_id info = Some room.

Local Abbreviation s' := (left_state s ws info conns' room).

Lemma left_users x :
  connection_users s' !! x = if decide (ws = x) then None else connection_users s !! x.
Proof. unfold left_state. simpl. apply lookup_delete. Qed.

Lemma left_active R :
  active_connections s' !! R =
    if decide (project_id info = R)
    then if decide (conns' = []) then None else Some conns'
    else active_connections s !! R.
Proof.
  unfold left_state. simpl. clear Hrm. destruct conns'; simpl.
  - apply lookup_delete.
  - rewrite lookup_insert. by destruct (decide (project_id info = R)).
Qed.

Lemma left_cursors R :
  user_cursors s' !! R =
    if decide (project_id info = R)
    then if decide (conns' = []) then None
         else Some (Dict.del room (user_id info))
    else user_cursors s !! R.
Proof.
  unfold left_state. simpl. clear Hrm. destruct conns'; simpl.
  - apply lookup_delete.
  - rewrite lookup_insert. by destruct (decide (project_id info = R)).
Qed.

Lemma left_presence R P :
  presence s' R P =
    if decide (project_id info = R ∧ (conns' = [] ∨ user_id info = P))
    then None else presence s R P.
Proof.
  unfold presence. rewrite left_cursors.
  destruct (decide (project_id info = R)) as [<-|HR].
  - rewrite Hroom. simpl. destruct (decide (conns' = [])); simpl.
    + rewrite decide_True; naive_solver.
    + destruct (decide (user_id info = P)) as [<-|HP].
      * rewrite decide_True by naive_solver.
        apply dict_get_del_eq. by apply (wf_keys s Hwf (project_id info)).
      * rewrite decide_False by naive_solver. by apply dict_get_del_ne.
  - rewrite decide_False; naive_solver.
Qed.

Lemma left_elem x : x ∈ conns' ↔ x ∈ conns ∧ x ≠ ws.
Proof. apply list_remove_elem; [by eapply wf_nodup | done]. Qed.

Lemma left_wf : wf s'.
Proof.
  split.
  - intros R. rewrite left_active, left_cursors.
    destruct (decide (project_id info = R)); [| by apply wf_rooms].
    by destruct (decide (conns' = [])).
  - intros R c. rewrite left_active.
    destruct (decide (project_id info = R)); [| by apply wf_nonempty].
    destruct (decide (conns' = [])); naive_solver.
  - intros R c. rewrite left_active.
    destruct (decide (project_id info = R)); [| by apply wf_nodup].
    destruct (decide (conns' = [])); [done |]. intros [= Ec]. rewrite <- Ec.
    eapply list_remove_NoDup; [| done]. by eapply wf_nodup.
  - intros R c x. rewrite left_active, left_users.
    destruct (decide (project_id info = R)) as [<-|HR].
    + destruct (decide (conns' = [])); [done |]. intros [= Ec]. rewrite <- Ec.
      intros [Hx Hne]%left_elem. rewrite decide_False by done.
      by eapply wf_conn_bound.
    + intros Hc Hx. destruct (wf_conn_bound s Hwf R c x Hc Hx) as (i & Hi & HiR).
      destruct (decide (ws = x)) as [->|]; [| by eauto].
      rewrite Hws in Hi. by simplify_eq.
  - intros x i. rewrite left_users. destruct (decide (ws = x)) as [|Hne]; [done |].
    intros Hx. destruct (wf_bound_conn s Hwf x i Hx) as (c & Hc & Hxc).
    rewrite left_active. destruct (decide (project_id info = project_id i)) as [E|].
    + rewrite <- E in Hc. rewrite Hconns in Hc. injection Hc as Ec.
      rewrite <- Ec in Hxc.
      assert (x ∈ conns') as Hin by (apply left_elem; naive_solver).
      destruct (decide (conns' = [])) as [E'|]; [| eauto].
      rewrite E' in Hin. by apply elem_of_nil in Hin.
    + eauto.
  - intros R P cur. rewrite left_presence.
    destruct (decide _) as [|Hn]; [done |]. intros Hp.
    destruct (wf_presence_bound s Hwf R P cur Hp) as (x & i & Hx & HiR & HiP).
    exists x, i. rewrite left_users. split_and!; [| done | done].
    destruct (decide (ws = x)) as [->|]; [| done].
    rewrite Hws in Hx. simplify_eq. destruct Hn. naive_solver.
  - intros R rm. rewrite left_cursors.
    destruct (decide (project_id info = R)); [| by apply wf_keys].
    destruct (decide (conns' = [])); [done |]. intros [= Ec]. rewrite <- Ec.
    apply dict_NoDup_del. by eapply wf_keys.
  - intros R P cur. rewrite left_presence.
    destruct (decide _); [done |]. by apply wf_cursor.
Qed.
End left_state_facts.

(** In a consistent state [disconnect] never raises: it is either the no-op
    on an unknown socket or the removal described by [left_state]. *)
Lemma disconnect_cases s ws :
  wf s →
  (connection_users s !! ws = None ∧ disconnect ws s = Outcome s [] (Ok tt)) ∨
  (∃ info conns conns' room,
      connection_users s !! ws = Some info ∧
      active_connections s !! project_id info = Some conns ∧
      list_remove ws conns = Some conns' ∧
      user_cursors s !! project_id info = Some room ∧
      disconnect ws s = Outcome (left_state s ws info conns' room) [] (Ok tt)).
Proof.
  intros Hwf. destruct (connection_users s !! ws) as [info|] eqn:Hws.
  - right. destruct (wf_bound_conn s Hwf ws info Hws) as (conns & Hconns & Hin).
    destruct (list_remove_is_Some ws conns Hin) as [conns' Hrm].
    destruct (user_cursors s !! project_id info) as [room|] eqn:Hroom.
    + exists info, conns, conns', room. split_and!; try done.
      by apply disconnect_registered with conns.
    + apply (wf_rooms s Hwf) in Hroom. congruence.
  - left. split; [done |]. by apply disconnect_unregistered.
Qed.

Lemma disconnect_wf s ws :
  wf s → ∃ s', disconnect ws s = Outcome s' [] (Ok tt) ∧ wf s'.
Proof.
  intros Hwf. destruct (disconnect_cases s ws Hwf)
    as [[_ Hrun]|(info & conns & conns' & room & Hws & Hconns & Hrm & Hroom & Hrun)].
  - eauto.
  - eexists. split; [done |]. by eapply left_wf.
Qed.

Lemma left_presence_wf s ws info conns conns' room R P :
  wf s →
  connection_users s !! ws = Some info →
  active_connections s !! project_id info = Some conns →
  list_remove ws conns = Some conns' →
  user_cursors s !! project_id info = Some room →
  presence (left_state s ws info conns' room) R P =
    if decide (project_id info = R ∧ user_id info = P) then None else presence s R P.
Proof.
  intros Hwf Hws Hconns Hrm Hroom.
  rewrite (left_presence s ws info conns conns' room) by done.
  destruct (decide (project_id info = R ∧ user_id info = P)) as [[<- <-]|Hn].
  - rewrite decide_True; naive_solver.
  - destruct (decide _) as [[<- [Hnil|HP]]|]; [| naive_solver | done].
    destruct (presence s (project_id info) P) as [cur|] eqn:Hp; [| done].
    destruct (wf_presence_bound s Hwf _ _ _ Hp) as (x & i & Hx & HiR & HiP).
    destruct (wf_bound_conn s Hwf x i Hx) as (c & Hc & Hxc).
    rewrite HiR, Hconns in Hc. injection Hc as <-.
    destruct (decide (x = ws)) as [->|Hne].
    + rewrite Hws in Hx. injection Hx as <-. naive_solver.
    + assert (x ∈ conns') as Hin.
      { apply (left_elem s ws info conns conns'); [done .. | naive_solver]. }
      rewrite Hnil in Hin. by apply elem_of_nil in Hin.
Qed.

(** Effect of one [disconnect] on the registry and on presence. *)
Lemma disconnect_users s ws x :
  wf s →
  connection_users (final (disconnect ws s)) !! x =
    if decide (ws = x) then None else connection_users s !! x.
Proof.
  intros Hwf. destruct (disconnect_cases s ws Hwf)
    as [[Hno ->]|(info & conns & conns' & room & Hws & Hconns & Hrm & Hroom & ->)];
    cbn [final].
  - destruct (decide (ws = x)) as [<-|]; done.
  - by apply left_users.
Qed.

Lemma disconnect_presence s ws R P :
  wf s →
  presence (final (disconnect ws s)) R P =
    match connection_users s !! ws with
    | Some info =>
        if decide (project_id info = R ∧ user_id info = P) then None
        else presence s R P
    | None => presence s R P
    end.
Proof.
  intros Hwf. destruct (disconnect_cases s ws Hwf)
    as [[Hno ->]|(info & conns & conns' & room & Hws & Hconns & Hrm & Hroom & ->)];
    cbn [final].
  - by rewrite Hno.
  - rewrite Hws. by eapply left_presence_wf.
Qed.

Lemma disconnect_active s ws R :
  wf s →
  active_connections (final (disconnect ws s)) !! R =
    match connection_users s !! ws with
    | Some info =>
        if decide (project_id info = R)
        then conns ← active_connections s !! R;
             conns' ← list_remove ws conns;
             if decide (conns' = []) then None else Some conns'
        else active_connections s !! R
    | None => active_connections s !! R
    end.
Proof.
  intros Hwf. destruct (disconnect_cases s ws Hwf)
    as [[Hno ->]|(info & conns & conns' & room & Hws & Hconns & Hrm & Hroom & ->)];
    cbn [final].
  - by rewrite Hno.
  - rewrite Hws, (left_active s ws info conns' room).
    destruct (decide (project_id info = R)) as [<-|]; [| done].
    rewrite Hconns. simpl. by rewrite Hrm.
Qed.

Lemma disconnect_wf_single s ws :
  wf s → wf_single s → wf_single (final (disconnect ws s)).
Proof.
  intros Hwf Hsg. split.
  - intros x y i j. rewrite !disconnect_users by done.
    destruct (decide (ws = x)), (decide (ws = y)); try done.
    by apply single_conn.
  - intros x i. rewrite disconnect_users by done.
    destruct (decide (ws = x)) as [|Hne]; [done |]. intros Hx.
    rewrite disconnect_presence by done.
    destruct (connection_users s !! ws) as [info|] eqn:Hws;
      [| by eapply single_presence].
    destruct (decide _) as [[HR HP]|]; [| by eapply single_presence].
    destruct Hne. by eapply (single_conn s Hsg).
Qed.

(** ** The cleanup pass of a broadcast *)

Lemma cleanup_run l s : wf s → ∃ s', cleaned s l s'.
Proof.
  unfold cleaned. revert s. induction l as [|a l IH]; intros s Hwf.
  - exists s. split_and!; try done.
  - destruct (disconnect_wf s a Hwf) as (s1 & Hrun & Hwf1).
    destruct (IH s1 Hwf1) as (s' & Hrun' & Hwf' & Hsg' & Hus & Hmono & Hkeep).
    assert (s1 = final (disconnect a s)) as Hs1 by by rewrite Hrun.
    exists s'. split_and!.
    + simpl. unfold bind. rewrite Hrun. simpl. by rewrite Hrun'.
    + done.
    + intros Hsg. apply Hsg'. rewrite Hs1. by apply disconnect_wf_single.
    + intros x. rewrite Hus, Hs1, disconnect_users by done.
      destruct (decide (x ∈ l)) as [Hin|Hnin].
      * rewrite decide_True; [done | by right].
      * destruct (decide (a = x)) as [->|Hne].
        -- rewrite decide_True; [done | by left].
        -- rewrite decide_False; [done |]. rewrite elem_of_cons. naive_solver.
    + intros R P cur Hp. apply Hmono in Hp.
      rewrite Hs1, disconnect_presence in Hp by done.
      destruct (connection_users s !! a); [| done]. by destruct (decide _).
    + intros R P Hno. rewrite Hkeep.
      * rewrite Hs1, disconnect_presence by done.
        destruct (connection_users s !! a) as [info|] eqn:Ha; [| done].
        rewrite decide_False; [done |]. apply (Hno a); [by left | done].
      * intros x info Hx. rewrite Hs1, disconnect_users by done.
        destruct (decide (a = x)); [done |]. apply Hno. by right.
Qed.

(** ** [broadcast_to_project] *)

(** The delivery loop writes to every socket it can and touches nothing in
    the manager. *)
Lemma broadcast_loop_run broken message exclude conns s :
  broadcast_loop broken message exclude conns s =
    Outcome s (deliveries broken message exclude conns)
              (Ok (failures broken exclude conns)).
Proof.
  unfold deliveries, recipients, failures.
  induction conns as [|ws conns IH]; [done |].
  simpl. rewrite !filter_cons. destruct (decide (Some ws = exclude)) as [He|He].
  - rewrite IH. rewrite !decide_False by naive_solver. done.
  - unfold bind, try_except, send_text, writable in *.
    destruct (broken ws) as [e|] eqn:Hb; simpl.
    + rewrite IH. simpl. rewrite ?app_nil_r.
      repeat case_decide; done || naive_solver.
    + rewrite IH. simpl. rewrite ?app_nil_r.
      repeat case_decide; done || naive_solver.
Qed.

Lemma broadcast_to_project_absent broken R message exclude s :
  active_connections s !! R = None →
  broadcast_to_project broken R message exclude s = Outcome s [] (Ok tt).
Proof. intros Hno. unfold broadcast_to_project, bind, get. simpl. by rewrite Hno. Qed.

Lemma broadcast_to_project_present broken R message exclude s conns :
  active_connections s !! R = Some conns →
  broadcast_to_project broken R message exclude s =
    let r := for_each (failures broken exclude conns) disconnect s in
    Outcome (final r) (deliveries broken message exclude conns ++ trace r) (value r).
Proof.
  intros Hc. unfold broadcast_to_project, bind, get. simpl. rewrite Hc. simpl.
  rewrite broadcast_loop_run. simpl. by destruct (for_each _ _ _).
Qed.

(** A broadcast in a consistent state never raises; its trace is the
    deliveries and its final state the cleanup of the failed sockets. *)
Lemma broadcast_to_project_run broken R message exclude s :
  wf s →
  let conns := default [] (active_connections s !! R) in
  ∃ s', broadcast_to_project broken R message exclude s =
          Outcome s' (deliveries broken message exclude conns) (Ok tt) ∧
        cleaned s (failures broken exclude conns) s'.
Proof.
  intros Hwf conns. unfold conns.
  destruct (cleanup_run (failures broken exclude
              (default [] (active_connections s !! R))) s Hwf) as (s' & Hcl).
  exists s'. split; [| done]. destruct Hcl as (Hrun & _).
  destruct (active_connections s !! R) as [c|] eqn:Hc; simpl in *.
  - rewrite (broadcast_to_project_present _ _ _ _ _ c Hc), Hrun. simpl.
    by rewrite app_nil_r.
  - rewrite broadcast_to_project_absent by done.
    unfold ret in Hrun. by injection Hrun as <-.
Qed.
(** ** [connect] *)

Section registered_state_facts.
Context (s : ConnectionManager) (ws : Conn) (R : Z) (user : User.t).
Hypothesis Hwf : wf s.
Hypothesis Hfresh : connection_users s !! ws = None.

Local Abbreviation s1 := (registered_state s ws R user).

Lemma registered_users x :
  connection_users s1 !! x =
    if decide (ws = x) then Some (bound_info R user) else connection_users s !! x.
Proof. unfold registered_state. simpl. by rewrite lookup_insert. Qed.

Lemma registered_active R' :
  active_connections s1 !! R' =
    if decide (R = R') then Some (default [] (active_connections s !! R) ++ [ws])
    else active_connections s !! R'.
Proof. unfold registered_state. simpl. by rewrite lookup_insert. Qed.

Lemma registered_cursors R' :
  user_cursors s1 !! R' =
    if decide (R = R')
    then Some (Dict.set (default [] (user_cursors s !! R)) (User.id user)
                        (initial_cursor user))
    else user_cursors s !! R'.
Proof. unfold registered_state. simpl. by rewrite lookup_insert. Qed.

Lemma registered_presence R' P :
  presence s1 R' P =
    if decide (R = R' ∧ User.id user = P) then Some (initial_cursor user)
    else presence s R' P.
Proof.
  unfold presence. rewrite registered_cursors.
  destruct (decide (R = R')) as [<-|HR]; simpl.
  - rewrite dict_get_set. destruct (decide (User.id user = P)).
    + rewrite decide_True; done.
    + rewrite decide_False by naive_solver.
      by destruct (user_cursors s !! R).
  - rewrite decide_False; naive_solver.
Qed.

Lemma fresh_not_listed R' conns : active_connections s !! R' = Some conns → ws ∉ conns.
Proof.
  intros Hc Hin. destruct (wf_conn_bound s Hwf R' conns ws Hc Hin) as (i & Hi & _).
  congruence.
Qed.

Lemma registered_wf : wf s1.
Proof.
  split.
  - intros R'. rewrite registered_active, registered_cursors.
    destruct (decide (R = R')); [done | by apply wf_rooms].
  - intros R' c. rewrite registered_active.
    destruct (decide (R = R')); [| by apply wf_nonempty].
    intros [= <-]. by destruct (default [] _).
  - intros R' c. rewrite registered_active.
    destruct (decide (R = R')); [| by apply wf_nodup].
    intros [= <-]. apply NoDup_app. split_and!.
    + destruct (active_connections s !! R) eqn:E; simpl;
        [by eapply wf_nodup | apply NoDup_nil_2].
    + intros x Hx ->%list_elem_of_singleton.
      destruct (active_connections s !! R) eqn:E; simpl in Hx;
        [by eapply fresh_not_listed | by apply elem_of_nil in Hx].
    + apply NoDup_singleton.
  - intros R' c x. rewrite registered_active, registered_users.
    destruct (decide (ws = x)) as [<-|Hne].
    + destruct (decide (R = R')) as [<-|]; [by eauto |].
      intros Hc Hin. by destruct (fresh_not_listed R' c Hc).
    + destruct (decide (R = R')) as [<-|]; [| by apply wf_conn_bound].
      intros [= <-]. rewrite elem_of_app, list_elem_of_singleton.
      intros [Hx | ->]; [| done].
      destruct (active_connections s !! R) eqn:E; simpl in Hx;
        [by eapply wf_conn_bound | by apply elem_of_nil in Hx].
  - intros x i. rewrite registered_users.
    destruct (decide (ws = x)) as [<-|Hne].
    + intros [= <-]. simpl. rewrite registered_active, decide_True by done.
      eexists. split; [done |]. apply elem_of_app. right. by apply list_elem_of_singleton.
    + intros Hx. destruct (wf_bound_conn s Hwf x i Hx) as (c & Hc & Hxc).
      rewrite registered_active. destruct (decide (R = project_id i)) as [->|]; [| eauto].
      rewrite Hc. simpl. eexists. split; [done |]. apply elem_of_app. by left.
  - intros R' P cur. rewrite registered_presence.
    destruct (decide (R = R' ∧ User.id user = P)) as [[<- <-]|].
    + intros _. exists ws, (bound_info R user).
      rewrite registered_users, decide_True by done. done.
    + intros Hp. destruct (wf_presence_bound s Hwf R' P cur Hp) as (x & i & Hx & ? & ?).
      exists x, i. rewrite registered_users.
      destruct (decide (ws = x)) as [<-|]; [congruence | done].
  - intros R' rm. rewrite registered_cursors.
    destruct (decide (R = R')); [| by apply wf_keys].
    intros [= <-]. apply dict_NoDup_set.
    destruct (user_cursors s !! R) eqn:E; simpl;
      [by eapply wf_keys | apply NoDup_nil_2].
  - intros R' P cur. rewrite registered_presence.
    destruct (decide (R = R' ∧ User.id user = P)); [| by apply wf_cursor].
    intros [= <-]. unfold cursor_ok, initial_cursor. simpl. eauto 10.
Qed.

Lemma registered_wf_single :
  wf_single s →
  (∀ ws' info, connection_users s !! ws' = Some info →
     project_id info = R → user_id info ≠ User.id user) →
  wf_single s1.
Proof.
  intros Hsg Hsolo. split.
  - intros x y i j. rewrite !registered_users.
    destruct (decide (ws = x)) as [<-|], (decide (ws = y)) as [<-|]; try done.
    + intros [= <-] Hy HR HP. simpl in *. by destruct (Hsolo y j).
    + intros Hx [= <-] HR HP. simpl in *. by destruct (Hsolo x i).
    + by apply single_conn.
  - intros x i. rewrite registered_users, registered_presence.
    destruct (decide (ws = x)) as [<-|].
    + intros [= <-]. simpl. rewrite decide_True; done.
    + intros Hx. destruct (decide _); [done |]. by eapply single_presence.
Qed.
End registered_state_facts.

Lemma connect_prefix ws R user s (k : M unit) :
  wf s →
  (emit (Accept ws) ;;
   self <- get ;;
   (if decide (active_connections self !! R = None)
    then set_active_connections (<[R := []]>) ;;
         set_user_cursors (<[R := []]>)
    else ret tt) ;;
   self <- get ;;
   conns <- lookup_or KeyError (active_connections self !! R) ;;
   set_active_connections (<[R := conns ++ [ws]]>) ;;
   set_connection_users (<[ws := bound_info R user]>) ;;
   self <- get ;;
   room <- lookup_or KeyError (user_cursors self !! R) ;;
   set_user_cursors (<[R := Dict.set room (User.id user) (initial_cursor user)]>) ;;
   k) s =
  let r := k (registered_state s ws R user) in
  Outcome (final r) (Accept ws :: trace r) (value r).
Proof.
  intros Hwf. unfold bind, get, emit, set_active_connections, set_user_cursors,
    set_connection_users, modify, lookup_or, ret. simpl.
  destruct (active_connections s !! R) as [conns|] eqn:Hc; simpl.
  - destruct (user_cursors s !! R) as [room|] eqn:Hr; simpl.
    + rewrite Hc. simpl. rewrite Hr. simpl. unfold registered_state.
      rewrite Hc, Hr. simpl. by destruct (k _).
    + apply (wf_rooms s Hwf) in Hr. congruence.
  - assert (user_cursors s !! R = None) as Hr by by apply (wf_rooms s Hwf).
    rewrite ?decide_True by done. simpl.
    repeat (rewrite lookup_insert_eq; simpl).
    unfold registered_state. rewrite Hc, Hr. simpl.
    rewrite !insert_insert_eq. by destruct (k _).
Qed.

Lemma send_personal_message_run broken ws message s :
  send_personal_message broken ws message s =
    Outcome s (if writable broken ws then [SendText ws message] else []) (Ok tt).
Proof.
  unfold send_personal_message, try_except, send_text, writable.
  by destruct (broken ws).
Qed.

Lemma active_user_is_Some item : cursor_ok item.2 → is_Some (active_user item).
Proof.
  intros (_ & _ & [u Hu] & _). unfold active_user. rewrite Hu. simpl. eauto.
Qed.

(** The join in full: bookkeeping, [user_joined] to the others, cleanup of
    the sockets that failed, then the snapshot for the newcomer. *)
Lemma connect_run broken ws R user s :
  wf s → connection_users s !! ws = None →
  let s1 := registered_state s ws R user in
  let others := default [] (active_connections s !! R) ++ [ws] in
  let joined := user_joined user (initial_cursor user) in
  ∃ s2 room entries,
    cleaned s1 (failures broken (Some ws) others) s2 ∧
    connection_users s2 !! ws = Some (bound_info R user) ∧
    user_cursors s2 !! R = Some room ∧
    mapM active_user room = Some entries ∧
    connect broken ws R user s =
      Outcome s2
        (Accept ws :: deliveries broken joined (Some ws) others ++
           (if writable broken ws then [SendText ws (project_state entries)] else []))
        (Ok tt).
Proof.
  intros Hwf Hfresh s1 others joined.
  pose proof (registered_wf s ws R user Hwf Hfresh) as Hwf1. fold s1 in Hwf1.
  destruct (broadcast_to_project_run broken R joined (Some ws) s1 Hwf1)
    as (s2 & Hb & Hcl).
  assert (default [] (active_connections s1 !! R) = others) as Ho.
  { unfold s1. by rewrite registered_active, decide_True. }
  rewrite Ho in Hb, Hcl.
  destruct Hcl as (Hrun & Hwf2 & Hsg & Hus & Hmono & Hkeep).
  assert (connection_users s2 !! ws = Some (bound_info R user)) as Hws2.
  { rewrite Hus, decide_False.
    - unfold s1. by rewrite registered_users, decide_True.
    - unfold failures. rewrite list_elem_of_filter. naive_solver. }
  destruct (wf_bound_conn s2 Hwf2 ws _ Hws2) as (c2 & Hc2 & _). simpl in Hc2.
  destruct (user_cursors s2 !! R) as [room|] eqn:Hroom; cycle 1.
  { apply (wf_rooms s2 Hwf2) in Hroom. congruence. }
  assert (is_Some (mapM active_user room)) as [entries Hentries].
  { apply mapM_is_Some, Forall_forall. intros [P cur] Hin. simpl.
    apply active_user_is_Some. simpl. apply (wf_cursor s2 Hwf2 R P).
    unfold presence. rewrite Hroom. simpl.
    apply dict_get_elem; [by eapply wf_keys | done]. }
  exists s2, room, entries. split_and!; try done.
  unfold connect.
  etrans; [apply (connect_prefix ws R user s) |]; [done |]. fold s1.
  cbv zeta. unfold bind, get. simpl.
  rewrite lookup_insert_eq. simpl. rewrite dict_get_set_eq. simpl.
  fold (user_joined user (initial_cursor user)). fold joined.
  rewrite Hb. simpl. rewrite Hroom. simpl. rewrite Hentries. simpl.
  fold (project_state entries). rewrite send_personal_message_run. simpl.
  by rewrite ?app_nil_r.
Qed.

(** ** The message handlers *)

Lemma moved_cursor_get cursor data k :
  Dict.get (moved_cursor cursor data) k =
    if decide (k = "timestamp"%string) then Some (Dict.get_default data "timestamp"%string JNull)
    else if decide (k = "y"%string) then Some (Dict.get_default data "y"%string (JInt 0))
    else if decide (k = "x"%string) then Some (Dict.get_default data "x"%string (JInt 0))
    else Dict.get cursor k.
Proof.
  unfold moved_cursor, Dict.update. simpl. rewrite !dict_get_set.
  repeat case_decide; congruence.
Qed.

Lemma moved_cursor_ok cursor data : cursor_ok cursor → cursor_ok (moved_cursor cursor data).
Proof.
  intros (Hx & Hy & Hu & Hc). unfold cursor_ok. rewrite !moved_cursor_get. simpl.
  split_and!; eauto.
Qed.

Section moved_state_facts.
Context (s : ConnectionManager) (R P : Z) (room : list (Z * pyobj))
        (cursor cursor' : pyobj).
Hypothesis Hwf : wf s.
Hypothesis Hroom : user_cursors s !! R = Some room.
Hypothesis Hcur : Dict.get room P = Some cursor.
Hypothesis Hok : cursor_ok cursor'.

Local Abbreviation s1 := (moved_state s R P room cursor').

Lemma moved_presence R' P' :
  presence s1 R' P' =
    if decide (R = R' ∧ P = P') then Some cursor' else presence s R' P'.
Proof.
  unfold presence, s1, moved_state. simpl. rewrite lookup_insert.
  destruct (decide (R = R')) as [<-|]; simpl.
  - rewrite dict_get_set. destruct (decide (P = P')).
    + by rewrite decide_True.
    + rewrite decide_False by naive_solver. by rewrite Hroom.
  - rewrite decide_False; naive_solver.
Qed.

Lemma moved_wf : wf s1.
Proof.
  split.
  - intros R'. unfold moved_state. simpl. rewrite lookup_insert.
    destruct (decide (R = R')) as [<-|]; [| by apply wf_rooms].
    split; [| done]. intros Hno. apply (wf_rooms s Hwf) in Hno. congruence.
  - exact (wf_nonempty s Hwf).
  - exact (wf_nodup s Hwf).
  - exact (wf_conn_bound s Hwf).
  - exact (wf_bound_conn s Hwf).
  - intros R' P' cur. rewrite moved_presence.
    destruct (decide _) as [[<- <-]|]; [| exact (wf_presence_bound s Hwf R' P' cur)].
    intros _. refine (wf_presence_bound s Hwf R P cursor _).
    unfold presence. by rewrite Hroom.
  - intros R' rm. unfold moved_state. simpl. rewrite lookup_insert.
    destruct (decide (R = R')) as [<-|]; [| by apply wf_keys].
    intros [= <-]. apply dict_NoDup_set. by eapply wf_keys.
  - intros R' P' cur. rewrite moved_presence.
    destruct (decide _); [| by apply wf_cursor]. by intros [= <-].
Qed.

Lemma moved_wf_single : wf_single s → wf_single s1.
Proof.
  intros Hsg. split.
  - exact (single_conn s Hsg).
  - intros x i Hx. rewrite moved_presence. destruct (decide _); [done |].
    exact (single_presence s Hsg x i Hx).
Qed.
End moved_state_facts.

Lemma outcome_eta {A} (o : outcome A) :
  match o with Outcome self t v => Outcome self t v end = o.
Proof. by destruct o. Qed.

Lemma handle_cursor_update_skip broken ws data s :
  (∀ info, connection_users s !! ws = Some info →
     presence s (project_id info) (user_id info) = None) →
  handle_cursor_update broken ws data s = Outcome s [] (Ok tt).
Proof.
  intros Hno. unfold handle_cursor_update, bind, get. simpl.
  destruct (connection_users s !! ws) as [info|]; [| done].
  specialize (Hno info eq_refl). unfold presence in Hno.
  destruct (user_cursors s !! project_id info) as [room|]; [| done].
  simpl in Hno. by rewrite Hno.
Qed.

Lemma handle_cursor_update_run broken ws data s info room cursor :
  wf s →
  connection_users s !! ws = Some info →
  user_cursors s !! project_id info = Some room →
  Dict.get room (user_id info) = Some cursor →
  let cursor' := moved_cursor cursor data in
  let s1 := moved_state s (project_id info) (user_id info) room cursor' in
  let conns := default [] (active_connections s !! project_id info) in
  ∃ s2, cleaned s1 (failures broken (Some ws) conns) s2 ∧
        handle_cursor_update broken ws data s =
          Outcome s2 (deliveries broken (cursor_update (user_id info) cursor')
                        (Some ws) conns) (Ok tt).
Proof.
  intros Hwf Hws Hroom Hcur cursor' s1 conns.
  assert (wf s1) as Hwf1.
  { apply (moved_wf s _ _ room cursor); try done. apply moved_cursor_ok.
    apply (wf_cursor s Hwf (project_id info) (user_id info)).
    unfold presence. by rewrite Hroom. }
  destruct (broadcast_to_project_run broken (project_id info)
              (cursor_update (user_id info) cursor') (Some ws) s1 Hwf1) as (s2 & Hb & Hcl).
  exists s2. split; [exact Hcl |].
  etrans; [| exact Hb].
  unfold handle_cursor_update, bind, get. simpl. rewrite Hws. simpl.
  rewrite Hroom, Hcur. simpl. rewrite !outcome_eta. reflexivity.
Qed.

Lemma handle_timeline_update_run broken ws data s :
  wf s →
  match connection_users s !! ws with
  | Some info =>
      let conns := default [] (active_connections s !! project_id info) in
      ∃ s2, cleaned s (failures broken (Some ws) conns) s2 ∧
            handle_timeline_update broken ws data s =
              Outcome s2 (deliveries broken (timeline_update (user_id info) data)
                            (Some ws) conns) (Ok tt)
  | None => handle_timeline_update broken ws data s = Outcome s [] (Ok tt)
  end.
Proof.
  intros Hwf. unfold handle_timeline_update, bind, get. simpl.
  destruct (connection_users s !! ws) as [info|]; [| done]. simpl.
  destruct (broadcast_to_project_run broken (project_id info)
              (timeline_update (user_id info) data) (Some ws) s Hwf) as (s2 & Hb & Hcl).
  exists s2. split; [done |]. rewrite <- Hb. exact (outcome_eta _).
Qed.

Lemma handle_chat_message_run broken ws data s :
  wf s →
  match connection_users s !! ws with
  | Some info =>
      let conns := default [] (active_connections s !! project_id info) in
      ∃ s2, cleaned s (failures broken None conns) s2 ∧
            handle_chat_message broken ws data s =
              Outcome s2 (deliveries broken (chat_message info data) None conns) (Ok tt)
  | None => handle_chat_message broken ws data s = Outcome s [] (Ok tt)
  end.
Proof.
  intros Hwf. unfold handle_chat_message, bind, get. simpl.
  destruct (connection_users s !! ws) as [info|]; [| done]. simpl.
  destruct (broadcast_to_project_run broken (project_id info)
              (chat_message info data) None s Hwf) as (s2 & Hb & Hcl).
  exists s2. split; [done |]. rewrite <- Hb. exact (outcome_eta _).
Qed.

(** ** Every call keeps the bookkeeping consistent *)

Lemma init_wf : wf init.
Proof.
  split; unfold init, presence; simpl; intros; simplify_map_eq; done.
Qed.

Lemma init_wf_single : wf_single init.
Proof. split; unfold init; simpl; intros; simplify_map_eq. Qed.

Lemma exec_sound broken c s :
  wf s → admissible s c →
  value (exec broken c s) = Ok tt ∧
  wf (final (exec broken c s)) ∧
  (wf_single s → single_session s c → wf_single (final (exec broken c s))).
Proof.
  intros Hwf Hadm. destruct c as [ws R user|ws|R message exclude|ws data|ws data|ws data];
    simpl in *.
  - destruct (connect_run broken ws R user s Hwf Hadm)
      as (s2 & room & entries & Hcl & _ & _ & _ & ->).
    destruct Hcl as (_ & Hwf2 & Hsg & _). simpl. split_and!; [done .. |].
    intros Hs [_ Hsolo]. apply Hsg. by apply registered_wf_single.
  - destruct (disconnect_wf s ws Hwf) as (s' & Hrun & Hwf').
    split_and!; [by rewrite Hrun | by rewrite Hrun |].
    intros Hs _. by apply disconnect_wf_single.
  - destruct (broadcast_to_project_run broken R message exclude s Hwf)
      as (s' & -> & _ & Hwf' & Hsg & _). simpl. split_and!; [done .. |]. by intros ? _; apply Hsg.
  - destruct (connection_users s !! ws) as [info|] eqn:Hws; cycle 1.
    { rewrite handle_cursor_update_skip by (intros; congruence). done. }
    destruct (presence s (project_id info) (user_id info)) as [cursor|] eqn:Hp; cycle 1.
    { rewrite handle_cursor_update_skip by (intros; congruence). done. }
    unfold presence in Hp.
    destruct (user_cursors s !! project_id info) as [room|] eqn:Hroom; [| done].
    simpl in Hp.
    destruct (handle_cursor_update_run broken ws data s info room cursor Hwf Hws Hroom Hp)
      as (s2 & (_ & Hwf2 & Hsg & _) & ->). simpl. split_and!; [done .. |].
    intros Hs _. apply Hsg. apply (moved_wf_single s _ _ room); try done.
  - pose proof (handle_timeline_update_run broken ws data s Hwf) as Hrun.
    destruct (connection_users s !! ws) as [info|]; [| by rewrite Hrun].
    destruct Hrun as (s2 & (_ & Hwf2 & Hsg & _) & ->). simpl.
    split_and!; [done .. |]. by intros ? _; apply Hsg.
  - pose proof (handle_chat_message_run broken ws data s Hwf) as Hrun.
    destruct (connection_users s !! ws) as [info|]; [| by rewrite Hrun].
    destruct Hrun as (s2 & (_ & Hwf2 & Hsg & _) & ->). simpl.
    split_and!; [done .. |]. by intros ? _; apply Hsg.
Qed.

Lemma single_session_admissible s c : single_session s c → admissible s c.
Proof. destruct c; simpl; naive_solver. Qed.

Lemma reachable_wf s : reachable s → wf s.
Proof.
  induction 1 as [|s broken c _ IH Hadm]; [apply init_wf |].
  by apply exec_sound.
Qed.

Lemma reachable_single_reachable s : reachable_single s → reachable s.
Proof.
  induction 1 as [|s broken c _ IH Hss]; [constructor |].
  constructor; [done | by apply single_session_admissible].
Qed.

Lemma reachable_single_wf s : reachable_single s → wf s ∧ wf_single s.
Proof.
  induction 1 as [|s broken c _ [IHwf IHsg] Hss];
    [split; [apply init_wf | apply init_wf_single] |].
  destruct (exec_sound broken c s IHwf (single_session_admissible s c Hss))
    as (_ & Hwf' & Hsg'). eauto.
Qed.

(** ** Leaving *)

(** Whenever [disconnect] returns normally the socket is unregistered. *)
Lemma disconnect_unregisters s ws :
  value (disconnect ws s) = Ok tt →
  connection_users (final (disconnect ws s)) !! ws = None.
Proof.
  unfold disconnect, bind, get, lookup_or, set_active_connections,
    set_user_cursors, set_connection_users, modify, ret, raise. simpl.
  destruct (connection_users s !! ws) as [info|] eqn:Hws; simpl; [| done].
  destruct (active_connections s !! project_id info) as [conns|]; simpl.
  - destruct (list_remove ws conns) as [[|c conns']|]; simpl; [| | done].
    + destruct (user_cursors s !! project_id info) as [room|]; simpl; [| done].
      rewrite lookup_delete_eq. simpl. intros _. apply lookup_delete_eq.
    + destruct (user_cursors s !! project_id info) as [room|]; simpl.
      * destruct (Dict.mem room (user_id info)); simpl; intros _; apply lookup_delete_eq.
      * intros _. apply lookup_delete_eq.
  - destruct (user_cursors s !! project_id info) as [room|]; simpl.
    + destruct (Dict.mem room (user_id info)); simpl; intros _; apply lookup_delete_eq.
    + intros _. apply lookup_delete_eq.
Qed.

(** C3. [disconnect] (the spec's [leave]) of a socket that is not registered
    raises nothing and returns the manager it was given, with an empty
    trace; this covers a socket that never joined (any socket on the
    initial manager) and the second of two calls for the same socket, since
    a call that returns normally leaves the socket unregistered.  In every
    reachable state the first call does return normally. *)
Theorem disconnect_idempotent (s : ConnectionManager) (ws : Conn) :
  (connection_users s !! ws = None → disconnect ws s = Outcome s [] (Ok tt)) ∧
  disconnect ws init = Outcome init [] (Ok tt) ∧
  (value (disconnect ws s) = Ok tt →
     disconnect ws (final (disconnect ws s)) =
       Outcome (final (disconnect ws s)) [] (Ok tt)) ∧
  (reachable s → value (disconnect ws s) = Ok tt).
Proof.
  split_and!.
  - apply disconnect_unregistered.
  - by apply disconnect_unregistered.
  - intros Hok. by apply disconnect_unregistered, disconnect_unregisters.
  - intros Hwf%reachable_wf. by destruct (disconnect_wf s ws Hwf) as (s' & -> & _).
Qed.

Lemma disconnect_idempotent_witness :
  connection_users alice_and_bob !! 12 = None ∧
  disconnect 12 alice_and_bob = Outcome alice_and_bob [] (Ok tt) ∧
  disconnect 10 (final (disconnect 10 alice_and_bob)) =
    Outcome (final (disconnect 10 alice_and_bob)) [] (Ok tt).
Proof.
  split; [vm_compute; reflexivity |]. split.
  - apply (proj1 (disconnect_idempotent alice_and_bob 12)). vm_compute. reflexivity.
  - apply (proj1 (proj2 (proj2 (disconnect_idempotent alice_and_bob 10)))).
    vm_compute. reflexivity.
Defined.

Lemma reachable_run s calls :
  reachable s → admissible_run s calls → reachable (run_from s calls).
Proof.
  revert s. induction calls as [|c calls IH]; intros s Hs; simpl; [done |].
  intros [Hc Hrest]. apply IH; [by constructor | done].
Qed.

Lemma reachable_single_run s calls :
  reachable_single s → single_session_run s calls → reachable_single (run_from s calls).
Proof.
  revert s. induction calls as [|c calls IH]; intros s Hs; simpl; [done |].
  intros [Hc Hrest]. apply IH; [by constructor | done].
Qed.

(** ** Rooms *)

(** C4. In every reachable state each room of the registry has a non-empty
    connection list.  [disconnect] of a registered socket returns normally;
    afterwards the presence map of its room has no entry for its
    participant, every room that remains is non-empty, and when the socket
    was the participant's only connection and that participant the last one
    of the room, the room is gone from [active_connections] and from
    [user_cursors]. *)
Theorem room_lifecycle (s : ConnectionManager) :
  reachable s →
  (∀ R conns, active_connections s !! R = Some conns → conns ≠ []) ∧
  (∀ ws info, connection_users s !! ws = Some info →
     let s' := final (disconnect ws s) in
     value (disconnect ws s) = Ok tt ∧
     presence s' (project_id info) (user_id info) = None ∧
     (∀ R conns, active_connections s' !! R = Some conns → conns ≠ []) ∧
     ((∀ ws' info', connection_users s !! ws' = Some info' →
         project_id info' = project_id info → user_id info' = user_id info →
         ws' = ws) →
      (∀ ws' info', connection_users s !! ws' = Some info' →
         project_id info' = project_id info → user_id info' = user_id info) →
      active_connections s' !! project_id info = None ∧
      user_cursors s' !! project_id info = None)).
Proof.
  intros Hwf%reachable_wf. split; [exact (wf_nonempty s Hwf) |].
  intros ws info Hws s'.
  destruct (disconnect_wf s ws Hwf) as (s1 & Hrun & Hwf1).
  assert (s' = s1) as -> by (unfold s'; by rewrite Hrun).
  split_and!.
  - by rewrite Hrun.
  - replace s1 with (final (disconnect ws s)) by by rewrite Hrun.
    rewrite disconnect_presence, Hws by done. by rewrite decide_True.
  - exact (wf_nonempty s1 Hwf1).
  - intros Honly Hlast.
    assert (active_connections s1 !! project_id info = None) as Hgone.
    { replace s1 with (final (disconnect ws s)) by by rewrite Hrun.
      rewrite disconnect_active, Hws, decide_True by done.
      destruct (wf_bound_conn s Hwf ws info Hws) as (conns & Hconns & Hin).
      rewrite Hconns. simpl.
      destruct (list_remove ws conns) as [conns'|] eqn:Hrm; simpl; [| done].
      destruct (decide (conns' = [])) as [|Hne]; [done |]. exfalso.
      destruct conns' as [|x rest]; [done |].
      assert (x ∈ conns ∧ x ≠ ws) as [Hx Hxne].
      { apply (list_remove_elem ws conns (x :: rest));
          [exact (wf_nodup s Hwf _ _ Hconns) | done | by left]. }
      destruct (wf_conn_bound s Hwf _ conns x Hconns Hx) as (i & Hi & HiR).
      apply Hxne. apply (Honly x i); [done .. |]. by apply (Hlast x i). }
    split; [done |]. by apply (wf_rooms s1 Hwf1).
Qed.

Lemma room_lifecycle_witness :
  reachable alice_and_bob ∧
  (∀ R conns, active_connections alice_and_bob !! R = Some conns → conns ≠ []) ∧
  presence (final (disconnect 11 alice_and_bob)) 7 2 = None.
Proof.
  assert (reachable alice_and_bob) as Hr.
  { apply reachable_run; [constructor |]. vm_compute. done. }
  split; [exact Hr |].
  destruct (room_lifecycle alice_and_bob Hr) as [Hne Hleave]. split; [exact Hne |].
  refine (proj1 (proj2 (Hleave 11 (bound_info 7 bob) _))). vm_compute. reflexivity.
Defined.

Example last_leave_removes_room :
  let s := final (disconnect 11 (final (disconnect 10 alice_and_bob))) in
  active_connections s !! 7%Z = None ∧ user_cursors s !! 7%Z = None.
Proof. vm_compute. done. Qed.

(** ** Presence *)

Lemma presence_live s R P :
  wf s → is_Some (presence s R P) → ∃ ws, live s R P ws.
Proof.
  intros Hwf [cur Hp].
  destruct (wf_presence_bound s Hwf R P cur Hp) as (ws & info & Hws & HR & HP).
  destruct (wf_bound_conn s Hwf ws info Hws) as (conns & Hconns & Hin).
  exists ws, info, conns. rewrite HR in Hconns. done.
Qed.

Lemma live_presence s R P ws :
  wf_single s → live s R P ws → is_Some (presence s R P).
Proof.
  intros Hsg (info & conns & Hws & <- & <- & _). by eapply single_presence.
Qed.

(** C1, as the code has it.  In every reachable state a presence entry for
    [P] in room [R] implies a live connection of [P] registered in [R].
    [disconnect] of any registered socket removes the presence entry of its
    participant from its room, whether or not the participant has another
    socket there.  The equivalence between presence and live connections
    holds in the states reached while no participant holds two connections
    in one room at the same time. *)
Theorem presence_needs_live_connection (s : ConnectionManager) :
  reachable s →
  (∀ R P, is_Some (presence s R P) → ∃ ws, live s R P ws) ∧
  (∀ ws info, connection_users s !! ws = Some info →
     presence (final (disconnect ws s)) (project_id info) (user_id info) = None) ∧
  (reachable_single s →
     ∀ R P, is_Some (presence s R P) ↔ ∃ ws, live s R P ws).
Proof.
  intros Hr. pose proof (reachable_wf s Hr) as Hwf. split_and!.
  - intros R P. by apply presence_live.
  - intros ws info Hws. rewrite disconnect_presence, Hws by done.
    by rewrite decide_True.
  - intros [_ Hsg]%reachable_single_wf R P. split; [by apply presence_live |].
    intros [ws Hlive]. by eapply live_presence.
Qed.

Lemma two_tabs_reachable : reachable two_tabs.
Proof. apply reachable_run; [constructor |]. vm_compute. done. Qed.

Lemma presence_needs_live_connection_witness :
  reachable two_tabs ∧
  (∀ R P, is_Some (presence two_tabs R P) → ∃ ws, live two_tabs R P ws).
Proof.
  assert (reachable two_tabs) as Hr.
  { apply reachable_run; [constructor |]. vm_compute. done. }
  split; [exact Hr |]. exact (proj1 (presence_needs_live_connection two_tabs Hr)).
Defined.

(** C1 fails as stated: Alice joins project 7 on sockets 10 and 11 and socket
    10 leaves.  Socket 11 is still a live connection of Alice in the room,
    yet her presence entry is gone. *)
Lemma presence_dropped_with_live_connection :
  reachable two_tabs ∧ live two_tabs 7 1 11 ∧ ¬ is_Some (presence two_tabs 7 1).
Proof.
  split; [apply two_tabs_reachable |]. split.
  - exists (bound_info 7 alice), [11]. split_and!; try (vm_compute; reflexivity).
    by apply list_elem_of_singleton.
  - vm_compute. by intros [? ?].
Qed.

(** ** Broadcast *)

Lemma deliveries_elem broken message exclude conns ws m :
  SendText ws m ∈ deliveries broken message exclude conns ↔
  m = message ∧ ws ∈ conns ∧ Some ws ≠ exclude ∧ broken ws = None.
Proof.
  unfold deliveries, recipients, writable. rewrite list_elem_of_fmap. split.
  - intros (x & [= -> ->] & Hx%list_elem_of_filter).
    destruct (broken x); naive_solver.
  - intros (-> & Hin & Hex & Hb). exists ws. split; [done |].
    apply list_elem_of_filter. by rewrite Hb.
Qed.

Lemma deliveries_only_sends broken message exclude conns e :
  e ∈ deliveries broken message exclude conns → ∃ ws, e = SendText ws message.
Proof. unfold deliveries. rewrite list_elem_of_fmap. naive_solver. Qed.

Lemma failures_elem broken exclude conns ws :
  ws ∈ failures broken exclude conns ↔
  ws ∈ conns ∧ Some ws ≠ exclude ∧ is_Some (broken ws).
Proof.
  unfold failures, writable. rewrite list_elem_of_filter.
  destruct (broken ws); naive_solver.
Qed.

(** C5. A broadcast to a room of a reachable manager returns normally
    whatever sockets fail.  Its trace is exactly one write of the envelope to
    each socket of the room that is not excluded and whose transport accepts
    it, so a failure on one socket costs no other socket its delivery.  The
    delivery loop itself returns the manager untouched together with the
    list of failed sockets; the final manager is the one obtained by running
    [disconnect] over that list afterwards, and none of the failed sockets is
    registered in it. *)
Theorem broadcast_isolates_failures (s : ConnectionManager) (broken : transport)
    (R : Z) (message : json) (exclude : option Conn) (conns : list Conn) :
  reachable s →
  active_connections s !! R = Some conns →
  let r := broadcast_to_project broken R message exclude s in
  value r = Ok tt ∧
  trace r = deliveries broken message exclude conns ∧
  (∀ ws, ws ∈ conns → Some ws ≠ exclude → broken ws = None →
     SendText ws message ∈ trace r) ∧
  broadcast_loop broken message exclude conns s =
    Outcome s (deliveries broken message exclude conns)
              (Ok (failures broken exclude conns)) ∧
  for_each (failures broken exclude conns) disconnect s = Outcome (final r) [] (Ok tt) ∧
  (∀ ws, ws ∈ conns → Some ws ≠ exclude → is_Some (broken ws) →
     connection_users (final r) !! ws = None).
Proof.
  intros Hwf%reachable_wf Hconns r.
  destruct (broadcast_to_project_run broken R message exclude s Hwf)
    as (s' & Hrun & Hcl & _ & _ & Hus & _).
  rewrite Hconns in Hrun, Hcl, Hus. simpl in *.
  unfold r. rewrite Hrun. simpl. split_and!; try done.
  - intros ws Hin Hex Hb. by apply deliveries_elem.
  - apply broadcast_loop_run.
  - intros ws Hin Hex Hb. rewrite Hus, decide_True; [done |].
    by apply failures_elem.
Qed.

Lemma broadcast_isolates_failures_witness :
  reachable alice_and_bob ∧
  trace (broadcast_to_project socket_10_down 7 JNull None alice_and_bob) =
    [SendText 11 JNull] ∧
  connection_users
    (final (broadcast_to_project socket_10_down 7 JNull None alice_and_bob)) !! 10 = None.
Proof.
  assert (reachable alice_and_bob) as Hr.
  { apply reachable_run; [constructor |]. vm_compute. done. }
  assert (active_connections alice_and_bob !! 7%Z = Some [10; 11]) as Hc
    by (vm_compute; reflexivity).
  destruct (broadcast_isolates_failures alice_and_bob socket_10_down 7 JNull None
              [10; 11] Hr Hc)
    as (_ & Htr & _ & _ & _ & Hgone).
  split; [exact Hr |]. split.
  - rewrite Htr. vm_compute. reflexivity.
  - apply Hgone; [by left | done | by eexists].
Defined.

(** ** The snapshot sent on join *)

Lemma keys_presence s R room P :
  user_cursors s !! R = Some room → P ∈ room.*1 ↔ is_Some (presence s R P).
Proof.
  intros Hroom. unfold presence. rewrite Hroom. simpl.
  symmetry. apply dict_get_Some_keys.
Qed.

(** C6, as the code has it.  Provided no participant holds two connections
    in one room at the same time and the transport of the joining socket
    accepts the write, [connect] returns normally and the joining socket
    receives exactly one envelope, of type [project_state], sent after the
    [user_joined] notifications.  Its [active_users] list is built item by
    item from the room's cursor dictionary as it is after the join: one
    entry [{id, username, cursor}] per key, the keys being without
    duplicates and exactly the participants with a live connection in the
    room, the joiner among them; every cursor has [x], [y], [username] and
    [color]. *)
Theorem join_snapshot (s : ConnectionManager) (broken : transport) (ws : Conn)
    (R : Z) (user : User.t) :
  reachable_single s →
  single_session s (Connect ws R user) →
  broken ws = None →
  ∃ room entries pre,
    let r := connect broken ws R user s in
    value r = Ok tt ∧
    trace r = Accept ws :: pre ++ [SendText ws (project_state entries)] ∧
    (∀ m, SendText ws m ∉ pre) ∧
    user_cursors (final r) !! R = Some room ∧
    Forall2 snapshot_entry room entries ∧
    Forall (λ item, cursor_ok item.2) room ∧
    NoDup room.*1 ∧
    (∀ P, P ∈ room.*1 ↔ ∃ ws', live (final r) R P ws') ∧
    User.id user ∈ room.*1.
Proof.
  intros [Hwf Hsg]%reachable_single_wf [Hfresh Hsolo] Hup.
  destruct (connect_run broken ws R user s Hwf Hfresh)
    as (s2 & room & entries & Hcl & Hws2 & Hroom & Hentries & Hrun).
  destruct Hcl as (_ & Hwf2 & Hsg2 & _).
  assert (wf_single s2) as Hsg2'.
  { apply Hsg2. by apply registered_wf_single. }
  assert (∀ P, P ∈ room.*1 ↔ ∃ ws', live s2 R P ws') as Hexact.
  { intros P. rewrite (keys_presence s2 R room P Hroom). split.
    - by apply presence_live.
    - intros [ws' Hl]. by eapply live_presence. }
  exists room, entries, (deliveries broken (user_joined user (initial_cursor user))
    (Some ws) (default [] (active_connections s !! R) ++ [ws])).
  cbv zeta. rewrite Hrun. simpl. unfold writable. rewrite Hup. split_and!; try done.
  - intros m Hin%deliveries_elem. naive_solver.
  - apply mapM_Some in Hentries. eapply Forall2_impl; [done |].
    intros item entry Hitem. unfold active_user in Hitem.
    destruct (Dict.get item.2 "username"%string) as [uname|] eqn:Hu; [| done].
    exists uname. simpl in Hitem. by injection Hitem as <-.
  - apply Forall_forall. intros [P cur] Hin. simpl.
    apply (wf_cursor s2 Hwf2 R P). unfold presence. rewrite Hroom. simpl.
    apply dict_get_elem; [by eapply wf_keys | done].
  - by eapply wf_keys.
  - apply Hexact. exists ws.
    destruct (wf_bound_conn s2 Hwf2 ws _ Hws2) as (conns & Hconns & Hin).
    by exists (bound_info R user), conns.
Qed.

Lemma join_snapshot_witness :
  ∃ room entries pre,
    trace (connect up 11 7 bob (run_from init [Connect 10 7 alice])) =
      Accept 11 :: pre ++ [SendText 11 (project_state entries)] ∧
    Forall2 snapshot_entry room entries ∧ room.*1 = [1%Z; 2%Z].
Proof.
  assert (reachable_single (run_from init [Connect 10 7 alice])) as Hr.
  { apply reachable_single_run; [constructor |].
    split; [| done]. split; [vm_compute; reflexivity |].
    intros x i Hx. vm_compute in Hx. done. }
  assert (single_session (run_from init [Connect 10 7 alice]) (Connect 11 7 bob)) as Hs.
  { split; [vm_compute; reflexivity |].
    apply (bool_decide_unpack _). vm_compute. exact I. }
  destruct (join_snapshot (run_from init [Connect 10 7 alice]) up 11 7 bob Hr Hs eq_refl)
    as (room & entries & pre & _ & Htr & _ & Hroom & Hent & _).
  exists room, entries, pre. split_and!; [done | done |].
  vm_compute in Hroom. by injection Hroom as <-.
Defined.

(** C6 fails as stated: Alice joins project 7 on sockets 10 and 11, socket 10
    leaves, and Bob joins on socket 12.  The envelope Bob receives has type
    [project_state] and lists Bob alone, although Alice is still connected
    through socket 11. *)
Lemma snapshot_omits_connected_participant :
  reachable two_tabs ∧
  trace (connect up 12 7 bob two_tabs) =
    [Accept 12;
     SendText 11 (user_joined bob (initial_cursor bob));
     SendText 12 (project_state
       [JObj [("id", JInt 2); ("username", JStr "bob");
              ("cursor", JObj (initial_cursor bob))]%string])] ∧
  live (final (connect up 12 7 bob two_tabs)) 7 1 11.
Proof.
  split; [apply two_tabs_reachable |]. split; [vm_compute; reflexivity |].
  exists (bound_info 7 alice), [11; 12]. split_and!; try (vm_compute; reflexivity).
  by left.
Qed.

(** ** Cursor updates *)

(** C7, as the code has it.  Provided no participant holds two connections
    in one room at the same time, a [cursor_update] from a registered socket
    of participant [A] returns normally; [A]'s presence entry exists and
    afterwards holds the payload's [x], [y] and [timestamp] (with the
    defaults [0], [0] and [None] of [data.get]); the trace consists of one
    [cursor_update] envelope, carrying [A]'s bound [user_id] and the updated
    cursor, for every other socket registered in [A]'s room whose transport
    accepts it; every write goes to a socket registered in [A]'s room that
    is neither the sending socket nor a socket of [A]. *)
Theorem cursor_update_fanout (s : ConnectionManager) (broken : transport)
    (ws : Conn) (info : ConnInfo) (data : pyobj) :
  reachable_single s →
  connection_users s !! ws = Some info →
  ∃ cursor,
    let r := handle_cursor_update broken ws data s in
    let cursor' := moved_cursor cursor data in
    let envelope := cursor_update (user_id info) cursor' in
    presence s (project_id info) (user_id info) = Some cursor ∧
    value r = Ok tt ∧
    presence (final r) (project_id info) (user_id info) = Some cursor' ∧
    Dict.get cursor' "x"%string = Some (Dict.get_default data "x"%string (JInt 0)) ∧
    Dict.get cursor' "y"%string = Some (Dict.get_default data "y"%string (JInt 0)) ∧
    Dict.get cursor' "timestamp"%string =
      Some (Dict.get_default data "timestamp"%string JNull) ∧
    (∀ ws' info', connection_users s !! ws' = Some info' →
       project_id info' = project_id info → ws' ≠ ws → broken ws' = None →
       SendText ws' envelope ∈ trace r) ∧
    (∀ e, e ∈ trace r → ∃ ws' info',
       e = SendText ws' envelope ∧ ws' ≠ ws ∧
       connection_users s !! ws' = Some info' ∧
       project_id info' = project_id info ∧ user_id info' ≠ user_id info).
Proof.
  intros [Hwf Hsg]%reachable_single_wf Hws.
  destruct (single_presence s Hsg ws info Hws) as [cursor Hp].
  exists cursor. cbv zeta. split; [done |].
  pose proof Hp as Hp'. unfold presence in Hp'.
  destruct (user_cursors s !! project_id info) as [room|] eqn:Hroom; [| done].
  simpl in Hp'.
  destruct (handle_cursor_update_run broken ws data s info room cursor Hwf Hws Hroom Hp')
    as (s2 & Hcl & Hrun).
  destruct (wf_bound_conn s Hwf ws info Hws) as (conns & Hconns & Hin).
  rewrite Hconns in Hcl, Hrun. simpl in Hcl, Hrun.
  destruct Hcl as (_ & _ & _ & _ & _ & Hkeep).
  assert (cursor_ok (moved_cursor cursor data)) as Hok.
  { apply moved_cursor_ok, (wf_cursor s Hwf _ _ _ Hp). }
  rewrite Hrun. simpl. split_and!; try done.
  - rewrite Hkeep.
    + rewrite (moved_presence s _ _ room _ Hroom). by rewrite decide_True.
    + intros x i [Hx [Hex _]]%failures_elem Hi [HR HP].
      apply Hex. f_equal. by apply (single_conn s Hsg x ws i info).
  - by rewrite moved_cursor_get.
  - by rewrite moved_cursor_get.
  - by rewrite moved_cursor_get.
  - intros ws' info' Hws' HR Hne Hup. apply deliveries_elem. split_and!; try done.
    + destruct (wf_bound_conn s Hwf ws' info' Hws') as (c & Hc & Hin').
      rewrite HR, Hconns in Hc. by injection Hc as <-.
    + by intros [= ->].
  - intros e He. destruct (deliveries_only_sends _ _ _ _ _ He) as [ws' ->].
    apply deliveries_elem in He as (_ & Hin' & Hex & _).
    destruct (wf_conn_bound s Hwf _ conns ws' Hconns Hin') as (info' & Hws' & HR).
    exists ws', info'. split_and!; try done.
    + by intros ->.
    + intros HP. apply Hex. f_equal. by apply (single_conn s Hsg ws' ws info' info).
Qed.

Lemma cursor_update_fanout_witness :
  trace (handle_cursor_update up 10
           [("type", JStr "cursor_update"); ("x", JInt 10); ("y", JInt 20)]%string
           alice_and_bob) =
    [SendText 11 (cursor_update 1
       [("x", JInt 10); ("y", JInt 20); ("username", JStr "alice");
        ("color", JStr "#4ECDC4"); ("timestamp", JNull)]%string)] ∧
  ∀ e, e ∈ trace (handle_cursor_update up 10
           [("type", JStr "cursor_update"); ("x", JInt 10); ("y", JInt 20)]%string
           alice_and_bob) → ∃ ws', e = SendText ws' (cursor_update 1
       [("x", JInt 10); ("y", JInt 20); ("username", JStr "alice");
        ("color", JStr "#4ECDC4"); ("timestamp", JNull)]%string) ∧ ws' ≠ 10.
Proof.
  split; [vm_compute; reflexivity |].
  assert (reachable_single alice_and_bob) as Hr.
  { apply reachable_single_run; [constructor |].
    split; [split; [vm_compute; reflexivity | apply (bool_decide_unpack _); vm_compute; exact I] |].
    split; [| done].
    split; [vm_compute; reflexivity | apply (bool_decide_unpack _); vm_compute; exact I]. }
  assert (connection_users alice_and_bob !! 10 = Some (bound_info 7 alice)) as Hws
    by (vm_compute; reflexivity).
  destruct (cursor_update_fanout alice_and_bob up 10 (bound_info 7 alice)
    [("type", JStr "cursor_update"); ("x", JInt 10); ("y", JInt 20)]%string Hr Hws)
    as (cursor & Hp & _ & _ & _ & _ & _ & _ & Honly).
  vm_compute in Hp. injection Hp as <-.
  intros e He. destruct (Honly e He) as (ws' & info' & -> & Hne & _).
  exists ws'. split; [reflexivity | exact Hne].
Defined.

(** C7 fails as stated: Alice (sockets 10 and 11) and Bob (socket 12) are on
    project 7 and socket 10 has left.  Alice is still registered on socket
    11, but her [cursor_update] from there is dropped: nothing is written to
    Bob and the manager is unchanged. *)
Lemma cursor_update_dropped :
  reachable two_tabs_and_bob ∧
  live two_tabs_and_bob 7 1 11 ∧ live two_tabs_and_bob 7 2 12 ∧
  handle_cursor_update up 11
    [("type", JStr "cursor_update"); ("x", JInt 10); ("y", JInt 20)]%string
    two_tabs_and_bob = Outcome two_tabs_and_bob [] (Ok tt).
Proof.
  split_and!.
  - apply reachable_run; [constructor |]. vm_compute. done.
  - exists (bound_info 7 alice), [11; 12]. split_and!; try (vm_compute; reflexivity).
    by left.
  - exists (bound_info 7 bob), [11; 12]. split_and!; try (vm_compute; reflexivity).
    right. by left.
  - apply handle_cursor_update_skip. intros info Hinfo.
    vm_compute in Hinfo. injection Hinfo as <-. vm_compute. reflexivity.
Qed.

(** ** Chat relay *)

(** C8. A [chat_message] from a registered socket of a reachable manager
    returns normally and writes the envelope to every socket of the sender's
    room whose transport accepts it, the sender included.  Every envelope
    written carries as [user_id] and [username] the identity that
    [connection_users] binds to the socket, whatever the payload contains:
    two payloads always yield the same identity fields, and two payloads
    with the same [message] and [timestamp] yield the same outcome
    altogether. *)
Theorem chat_identity_bound (s : ConnectionManager) (broken : transport)
    (ws : Conn) (info : ConnInfo) :
  reachable s →
  connection_users s !! ws = Some info →
  ∃ conns,
    active_connections s !! project_id info = Some conns ∧ ws ∈ conns ∧
    (∀ data,
       let r := handle_chat_message broken ws data s in
       value r = Ok tt ∧
       trace r = deliveries broken (chat_message info data) None conns ∧
       (∀ ws', ws' ∈ conns → broken ws' = None →
          SendText ws' (chat_message info data) ∈ trace r) ∧
       (∀ ws' m, SendText ws' m ∈ trace r →
          ws' ∈ conns ∧
          field m "type" = Some (JStr "chat_message") ∧
          field m "user_id" = Some (JInt (user_id info)) ∧
          field m "username" = Some (JStr (username info)))) ∧
    (∀ data1 data2 ws1 m1 ws2 m2,
       SendText ws1 m1 ∈ trace (handle_chat_message broken ws data1 s) →
       SendText ws2 m2 ∈ trace (handle_chat_message broken ws data2 s) →
       field m1 "user_id" = field m2 "user_id" ∧
       field m1 "username" = field m2 "username") ∧
    (∀ data1 data2,
       Dict.get data1 "message"%string = Dict.get data2 "message"%string →
       Dict.get data1 "timestamp"%string = Dict.get data2 "timestamp"%string →
       handle_chat_message broken ws data1 s = handle_chat_message broken ws data2 s).
Proof.
  intros Hwf%reachable_wf Hws.
  destruct (wf_bound_conn s Hwf ws info Hws) as (conns & Hconns & Hin).
  exists conns. split; [done |]. split; [done |].
  assert (∀ data, ∃ s2,
    handle_chat_message broken ws data s =
      Outcome s2 (deliveries broken (chat_message info data) None conns) (Ok tt)) as Hrun.
  { intros data. pose proof (handle_chat_message_run broken ws data s Hwf) as H.
    rewrite Hws, Hconns in H. destruct H as (s2 & _ & H). eauto. }
  assert (∀ data ws' m,
    SendText ws' m ∈ trace (handle_chat_message broken ws data s) →
    ws' ∈ conns ∧ field m "type" = Some (JStr "chat_message") ∧
    field m "user_id" = Some (JInt (user_id info)) ∧
    field m "username" = Some (JStr (username info))) as Hid.
  { intros data ws' m. destruct (Hrun data) as [s2 ->]. simpl.
    intros (-> & Hin' & _)%deliveries_elem. done. }
  split_and!.
  - intros data. cbv zeta. split_and!.
    + by destruct (Hrun data) as [s2 ->].
    + by destruct (Hrun data) as [s2 ->].
    + intros ws' Hin' Hup. destruct (Hrun data) as [s2 ->]. simpl.
      by apply deliveries_elem.
    + apply Hid.
  - intros data1 data2 ws1 m1 ws2 m2 (_ & _ & -> & ->)%Hid (_ & _ & -> & ->)%Hid. done.
  - intros data1 data2 Hm Ht. unfold handle_chat_message, Dict.get_default.
    by rewrite Hm, Ht.
Qed.

Lemma chat_identity_bound_witness :
  connection_users alice_and_bob !! 11 = Some (bound_info 7 bob) ∧
  SendText 10 (chat_message (bound_info 7 bob)
    [("type", JStr "chat_message"); ("message", JStr "hi");
     ("user_id", JInt 1); ("username", JStr "alice")]%string) ∈
  trace (handle_chat_message up 11
    [("type", JStr "chat_message"); ("message", JStr "hi");
     ("user_id", JInt 1); ("username", JStr "alice")]%string alice_and_bob).
Proof.
  assert (reachable alice_and_bob) as Hr.
  { apply reachable_run; [constructor |]. vm_compute. done. }
  assert (connection_users alice_and_bob !! 11 = Some (bound_info 7 bob)) as Hws
    by (vm_compute; reflexivity).
  split; [exact Hws |].
  destruct (chat_identity_bound alice_and_bob up 11 (bound_info 7 bob) Hr Hws)
    as (conns & Hconns & _ & Hall & _).
  apply Hall; [| reflexivity].
  vm_compute in Hconns. injection Hconns as <-. by left.
Defined.

Example spoofed_chat_trace :
  trace (handle_chat_message up 11
    [("type", JStr "chat_message"); ("message", JStr "hi");
     ("user_id", JInt 1); ("username", JStr "alice")]%string alice_and_bob) =
  [SendText 10 (JObj [("type", JStr "chat_message"); ("user_id", JInt 2);
                      ("username", JStr "bob"); ("message", JStr "hi");
                      ("timestamp", JNull)]%string);
   SendText 11 (JObj [("type", JStr "chat_message"); ("user_id", JInt 2);
                      ("username", JStr "bob"); ("message", JStr "hi");
                      ("timestamp", JNull)]%string)].
Proof. vm_compute. reflexivity. Qed.

(** ** The message router *)

Lemma is_str_true v s : is_str v s = true → v = JStr s.
Proof.
  destruct v; simpl; try done. by intros ->%bool_decide_eq_true.
Qed.

(** C9. A [ping] envelope from a socket whose transport accepts writes is
    answered with one [pong] to that socket, carrying the client's
    [timestamp] or [None] when there was none; nothing else is written, the
    manager is unchanged and the receive loop goes on. *)
Theorem ping_pong (py_format : json → string) (broken : transport) (ws : Conn)
    (R : Z) (d : pyobj) (s : ConnectionManager) :
  is_str (Dict.get_default d "type"%string JNull) "ping" = true →
  broken ws = None →
  handle_websocket_message py_format broken ws (JObj d) R s =
    Outcome s [SendText ws (pong d)] (Ok tt) ∧
  receive_iteration py_format broken ws R (Text (Some (JObj d))) s =
    Outcome s [SendText ws (pong d)] (Ok Receiving) ∧
  field (pong d) "type" = Some (JStr "pong") ∧
  field (pong d) "timestamp" = Some (default JNull (Dict.get d "timestamp"%string)).
Proof.
  intros Hping%is_str_true Hup.
  assert (handle_websocket_message py_format broken ws (JObj d) R s =
            Outcome s [SendText ws (pong d)] (Ok tt)) as Hrun.
  { unfold handle_websocket_message. rewrite Hping. simpl.
    unfold try_except, send_text. by rewrite Hup. }
  split_and!; [done | | done | done].
  unfold receive_iteration, try_except, bind. by rewrite Hrun.
Qed.

Lemma ping_pong_witness :
  receive_iteration (λ _, ""%string) up 12 7
    (Text (Some (JObj [("type", JStr "ping"); ("timestamp", JInt 42)]%string)))
    alice_and_bob =
  Outcome alice_and_bob
    [SendText 12 (JObj [("type", JStr "pong"); ("timestamp", JInt 42)]%string)]
    (Ok Receiving).
Proof.
  exact (proj1 (proj2 (ping_pong (λ _, ""%string) up 12 7
    [("type", JStr "ping"); ("timestamp", JInt 42)]%string alice_and_bob
    eq_refl eq_refl))).
Defined.




(** ** Reordering the timeline *)

Module TimelineFacts.
Import Timeline.

Lemma times_one (n : Z) : Qmult (inject_Z n) 1 = inject_Z n.
Proof. unfold Qmult, inject_Z. simpl. by rewrite Z.mul_1_r. Qed.

Lemma reorder_step_lookup pid clips index c clip_id :
  reorder_step pid clips index c !! clip_id =
    match clips !! clip_id with
    | Some clip =>
        Some (if decide (c = clip_id ∧ project_id clip = pid)
              then with_start_time clip (inject_Z (Z.of_nat index))
              else clip)
    | None => None
    end.
Proof.
  unfold reorder_step. destruct (decide (c = clip_id)) as [->|Hne].
  - destruct (clips !! clip_id) as [clip|] eqn:Hc; [| done].
    destruct (decide (project_id clip = pid)).
    + rewrite lookup_insert_eq, times_one. by rewrite decide_True.
    + rewrite Hc. by rewrite decide_False by naive_solver.
  - assert (reorder_step pid clips index c !! clip_id = clips !! clip_id) as Hsame.
    { unfold reorder_step. destruct (clips !! c) as [clip|]; [| done].
      destruct (decide (project_id clip = pid)); [| done].
      by rewrite lookup_insert_ne. }
    unfold reorder_step in Hsame. rewrite Hsame.
    destruct (clips !! clip_id); [| done]. by rewrite decide_False by naive_solver.
Qed.

Lemma reorder_loop_lookup pid clip_order index clips clip_id :
  reorder_loop pid index clip_order clips !! clip_id =
    match clips !! clip_id with
    | Some clip =>
        Some (if decide (project_id clip = pid)
              then match last_index clip_id index clip_order with
                   | Some i => with_start_time clip (inject_Z (Z.of_nat i))
                   | None => clip
                   end
              else clip)
    | None => None
    end.
Proof.
  revert index clips. induction clip_order as [|c rest IH]; intros index clips; simpl.
  - destruct (clips !! clip_id); [| done]. by destruct (decide _).
  - rewrite IH, reorder_step_lookup.
    destruct (clips !! clip_id) as [clip|]; [| done]. f_equal.
    destruct (last_index clip_id (S index) rest) as [i|];
      repeat case_decide; simpl in *; try done; naive_solver.
Qed.

Lemma last_index_None x index l : last_index x index l = None ↔ x ∉ l.
Proof.
  revert index. induction l as [|y l IH]; intros index; simpl.
  - split; [intros _; apply not_elem_of_nil | done].
  - rewrite not_elem_of_cons. destruct (last_index x (S index) l) eqn:E.
    + split; [done |]. intros [_ Hn]. apply (IH (S index)) in Hn. congruence.
    + apply IH in E. destruct (decide (y = x)); naive_solver.
Qed.

Lemma last_index_lookup x index l i :
  last_index x index l = Some i → index ≤ i ∧ l !! (i - index) = Some x.
Proof.
  revert index. induction l as [|y l IH]; intros index; simpl; [done |].
  destruct (last_index x (S index) l) as [j|] eqn:E.
  - intros [= ->]. destruct (IH _ E) as [Hle Hl]. split; [lia |].
    replace (i - index) with (S (i - S index)) by lia. done.
  - destruct (decide (y = x)) as [->|]; [| done]. intros [= ->].
    split; [lia |]. by rewrite Nat.sub_diag.
Qed.

Lemma last_index_NoDup x index l i :
  NoDup l → l !! i = Some x → last_index x index l = Some (index + i).
Proof.
  revert index i. induction l as [|y l IH]; intros index i; [done |].
  intros [Hy Hnd]%NoDup_cons. destruct i as [|i]; simpl.
  - intros [= ->]. assert (last_index x (S index) l = None) as ->
      by by apply last_index_None.
    rewrite decide_True by done. f_equal. lia.
  - intros Hl. rewrite (IH (S index) i Hnd Hl). f_equal. lia.
Qed.

(** C10. For a caller who is owner or editor of the project, the reorder
    endpoint answers with its success message and changes nothing but
    [start_time] values, the timeline position the code renumbers: a clip of
    the target project that is listed is stored with [start_time] equal to
    [index * 1.0], that is to the index, for the index of its (last)
    occurrence in the list, which for a list without repetition is its
    zero-based index; each of its other columns (the JSON column [position]
    included) keeps its value.  A listed id that names no clip, or a clip of
    another project, is skipped: no row is created and the other project's
    clip is unchanged.  Clips that are not listed are unchanged, and so is
    the membership table. *)
Theorem reorder_renumbers (pid : Z) (clip_order : list Z) (uid : Z) (db : Db) :
  can_edit pid uid db = true →
  let result := reorder_timeline_clips pid clip_order uid db in
  let clips := timeline_clips db in
  let clips' := timeline_clips result.1 in
  result.2 = Success "Timeline reordered successfully" ∧
  project_members result.1 = project_members db ∧
  (∀ clip_id clip i,
     clips !! clip_id = Some clip → project_id clip = pid →
     last_index clip_id 0 clip_order = Some i →
     clip_order !! i = Some clip_id ∧
     ∃ clip', clips' !! clip_id = Some clip' ∧
       start_time clip' = Qmult (inject_Z (Z.of_nat i)) 1 ∧
       start_time clip' = inject_Z (Z.of_nat i) ∧
       project_id clip' = project_id clip ∧
       media_file_id clip' = media_file_id clip ∧
       clip_type clip' = clip_type clip ∧
       duration clip' = duration clip ∧
       media_start clip' = media_start clip ∧
       media_end clip' = media_end clip ∧
       track_number clip' = track_number clip ∧
       properties clip' = properties clip ∧
       position clip' = position clip) ∧
  (∀ clip_id i, NoDup clip_order → clip_order !! i = Some clip_id →
     last_index clip_id 0 clip_order = Some i) ∧
  (∀ clip_id, clips !! clip_id = None → clips' !! clip_id = None) ∧
  (∀ clip_id clip, clips !! clip_id = Some clip → project_id clip ≠ pid →
     clips' !! clip_id = Some clip) ∧
  (∀ clip_id, clip_id ∉ clip_order → clips' !! clip_id = clips !! clip_id).
Proof.
  intros Hauth. unfold reorder_timeline_clips. rewrite Hauth. simpl.
  split_and!; try done.
  - intros clip_id clip i Hc Hp Hi. rewrite reorder_loop_lookup, Hc, Hi.
    rewrite decide_True by done.
    destruct (last_index_lookup _ _ _ _ Hi) as [_ Hl].
    rewrite Nat.sub_0_r in Hl. split; [done |].
    eexists. split; [done |]. simpl. rewrite times_one. by split_and!.
  - intros clip_id i Hnd Hl. by apply (last_index_NoDup clip_id 0).
  - intros clip_id Hc. by rewrite reorder_loop_lookup, Hc.
  - intros clip_id clip Hc Hp. rewrite reorder_loop_lookup, Hc.
    by rewrite decide_False.
  - intros clip_id Hno. rewrite reorder_loop_lookup.
    destruct (timeline_clips db !! clip_id) as [clip|]; [| done].
    apply (last_index_None clip_id 0) in Hno. rewrite Hno.
    by destruct (decide _).
Qed.

Lemma reorder_renumbers_witness :
  can_edit 7 100 sample_db = true ∧
  timeline_clips (reorder_timeline_clips 7 [2; 99; 3; 1]%Z 100 sample_db).1 !! 1%Z =
    Some {| project_id := 7; media_file_id := None; clip_type := "video";
            start_time := inject_Z 3; duration := inject_Z 5; media_start := None;
            media_end := None; track_number := 0; properties := None;
            position := Some (JObj [("x", JInt 4)]%string) |}.
Proof.
  split; [reflexivity |].
  destruct (proj2 (proj1 (proj2 (proj2
    (reorder_renumbers 7 [2; 99; 3; 1]%Z 100 sample_db eq_refl)))
    1%Z (sample_clip 7 (inject_Z 30)) 3 eq_refl eq_refl eq_refl))
    as (clip' & -> & _ & Hs & Hp & Hm & Hc & Hd & Hms & Hme & Ht & Hpr & Hpo).
  destruct clip'. simpl in *. by subst.
Defined.

Example reorder_sample :
  let clips' := timeline_clips (reorder_timeline_clips 7 [2; 99; 3; 1]%Z 100 sample_db).1 in
  start_time <$> clips' !! 1%Z = Some (inject_Z 3) ∧
  start_time <$> clips' !! 2%Z = Some (inject_Z 0) ∧
  clips' !! 3%Z = Some (sample_clip 8 (inject_Z 50)) ∧
  clips' !! 99%Z = None ∧
  (clips' !! 1%Z ≫= position) = Some (JObj [("x", JInt 4)]%string).
Proof. vm_compute. done. Qed.

Example reorder_forbidden :
  reorder_timeline_clips 7 [2; 1]%Z 101 sample_db =
    (sample_db, HTTPException 403 "Insufficient permissions to edit timeline").
Proof. reflexivity. Qed.
End TimelineFacts.

(** * Further properties of the connection manager *)

(** X1. [_generate_user_color] never indexes outside the palette: for every
    user id, negative ones included, it returns one of the ten colours, and
    ids that agree modulo ten get the same colour. *)
Theorem generate_user_color_palette (uid uid' : Z) :
  _generate_user_color uid ∈ colors ∧
  _generate_user_color (uid + 10) = _generate_user_color uid ∧
  (uid `mod` 10 = uid' `mod` 10 → _generate_user_color uid = _generate_user_color uid')%Z.
Proof.
  unfold _generate_user_color. simpl length.
  change (Z.of_nat 10) with 10%Z. split_and!.
  - pose proof (Z.mod_pos_bound uid 10 eq_refl) as Hb.
    destruct (Z.to_nat (uid `mod` 10)) as [|[|[|[|[|[|[|[|[|[|n]]]]]]]]]] eqn:E;
      try lia; unfold colors; simpl; rewrite !elem_of_cons; auto 15.
  - replace ((uid + 10) `mod` 10)%Z with (uid `mod` 10)%Z; [done |].
    replace (uid + 10)%Z with (uid + 1 * 10)%Z by lia. by rewrite Z.mod_add.
  - by intros ->.
Qed.

Lemma generate_user_color_palette_witness :
  ((-3) `mod` 10 = 7 `mod` 10)%Z ∧ _generate_user_color (-3) = _generate_user_color 7.
Proof.
  split; [reflexivity |].
  exact (proj2 (proj2 (generate_user_color_palette (-3) 7)) eq_refl).
Defined.

(** X2. In every reachable state the three dictionaries agree: a project has
    a connection list exactly when it has a cursor dictionary; a socket is in
    the list of project [R] exactly when [connection_users] binds it to [R],
    so a socket is in one room at most; no list holds a socket twice and no
    cursor dictionary a user twice. *)
Theorem registry_consistent (s : ConnectionManager) :
  reachable s →
  (∀ R, is_Some (active_connections s !! R) ↔ is_Some (user_cursors s !! R)) ∧
  (∀ R conns ws, active_connections s !! R = Some conns →
     ws ∈ conns ↔ ∃ info, connection_users s !! ws = Some info ∧ project_id info = R) ∧
  (∀ R R' conns conns' ws,
     active_connections s !! R = Some conns → active_connections s !! R' = Some conns' →
     ws ∈ conns → ws ∈ conns' → R = R') ∧
  (∀ R conns, active_connections s !! R = Some conns → NoDup conns) ∧
  (∀ R room, user_cursors s !! R = Some room → NoDup room.*1).
Proof.
  intros Hwf%reachable_wf.
  assert (∀ R conns ws, active_connections s !! R = Some conns →
     ws ∈ conns ↔ ∃ info, connection_users s !! ws = Some info ∧ project_id info = R)
    as Hbound.
  { intros R conns ws Hc. split; [by apply (wf_conn_bound s Hwf) |].
    intros (info & Hws & <-).
    destruct (wf_bound_conn s Hwf ws info Hws) as (c & Hc' & Hin). congruence. }
  split_and!.
  - intros R. rewrite <- !not_eq_None_Some. by rewrite (wf_rooms s Hwf).
  - done.
  - intros R R' conns conns' ws Hc Hc' Hin Hin'.
    apply (Hbound R conns ws Hc) in Hin as (i & Hi & <-).
    apply (Hbound R' conns' ws Hc') in Hin' as (i' & Hi' & <-). congruence.
  - exact (wf_nodup s Hwf).
  - exact (wf_keys s Hwf).
Qed.

Lemma registry_consistent_witness :
  reachable two_tabs_and_bob ∧
  (∀ R conns, active_connections two_tabs_and_bob !! R = Some conns → NoDup conns).
Proof.
  assert (reachable two_tabs_and_bob) as Hr.
  { apply reachable_run; [constructor |]. vm_compute. done. }
  split; [exact Hr |].
  exact (proj1 (proj2 (proj2 (proj2 (registry_consistent two_tabs_and_bob Hr))))).
Defined.

(** What a call does once the accept of a joining socket has passed. *)
Lemma exec_effects (s : ConnectionManager) (broken : transport) (c : call) :
  reachable s → admissible s c →
  value (exec broken c s) = Ok tt ∧
  (∀ ws, Close ws ∉ trace (exec broken c s)) ∧
  (∀ ws, Accept ws ∈ trace (exec broken c s) → ∃ R user, c = Connect ws R user).
Proof.
  intros Hwf%reachable_wf Hadm.
  split; [by apply exec_sound |].
  destruct c as [ws R user|ws|R message exclude|ws data|ws data|ws data]; simpl in *.
  - destruct (connect_run broken ws R user s Hwf Hadm)
      as (s2 & room & entries & _ & _ & _ & _ & ->). simpl. split.
    + intros x. rewrite not_elem_of_cons, not_elem_of_app. split_and!; [done | |].
      * by intros [? [=]]%deliveries_only_sends.
      * destruct (writable broken ws); [| apply not_elem_of_nil].
        by intros [=]%list_elem_of_singleton.
    + intros x. rewrite elem_of_cons, elem_of_app. intros [[= ->]|[Hin|Hin]]; [by eauto | |].
      * by apply deliveries_only_sends in Hin as [? [=]].
      * destruct (writable broken ws); [| by apply elem_of_nil in Hin].
        by apply list_elem_of_singleton in Hin.
  - destruct (disconnect_wf s ws Hwf) as (s' & -> & _). simpl.
    split; intros x; [apply not_elem_of_nil | by intros ?%elem_of_nil].
  - destruct (broadcast_to_project_run broken R message exclude s Hwf) as (s' & -> & _).
    simpl. split; intros x.
    + by intros [? [=]]%deliveries_only_sends.
    + by intros [? [=]]%deliveries_only_sends.
  - destruct (connection_users s !! ws) as [info|] eqn:Hws; cycle 1.
    { rewrite handle_cursor_update_skip by (intros; congruence). simpl.
      split; intros x; [apply not_elem_of_nil | by intros ?%elem_of_nil]. }
    destruct (presence s (project_id info) (user_id info)) as [cursor|] eqn:Hp; cycle 1.
    { rewrite handle_cursor_update_skip by (intros; congruence). simpl.
      split; intros x; [apply not_elem_of_nil | by intros ?%elem_of_nil]. }
    unfold presence in Hp.
    destruct (user_cursors s !! project_id info) as [room|] eqn:Hroom; [| done].
    simpl in Hp.
    destruct (handle_cursor_update_run broken ws data s info room cursor Hwf Hws Hroom Hp)
      as (s2 & _ & ->). simpl.
    split; intros x; by intros [? [=]]%deliveries_only_sends.
  - pose proof (handle_timeline_update_run broken ws data s Hwf) as Hrun.
    destruct (connection_users s !! ws) as [info|].
    + destruct Hrun as (s2 & _ & ->). simpl.
      split; intros x; by intros [? [=]]%deliveries_only_sends.
    + rewrite Hrun. simpl.
      split; intros x; [apply not_elem_of_nil | by intros ?%elem_of_nil].
  - pose proof (handle_chat_message_run broken ws data s Hwf) as Hrun.
    destruct (connection_users s !! ws) as [info|].
    + destruct Hrun as (s2 & _ & ->). simpl.
      split; intros x; by intros [? [=]]%deliveries_only_sends.
    + rewrite Hrun. simpl.
      split; intros x; [apply not_elem_of_nil | by intros ?%elem_of_nil].
Qed.

(** X3. The only exception a call on a reachable manager can raise is the
    one of [websocket.accept()] at the first statement of [connect], and
    then the manager is untouched and nothing was written.  Whatever sockets
    fail on write, [disconnect], [broadcast_to_project] and the three
    message handlers return normally, and so does [connect] of an
    unregistered socket whose accept passes: neither the [KeyError] of the
    dictionary accesses nor the [ValueError] of [list.remove] can occur.  No
    call closes a socket, and a socket is accepted only by its own
    [connect]. *)
Theorem calls_raise_only_on_accept (s : ConnectionManager) (accept broken : transport)
    (c : call) :
  reachable s → admissible s c →
  let r := invoke accept broken c s in
  (∀ e, value r = Raise e →
     ∃ ws R user, c = Connect ws R user ∧ accept ws = Some e ∧
       final r = s ∧ trace r = []) ∧
  ((∀ ws R user, c = Connect ws R user → accept ws = None) → value r = Ok tt) ∧
  (∀ ws, Close ws ∉ trace r) ∧
  (∀ ws, Accept ws ∈ trace r → ∃ R user, c = Connect ws R user ∧ accept ws = None).
Proof.
  intros Hr Hadm r.
  destruct (exec_effects s broken c Hr Hadm) as (Hok & Hclose & Haccept).
  assert ((∃ ws R user e, c = Connect ws R user ∧ accept ws = Some e ∧
             r = Outcome s [] (Raise e)) ∨
          ((∀ ws R user, c = Connect ws R user → accept ws = None) ∧
             r = exec broken c s)) as [(ws & R & user & e & -> & He & Hrun)|[Hpass Hrun]].
  { unfold r. destruct c as [ws R user|ws|R message exclude|ws data|ws data|ws data];
      try (right; by split).
    simpl. destruct (accept ws) as [e|] eqn:He.
    - left. by exists ws, R, user, e.
    - right. split; [| done]. by intros ? ? ? [= <- _ _]. }
  - rewrite Hrun. simpl. split_and!.
    + intros e' [= <-]. by exists ws, R, user.
    + intros Hpass. rewrite (Hpass ws R user eq_refl) in He. done.
    + intros x. apply not_elem_of_nil.
    + by intros x ?%elem_of_nil.
  - rewrite Hrun. split_and!; try done.
    + intros e He. by rewrite Hok in He.
    + intros ws Hin. destruct (Haccept ws Hin) as (R & user & ->).
      exists R, user. split; [done |]. by apply (Hpass ws R user).
Qed.

Lemma calls_raise_only_on_accept_witness :
  reachable alice_and_bob ∧
  connection_users alice_and_bob !! 12 = None ∧
  invoke (λ _, Some RuntimeError) up (Connect 12 7 (User.mk 3 "carol")) alice_and_bob =
    Outcome alice_and_bob [] (Raise RuntimeError) ∧
  value (invoke (λ _, Some RuntimeError) socket_10_down (HandleChatMessage 11 [])
           alice_and_bob) = Ok tt.
Proof.
  assert (reachable alice_and_bob) as Hr.
  { apply reachable_run; [constructor |]. vm_compute. done. }
  assert (connection_users alice_and_bob !! 12 = None) as Hfresh by (vm_compute; reflexivity).
  split; [exact Hr |]. split; [exact Hfresh |]. split.
  - destruct (proj1 (calls_raise_only_on_accept alice_and_bob (λ _, Some RuntimeError) up
      (Connect 12 7 (User.mk 3 "carol")) Hr Hfresh) RuntimeError eq_refl)
      as (_ & _ & _ & _ & _ & Hs & Ht).
    destruct (invoke _ _ _ _) as [s' tr v] eqn:E. simpl in *. subst s' tr.
    f_equal. by injection E.
  - exact (proj1 (proj2 (calls_raise_only_on_accept alice_and_bob (λ _, Some RuntimeError)
      socket_10_down (HandleChatMessage 11 []) Hr I)) ltac:(by intros ? ? ? [=])).
Defined.

(** ** Joining *)

Lemma failures_excluded broken ws conns : ws ∉ failures broken (Some ws) conns.
Proof. rewrite failures_elem. naive_solver. Qed.

Lemma cleaned_nil s s' : cleaned s [] s' → s' = s.
Proof. intros (Hrun & _). simpl in Hrun. unfold ret in Hrun. by injection Hrun. Qed.

(** X4. When a socket joins, every other socket registered in the room
    whose transport accepts the write receives the [user_joined] envelope
    with the newcomer's id, username and fresh cursor; whatever else is
    written goes to the newcomer, which receives no [user_joined] but only
    the [project_state] snapshot; nothing is written to a socket of another
    room. *)
Theorem user_joined_fanout (s : ConnectionManager) (broken : transport) (ws : Conn)
    (R : Z) (user : User.t) :
  reachable s → connection_users s !! ws = None →
  let r := connect broken ws R user s in
  let joined := user_joined user (initial_cursor user) in
  (∀ ws' info', connection_users s !! ws' = Some info' → project_id info' = R →
     broken ws' = None → SendText ws' joined ∈ trace r) ∧
  (∀ ws' m, SendText ws' m ∈ trace r → ws' ≠ ws →
     m = joined ∧ ∃ info', connection_users s !! ws' = Some info' ∧ project_id info' = R) ∧
  (∀ m, SendText ws m ∈ trace r → field m "type" = Some (JStr "project_state")) ∧
  field joined "type" = Some (JStr "user_joined") ∧
  field joined "user" =
    Some (JObj [("id", JInt (User.id user)); ("username", JStr (User.username user));
                ("cursor", JObj [("x", JInt 0); ("y", JInt 0);
                                 ("username", JStr (User.username user));
                                 ("color", JStr (_generate_user_color (User.id user)))])]%string).
Proof.
  intros Hwf%reachable_wf Hfresh r joined.
  destruct (connect_run broken ws R user s Hwf Hfresh)
    as (s2 & room & entries & _ & _ & _ & _ & Hrun).
  unfold r. rewrite Hrun. simpl. split_and!; try done.
  - intros ws' info' Hws' HR Hup. right. apply elem_of_app. left.
    apply deliveries_elem. split_and!; try done.
    + destruct (wf_bound_conn s Hwf ws' info' Hws') as (c & Hc & Hin).
      rewrite HR in Hc. rewrite Hc. simpl. apply elem_of_app. by left.
    + intros [= ->]. congruence.
  - intros ws' m [[=]|[Hin|Hin]%elem_of_app]%elem_of_cons Hne.
    + apply deliveries_elem in Hin as (-> & Hin & _ & _). split; [done |].
      apply elem_of_app in Hin as [Hin|Hin%list_elem_of_singleton]; [| done].
      destruct (active_connections s !! R) as [c|] eqn:Hc; simpl in Hin;
        [| by apply elem_of_nil in Hin].
      by apply (wf_conn_bound s Hwf R c).
    + destruct (writable broken ws); [| by apply elem_of_nil in Hin].
      apply list_elem_of_singleton in Hin. congruence.
  - intros m [[=]|[Hin|Hin]%elem_of_app]%elem_of_cons.
    + apply deliveries_elem in Hin. naive_solver.
    + destruct (writable broken ws); [| by apply elem_of_nil in Hin].
      apply list_elem_of_singleton in Hin. by injection Hin as ->.
Qed.

Lemma user_joined_fanout_witness :
  connection_users alice_and_bob !! 12 = None ∧
  SendText 11 (user_joined (User.mk 3 "carol") (initial_cursor (User.mk 3 "carol"))) ∈
    trace (connect up 12 7 (User.mk 3 "carol") alice_and_bob).
Proof.
  assert (reachable alice_and_bob) as Hr.
  { apply reachable_run; [constructor |]. vm_compute. done. }
  assert (connection_users alice_and_bob !! 12 = None) as Hfresh by (vm_compute; reflexivity).
  split; [exact Hfresh |].
  apply (proj1 (user_joined_fanout alice_and_bob up 12 7 (User.mk 3 "carol") Hr Hfresh)
           11 (bound_info 7 bob)); vm_compute; reflexivity.
Defined.

(** X5. The first join to a project that has no room creates it: [connect]
    returns normally, the room's connection list is the joining socket
    alone and its cursor dictionary the newcomer's fresh cursor alone, the
    socket is bound to the user and the project, the other rooms and
    bindings are as before, and the only effects are the [accept] and, when
    the transport accepts it, a snapshot that lists the newcomer alone. *)
Theorem first_join_creates_room (s : ConnectionManager) (broken : transport)
    (ws : Conn) (R : Z) (user : User.t) :
  reachable s → connection_users s !! ws = None →
  active_connections s !! R = None →
  let r := connect broken ws R user s in
  let entry := JObj [("id", JInt (User.id user)); ("username", JStr (User.username user));
                     ("cursor", JObj (initial_cursor user))]%string in
  value r = Ok tt ∧
  trace r = Accept ws ::
    (if writable broken ws then [SendText ws (project_state [entry])] else []) ∧
  active_connections (final r) !! R = Some [ws] ∧
  user_cursors (final r) !! R = Some [(User.id user, initial_cursor user)] ∧
  connection_users (final r) !! ws = Some (bound_info R user) ∧
  (∀ R', R' ≠ R →
     active_connections (final r) !! R' = active_connections s !! R' ∧
     user_cursors (final r) !! R' = user_cursors s !! R') ∧
  (∀ ws', ws' ≠ ws → connection_users (final r) !! ws' = connection_users s !! ws').
Proof.
  intros Hwf%reachable_wf Hfresh Hno r entry.
  destruct (connect_run broken ws R user s Hwf Hfresh)
    as (s2 & room & entries & Hcl & Hws2 & Hroom & Hentries & Hrun).
  rewrite Hno in Hcl, Hrun. simpl in Hcl, Hrun.
  assert (failures broken (Some ws) [ws] = []) as Hf.
  { unfold failures. rewrite filter_cons, decide_False; naive_solver. }
  assert (deliveries broken (user_joined user (initial_cursor user)) (Some ws) [ws] = [])
    as Hd.
  { unfold deliveries, recipients. rewrite filter_cons, decide_False; naive_solver. }
  rewrite Hf in Hcl. apply cleaned_nil in Hcl. subst s2.
  rewrite Hd in Hrun. simpl in Hrun.
  assert (user_cursors s !! R = None) as Hnoroom by by apply (wf_rooms s Hwf).
  rewrite (registered_cursors s ws R user), decide_True in Hroom by done.
  rewrite Hnoroom in Hroom. simpl in Hroom.
  injection Hroom as <-. simpl in Hentries. injection Hentries as <-.
  unfold r. rewrite Hrun. simpl. split_and!; try done.
  - rewrite (registered_active s ws R user), decide_True by done. by rewrite Hno.
  - rewrite (registered_cursors s ws R user), decide_True by done.
    by rewrite Hnoroom.
  - intros R' HR'. rewrite (registered_active s ws R user), (registered_cursors s ws R user).
    by rewrite !decide_False.
  - intros ws' Hne. rewrite (registered_users s ws R user). by rewrite decide_False.
Qed.

Lemma first_join_creates_room_witness :
  connection_users alice_and_bob !! 12 = None ∧
  active_connections alice_and_bob !! 8%Z = None ∧
  active_connections (final (connect up 12 8 (User.mk 3 "carol") alice_and_bob)) !! 8%Z =
    Some [12].
Proof.
  assert (reachable alice_and_bob) as Hr.
  { apply reachable_run; [constructor |]. vm_compute. done. }
  assert (connection_users alice_and_bob !! 12 = None) as Hfresh by (vm_compute; reflexivity).
  assert (active_connections alice_and_bob !! 8%Z = None) as Hno by (vm_compute; reflexivity).
  split; [exact Hfresh |]. split; [exact Hno |].
  exact (proj1 (proj2 (proj2
    (first_join_creates_room alice_and_bob up 12 8 (User.mk 3 "carol") Hr Hfresh Hno)))).
Defined.

(** X6. [connect] overwrites the presence entry of the joining user: if that
    user already had an entry in the room (another socket of the same user,
    wherever its cursor had moved), the entry after the join is the fresh
    cursor at [x = 0], [y = 0], provided none of that user's sockets in the
    room fails on the [user_joined] write. *)
Theorem rejoin_resets_cursor (s : ConnectionManager) (broken : transport) (ws : Conn)
    (R : Z) (user : User.t) :
  reachable s → connection_users s !! ws = None →
  (∀ ws' info', connection_users s !! ws' = Some info' →
     project_id info' = R → user_id info' = User.id user → broken ws' = None) →
  presence (final (connect broken ws R user s)) R (User.id user) =
    Some (initial_cursor user).
Proof.
  intros Hwf%reachable_wf Hfresh Hup.
  destruct (connect_run broken ws R user s Hwf Hfresh)
    as (s2 & room & entries & Hcl & _ & _ & _ & ->).
  destruct Hcl as (_ & _ & _ & _ & _ & Hkeep). simpl.
  rewrite Hkeep.
  - rewrite (registered_presence s ws R user). by rewrite decide_True.
  - intros x info [_ [Hex [e He]]]%failures_elem Hx [HR HP].
    rewrite (registered_users s ws R user) in Hx.
    destruct (decide (ws = x)) as [->|]; [done |].
    rewrite (Hup x info Hx HR HP) in He. done.
Qed.

Lemma rejoin_resets_cursor_witness :
  presence (run_from init [Connect 10 7 alice;
      HandleCursorUpdate 10 [("x", JInt 5); ("y", JInt 6)]%string]) 7 1 =
    Some [("x", JInt 5); ("y", JInt 6); ("username", JStr "alice");
          ("color", JStr "#4ECDC4"); ("timestamp", JNull)]%string ∧
  presence (final (connect up 11 7 alice (run_from init [Connect 10 7 alice;
      HandleCursorUpdate 10 [("x", JInt 5); ("y", JInt 6)]%string]))) 7 1 =
    Some (initial_cursor alice).
Proof.
  split; [vm_compute; reflexivity |].
  apply rejoin_resets_cursor.
  - apply reachable_run; [constructor |]. vm_compute. done.
  - vm_compute. reflexivity.
  - reflexivity.
Defined.

(** X7. A failure of the snapshot write to the joining socket itself is
    swallowed: [connect] returns normally, nothing is written to that
    socket, and it stays registered as a live connection of its user in the
    room; unlike a failure during a broadcast, it is not cleaned up. *)
Theorem broken_joiner_stays_registered (s : ConnectionManager) (broken : transport)
    (ws : Conn) (R : Z) (user : User.t) :
  reachable s → connection_users s !! ws = None → is_Some (broken ws) →
  let r := connect broken ws R user s in
  value r = Ok tt ∧
  (∀ m, SendText ws m ∉ trace r) ∧
  connection_users (final r) !! ws = Some (bound_info R user) ∧
  live (final r) R (User.id user) ws.
Proof.
  intros Hwf%reachable_wf Hfresh [e He] r.
  destruct (connect_run broken ws R user s Hwf Hfresh)
    as (s2 & room & entries & Hcl & Hws2 & _ & _ & Hrun).
  destruct Hcl as (_ & Hwf2 & _).
  unfold r. rewrite Hrun. simpl. unfold writable. rewrite He.
  split_and!; try done.
  - intros m. rewrite app_nil_r, not_elem_of_cons. split; [done |].
    intros Hin%deliveries_elem. naive_solver.
  - destruct (wf_bound_conn s2 Hwf2 ws _ Hws2) as (conns & Hconns & Hin).
    by exists (bound_info R user), conns.
Qed.

Lemma broken_joiner_stays_registered_witness :
  connection_users init !! 10 = None ∧
  connection_users (final (connect socket_10_down 10 7 alice init)) !! 10 =
    Some (bound_info 7 alice).
Proof.
  split; [reflexivity |].
  exact (proj1 (proj2 (proj2 (broken_joiner_stays_registered init socket_10_down 10 7 alice
    reachable_init eq_refl (ex_intro _ RuntimeError eq_refl))))).
Defined.

(** ** Relays *)

Lemma failures_healthy broken exclude conns :
  (∀ ws, ws ∈ conns → broken ws = None) → failures broken exclude conns = [].
Proof.
  intros Hup. destruct (failures broken exclude conns) as [|x l] eqn:E; [done |].
  assert (x ∈ failures broken exclude conns) as Hx by (rewrite E; by left).
  apply failures_elem in Hx as (Hin & _ & [e He]). rewrite (Hup x Hin) in He. done.
Qed.

(** X8. [handle_timeline_update] relays the payload as it came: from a
    registered socket of a reachable manager it returns normally and writes
    the same [timeline_update] envelope, whose [data] is the whole inbound
    object and whose [user_id] is the identity bound to the socket, to every other
    socket registered in the sender's room whose transport accepts it, and
    to no other socket, the sender included. *)
Theorem timeline_update_relay (s : ConnectionManager) (broken : transport)
    (ws : Conn) (info : ConnInfo) (data : pyobj) :
  reachable s → connection_users s !! ws = Some info →
  let r := handle_timeline_update broken ws data s in
  let envelope := timeline_update (user_id info) data in
  value r = Ok tt ∧
  (∀ ws' info', connection_users s !! ws' = Some info' →
     project_id info' = project_id info → ws' ≠ ws → broken ws' = None →
     SendText ws' envelope ∈ trace r) ∧
  (∀ e, e ∈ trace r → ∃ ws' info',
     e = SendText ws' envelope ∧ ws' ≠ ws ∧
     connection_users s !! ws' = Some info' ∧ project_id info' = project_id info) ∧
  field envelope "type" = Some (JStr "timeline_update") ∧
  field envelope "user_id" = Some (JInt (user_id info)) ∧
  field envelope "data" = Some (JObj data).
Proof.
  intros Hwf%reachable_wf Hws r envelope.
  pose proof (handle_timeline_update_run broken ws data s Hwf) as Hrun.
  rewrite Hws in Hrun. destruct Hrun as (s2 & _ & Hrun).
  destruct (wf_bound_conn s Hwf ws info Hws) as (conns & Hconns & Hin).
  rewrite Hconns in Hrun. simpl in Hrun.
  unfold r. rewrite Hrun. simpl. split_and!; try done.
  - intros ws' info' Hws' HR Hne Hup. apply deliveries_elem. split_and!; try done.
    + destruct (wf_bound_conn s Hwf ws' info' Hws') as (c & Hc & Hin').
      rewrite HR, Hconns in Hc. by injection Hc as <-.
    + by intros [= ->].
  - intros e He. destruct (deliveries_only_sends _ _ _ _ _ He) as [ws' ->].
    apply deliveries_elem in He as (_ & Hin' & Hex & _).
    destruct (wf_conn_bound s Hwf _ conns ws' Hconns Hin') as (info' & Hws' & HR).
    exists ws', info'. split_and!; try done. by intros ->.
Qed.

Lemma timeline_update_relay_witness :
  connection_users alice_and_bob !! 10 = Some (bound_info 7 alice) ∧
  SendText 11 (timeline_update 1 [("type", JStr "timeline_update");
                                  ("action", JStr "move")]%string) ∈
    trace (handle_timeline_update up 10
             [("type", JStr "timeline_update"); ("action", JStr "move")]%string
             alice_and_bob).
Proof.
  assert (reachable alice_and_bob) as Hr.
  { apply reachable_run; [constructor |]. vm_compute. done. }
  assert (connection_users alice_and_bob !! 10 = Some (bound_info 7 alice)) as Hws
    by (vm_compute; reflexivity).
  split; [exact Hws |].
  apply (proj1 (proj2 (timeline_update_relay alice_and_bob up 10 (bound_info 7 alice)
     [("type", JStr "timeline_update"); ("action", JStr "move")]%string Hr Hws))
     11 (bound_info 7 bob)); try (vm_compute; reflexivity). done.
Defined.

(** X9. Relaying reads the manager and does not change it unless a write
    fails: when every socket of the room accepts the write,
    [broadcast_to_project] leaves any manager, reachable or not, exactly as
    it was and returns normally, and so do [handle_timeline_update] and
    [handle_chat_message] for a socket bound to that room. *)
Theorem relay_read_only (s : ConnectionManager) (broken : transport) (R : Z)
    (conns : list Conn) :
  active_connections s !! R = Some conns →
  (∀ ws, ws ∈ conns → broken ws = None) →
  (∀ message exclude,
     broadcast_to_project broken R message exclude s =
       Outcome s (deliveries broken message exclude conns) (Ok tt)) ∧
  (∀ ws info data, connection_users s !! ws = Some info → project_id info = R →
     final (handle_timeline_update broken ws data s) = s ∧
     value (handle_timeline_update broken ws data s) = Ok tt ∧
     final (handle_chat_message broken ws data s) = s ∧
     value (handle_chat_message broken ws data s) = Ok tt).
Proof.
  intros Hconns Hup.
  assert (∀ message exclude,
     broadcast_to_project broken R message exclude s =
       Outcome s (deliveries broken message exclude conns) (Ok tt)) as Hb.
  { intros message exclude.
    rewrite (broadcast_to_project_present _ _ _ _ _ conns Hconns).
    rewrite (failures_healthy broken exclude conns Hup). simpl.
    by rewrite app_nil_r. }
  split; [done |]. intros ws info data Hws <-.
  unfold handle_timeline_update, handle_chat_message, bind, get. simpl.
  rewrite Hws. simpl. by rewrite !Hb.
Qed.

Lemma relay_read_only_witness :
  active_connections alice_and_bob !! 7%Z = Some [10; 11] ∧
  final (handle_chat_message up 10 [("message", JStr "hi")]%string alice_and_bob) =
    alice_and_bob.
Proof.
  assert (active_connections alice_and_bob !! 7%Z = Some [10; 11]) as Hc
    by (vm_compute; reflexivity).
  split; [exact Hc |].
  refine (proj1 (proj2 (proj2 (proj2 (relay_read_only alice_and_bob up 7 [10; 11] Hc _)
    10 (bound_info 7 alice) [("message", JStr "hi")]%string _ _)))).
  - intros ws _. reflexivity.
  - vm_compute. reflexivity.
  - reflexivity.
Defined.

(** X10. Once [disconnect] has returned for a socket, that socket is mute:
    a cursor update, a timeline update or a chat message that still arrives
    from it writes to nobody and changes nothing.  This holds for every
    manager state and every transport. *)
Theorem left_socket_is_silent (s : ConnectionManager) (broken : transport)
    (ws : Conn) (data : pyobj) :
  value (disconnect ws s) = Ok tt →
  let s' := final (disconnect ws s) in
  handle_cursor_update broken ws data s' = Outcome s' [] (Ok tt) ∧
  handle_timeline_update broken ws data s' = Outcome s' [] (Ok tt) ∧
  handle_chat_message broken ws data s' = Outcome s' [] (Ok tt).
Proof.
  intros Hgone%disconnect_unregisters s'. fold s' in Hgone.
  unfold handle_cursor_update, handle_timeline_update, handle_chat_message, bind, get.
  simpl. by rewrite Hgone.
Qed.

Lemma left_socket_is_silent_witness :
  value (disconnect 10 alice_and_bob) = Ok tt ∧
  trace (handle_chat_message up 10 [("message", JStr "hi")]%string
           (final (disconnect 10 alice_and_bob))) = [].
Proof.
  assert (value (disconnect 10 alice_and_bob) = Ok tt) as Hok by (vm_compute; reflexivity).
  split; [exact Hok |].
  rewrite (proj2 (proj2 (left_socket_is_silent alice_and_bob up 10
                           [("message", JStr "hi")]%string Hok))).
  reflexivity.
Defined.

Lemma cleanup_drops_presence l s ws info :
  wf s → ws ∈ l → connection_users s !! ws = Some info →
  presence (final (for_each l disconnect s)) (project_id info) (user_id info) = None.
Proof.
  revert s. induction l as [|a l IH]; intros s Hwf Hin Hws;
    [by apply elem_of_nil in Hin |].
  destruct (disconnect_wf s a Hwf) as (s1 & Hd & Hwf1).
  assert (s1 = final (disconnect a s)) as Hs1 by by rewrite Hd.
  assert (final (for_each (a :: l) disconnect s) = final (for_each l disconnect s1)) as ->.
  { simpl. unfold bind. rewrite Hd. by destruct (for_each l disconnect s1). }
  destruct (decide (a = ws)) as [->|Hne].
  - destruct (cleanup_run l s1 Hwf1) as (s' & Hrun & _ & _ & _ & Hmono & _).
    rewrite Hrun. simpl.
    destruct (presence s' (project_id info) (user_id info)) as [cur|] eqn:Hp; [| done].
    apply Hmono in Hp. rewrite Hs1, disconnect_presence, Hws in Hp by done.
    by rewrite decide_True in Hp.
  - apply IH; [done | |].
    + apply elem_of_cons in Hin as [->|Hin]; done.
    + rewrite Hs1, disconnect_users by done. by rewrite decide_False.
Qed.

(** X11. The cleanup after a broadcast touches only the sockets whose write
    failed: a socket that is outside the room, or is the excluded one, or
    accepted the write keeps its binding, and the presence entry of a
    participant none of whose sockets failed is as before.  The presence
    entry of the participant of a failed socket is removed from its room. *)
Theorem broadcast_keeps_healthy_sockets (s : ConnectionManager) (broken : transport)
    (R : Z) (message : json) (exclude : option Conn) (conns : list Conn) :
  reachable s → active_connections s !! R = Some conns →
  let s' := final (broadcast_to_project broken R message exclude s) in
  (∀ ws, ws ∉ conns ∨ Some ws = exclude ∨ broken ws = None →
     connection_users s' !! ws = connection_users s !! ws) ∧
  (∀ P, (∀ ws info, ws ∈ conns → Some ws ≠ exclude → is_Some (broken ws) →
           connection_users s !! ws = Some info → user_id info ≠ P) →
     presence s' R P = presence s R P) ∧
  (∀ R' P, R' ≠ R → presence s' R' P = presence s R' P) ∧
  (∀ ws info, ws ∈ conns → Some ws ≠ exclude → is_Some (broken ws) →
     connection_users s !! ws = Some info → presence s' R (user_id info) = None).
Proof.
  intros Hwf%reachable_wf Hconns s'.
  destruct (broadcast_to_project_run broken R message exclude s Hwf)
    as (s2 & Hrun & Hcl).
  rewrite Hconns in Hcl. simpl in Hcl.
  assert (s' = s2) as -> by (unfold s'; by rewrite Hrun).
  pose proof Hcl as (_ & Hwf2 & _ & Hus & Hmono & Hkeep).
  assert (∀ ws info, ws ∈ conns → connection_users s !! ws = Some info →
            project_id info = R) as Hroom.
  { intros ws info Hin Hws.
    destruct (wf_conn_bound s Hwf R conns ws Hconns Hin) as (i & Hi & HR). congruence. }
  split_and!.
  - intros ws Hok. rewrite Hus, decide_False; [done |].
    rewrite failures_elem. intros (Hin & Hex & [e He]).
    destruct Hok as [?|[?|Hup]]; [done | done | congruence].
  - intros P Hno. apply Hkeep.
    intros x info (Hin & Hex & Hb)%failures_elem Hx [_ HP].
    by apply (Hno x info).
  - intros R' P HR'. apply Hkeep.
    intros x info (Hin & _)%failures_elem Hx [HR _].
    rewrite (Hroom x info Hin Hx) in HR. done.
  - intros ws info Hin Hex Hb Hws.
    destruct Hcl as (Hrun' & _).
    replace s2 with (final (for_each (failures broken exclude conns) disconnect s))
      by by rewrite Hrun'.
    rewrite <- (Hroom ws info Hin Hws).
    apply (cleanup_drops_presence _ s ws info); [done | by apply failures_elem | done].
Qed.

Lemma broadcast_keeps_healthy_sockets_witness :
  active_connections alice_and_bob !! 7%Z = Some [10; 11] ∧
  connection_users (final (broadcast_to_project socket_10_down 7 JNull None alice_and_bob))
    !! 11 = Some (bound_info 7 bob) ∧
  presence (final (broadcast_to_project socket_10_down 7 JNull None alice_and_bob)) 7 1 =
    None.
Proof.
  assert (reachable alice_and_bob) as Hr.
  { apply reachable_run; [constructor |]. vm_compute. done. }
  assert (active_connections alice_and_bob !! 7%Z = Some [10; 11]) as Hc
    by (vm_compute; reflexivity).
  destruct (broadcast_keeps_healthy_sockets alice_and_bob socket_10_down 7 JNull None
              [10; 11] Hr Hc) as (Hkeep & _ & _ & Hdrop).
  split; [exact Hc |]. split.
  - rewrite Hkeep; [vm_compute; reflexivity |]. right. right. reflexivity.
  - apply (Hdrop 10 (bound_info 7 alice)); [by left | done | by eexists |].
    vm_compute. reflexivity.
Defined.

(** X12. A cursor update can only rewrite the sender's own presence entry.
    Whatever the payload and whatever sockets fail, every presence entry
    found after [handle_cursor_update] is either the entry that was there
    before, or the sender's own entry with [x], [y] and [timestamp] taken
    from the payload; in the latter every other key of the cursor, such as
    [username] and [color], keeps its value. *)
Theorem cursor_update_touches_own_entry_only (s : ConnectionManager)
    (broken : transport) (ws : Conn) (data : pyobj) :
  reachable s →
  let r := handle_cursor_update broken ws data s in
  (∀ R P c, presence (final r) R P = Some c →
     presence s R P = Some c ∨
     ∃ info cursor,
       connection_users s !! ws = Some info ∧
       project_id info = R ∧ user_id info = P ∧
       presence s R P = Some cursor ∧ c = moved_cursor cursor data) ∧
  (∀ cursor k, k ≠ "x"%string → k ≠ "y"%string → k ≠ "timestamp"%string →
     Dict.get (moved_cursor cursor data) k = Dict.get cursor k).
Proof.
  intros Hwf%reachable_wf r. split.
  - intros R P c Hp. unfold r in Hp.
    destruct (connection_users s !! ws) as [info|] eqn:Hws; cycle 1.
    { rewrite handle_cursor_update_skip in Hp by (intros; congruence). by left. }
    destruct (presence s (project_id info) (user_id info)) as [cursor|] eqn:Hown; cycle 1.
    { rewrite handle_cursor_update_skip in Hp by (intros; congruence). by left. }
    pose proof Hown as Hown'. unfold presence in Hown'.
    destruct (user_cursors s !! project_id info) as [room|] eqn:Hroom; [| done].
    simpl in Hown'.
    destruct (handle_cursor_update_run broken ws data s info room cursor Hwf Hws Hroom Hown')
      as (s2 & (_ & _ & _ & _ & Hmono & _) & Hrun).
    rewrite Hrun in Hp. simpl in Hp. apply Hmono in Hp.
    rewrite (moved_presence s _ _ room _ Hroom) in Hp.
    destruct (decide (project_id info = R ∧ user_id info = P)) as [[<- <-]|]; [| by left].
    injection Hp as <-. right. by exists info, cursor.
  - intros cursor k Hx Hy Ht. rewrite moved_cursor_get.
    by rewrite !decide_False.
Qed.

Lemma cursor_update_touches_own_entry_only_witness :
  reachable alice_and_bob ∧
  ∃ info cursor,
    connection_users alice_and_bob !! 10 = Some info ∧
    project_id info = 7%Z ∧ user_id info = 1%Z ∧
    presence alice_and_bob 7 1 = Some cursor ∧
    presence (final (handle_cursor_update up 10 [("x", JInt 3)]%string alice_and_bob)) 7 1 =
      Some (moved_cursor cursor [("x", JInt 3)]%string).
Proof.
  assert (reachable alice_and_bob) as Hr.
  { apply reachable_run; [constructor |]. vm_compute. done. }
  split; [exact Hr |].
  pose (c := [("x", JInt 3); ("y", JInt 0); ("username", JStr "alice");
              ("color", JStr "#4ECDC4"); ("timestamp", JNull)]%string).
  assert (presence (final (handle_cursor_update up 10 [("x", JInt 3)]%string alice_and_bob))
            7 1 = Some c) as Hp by (vm_compute; reflexivity).
  destruct (proj1 (cursor_update_touches_own_entry_only alice_and_bob up 10
                     [("x", JInt 3)]%string Hr) 7%Z 1%Z c Hp)
    as [Hold|(info & cursor & H1 & H2 & H3 & H4 & H5)].
  - vm_compute in Hold. discriminate Hold.
  - exists info, cursor. by rewrite Hp, H5.
Defined.

(** * Further properties of the websocket endpoint *)

Lemma deliveries_handled broken message exclude conns s' :
  wf s' → handled (Outcome s' (deliveries broken message exclude conns) (Ok tt)).
Proof.
  intros Hwf. split_and!; [done | done |]. simpl.
  intros e [x ->]%deliveries_only_sends. eauto.
Qed.

Lemma quiet_handled s : wf s → handled (Outcome s [] (Ok tt)).
Proof. intros Hwf. split_and!; [done | done |]. by intros e ?%elem_of_nil. Qed.

Lemma handle_cursor_update_handled broken ws data s :
  wf s → handled (handle_cursor_update broken ws data s) ∧
         (broken ws = None →
            connection_users (final (handle_cursor_update broken ws data s)) !! ws =
              connection_users s !! ws).
Proof.
  intros Hwf.
  destruct (connection_users s !! ws) as [info|] eqn:Hws; cycle 1.
  { rewrite handle_cursor_update_skip by (intros; congruence).
    split; [by apply quiet_handled | done]. }
  destruct (presence s (project_id info) (user_id info)) as [cursor|] eqn:Hp; cycle 1.
  { rewrite handle_cursor_update_skip by (intros; congruence).
    split; [by apply quiet_handled | done]. }
  unfold presence in Hp.
  destruct (user_cursors s !! project_id info) as [room|] eqn:Hroom; [| done].
  simpl in Hp.
  destruct (handle_cursor_update_run broken ws data s info room cursor Hwf Hws Hroom Hp)
    as (s2 & (_ & Hwf2 & _ & Hus & _) & ->).
  split; [by apply deliveries_handled |]. simpl. intros _.
  rewrite Hus, decide_False; [done | apply failures_excluded].
Qed.

Lemma handle_timeline_update_handled broken ws data s :
  wf s → handled (handle_timeline_update broken ws data s) ∧
         (broken ws = None →
            connection_users (final (handle_timeline_update broken ws data s)) !! ws =
              connection_users s !! ws).
Proof.
  intros Hwf. pose proof (handle_timeline_update_run broken ws data s Hwf) as Hrun.
  destruct (connection_users s !! ws) as [info|] eqn:Hws.
  - destruct Hrun as (s2 & (_ & Hwf2 & _ & Hus & _) & ->).
    split; [by apply deliveries_handled |]. simpl. intros _.
    rewrite Hus, decide_False; [done | apply failures_excluded].
  - rewrite Hrun. split; [by apply quiet_handled | done].
Qed.

Lemma handle_chat_message_handled broken ws data s :
  wf s → handled (handle_chat_message broken ws data s) ∧
         (broken ws = None →
            connection_users (final (handle_chat_message broken ws data s)) !! ws =
              connection_users s !! ws).
Proof.
  intros Hwf. pose proof (handle_chat_message_run broken ws data s Hwf) as Hrun.
  destruct (connection_users s !! ws) as [info|] eqn:Hws.
  - destruct Hrun as (s2 & (_ & Hwf2 & _ & Hus & _) & ->).
    split; [by apply deliveries_handled |]. simpl. intros Hup.
    rewrite Hus, decide_False; [done |]. rewrite failures_elem.
    intros (_ & _ & [e He]). congruence.
  - rewrite Hrun. split; [by apply quiet_handled | done].
Qed.

Lemma relay_through_router py_format broken ws R d s (h : M unit) :
  value (h s) = Ok tt →
  handle_websocket_message py_format broken ws (JObj d) R s = h s →
  receive_iteration py_format broken ws R (Text (Some (JObj d))) s =
    Outcome (final (h s)) (trace (h s)) (Ok Receiving).
Proof.
  intros Hok Hrun. unfold receive_iteration, try_except, bind. rewrite Hrun.
  destruct (h s) as [s' tr v]. simpl in *. subst v. by rewrite app_nil_r.
Qed.

Lemma router_dispatch broken ws s (h : M unit) :
  value (h s) = Ok tt →
  try_except h
    (λ _, send_text broken ws
            (JObj [("type", JStr "error");
                   ("message", JStr "Internal server error")]%string)) s = h s.
Proof. intros Hok. unfold try_except. destruct (h s) as [s' tr v]. simpl in *. by subst v. Qed.

(** X13. For the three relayed message types the endpoint adds nothing to
    what the manager's handler does: in a reachable state one turn of the
    receive loop on a [cursor_update], [timeline_update] or [chat_message]
    object leaves exactly the handler's manager and the handler's writes,
    and the loop goes on.  This holds whatever sockets fail on write, the
    sender's included: no [error] envelope is produced and the socket is not
    closed on account of a failed delivery. *)
Theorem router_relays (py_format : json → string) (s : ConnectionManager)
    (broken : transport) (ws : Conn) (R : Z) (d : pyobj) :
  reachable s →
  let message_type := Dict.get_default d "type"%string JNull in
  let turn := receive_iteration py_format broken ws R (Text (Some (JObj d))) s in
  (is_str message_type "cursor_update" = true →
     turn = Outcome (final (handle_cursor_update broken ws d s))
                    (trace (handle_cursor_update broken ws d s)) (Ok Receiving)) ∧
  (is_str message_type "timeline_update" = true →
     turn = Outcome (final (handle_timeline_update broken ws d s))
                    (trace (handle_timeline_update broken ws d s)) (Ok Receiving)) ∧
  (is_str message_type "chat_message" = true →
     turn = Outcome (final (handle_chat_message broken ws d s))
                    (trace (handle_chat_message broken ws d s)) (Ok Receiving)).
Proof.
  intros Hwf%reachable_wf message_type turn. unfold turn, message_type. split_and!.
  - intros Ht%is_str_true.
    destruct (handle_cursor_update_handled broken ws d s Hwf) as [(Hok & _) _].
    apply relay_through_router; [done |].
    unfold handle_websocket_message. rewrite Ht. simpl.
    by apply (router_dispatch broken ws s (handle_cursor_update broken ws d)).
  - intros Ht%is_str_true.
    destruct (handle_timeline_update_handled broken ws d s Hwf) as [(Hok & _) _].
    apply relay_through_router; [done |].
    unfold handle_websocket_message. rewrite Ht. simpl.
    by apply (router_dispatch broken ws s (handle_timeline_update broken ws d)).
  - intros Ht%is_str_true.
    destruct (handle_chat_message_handled broken ws d s Hwf) as [(Hok & _) _].
    apply relay_through_router; [done |].
    unfold handle_websocket_message. rewrite Ht. simpl.
    by apply (router_dispatch broken ws s (handle_chat_message broken ws d)).
Qed.

Lemma router_relays_witness :
  reachable alice_and_bob ∧
  receive_iteration (λ _, ""%string) socket_10_down 11 7
    (Text (Some (JObj [("type", JStr "chat_message"); ("message", JStr "hi")]%string)))
    alice_and_bob =
  Outcome
    (final (handle_chat_message socket_10_down 11
              [("type", JStr "chat_message"); ("message", JStr "hi")]%string alice_and_bob))
    (trace (handle_chat_message socket_10_down 11
              [("type", JStr "chat_message"); ("message", JStr "hi")]%string alice_and_bob))
    (Ok Receiving).
Proof.
  assert (reachable alice_and_bob) as Hr.
  { apply reachable_run; [constructor |]. vm_compute. done. }
  split; [exact Hr |].
  exact (proj2 (proj2 (router_relays (λ _, ""%string) alice_and_bob socket_10_down 11 7
    [("type", JStr "chat_message"); ("message", JStr "hi")]%string Hr)) eq_refl).
Defined.

Lemma auth_failure_run (py_format : json → string)
    (verify_token : string → result json)
    (get_user_by_username : json → result (option User.t))
    (accepted_again : Conn → option exn)
    (s : ConnectionManager) (broken : transport) (ws : Conn) (R : Z)
    (token : option string) (events : list received) :
  (∀ t, token = Some t → t ≠ ""%string →
     validate_websocket_token verify_token get_user_by_username t R = None) →
  websocket_endpoint py_format verify_token get_user_by_username
    accepted_again broken ws R token events s =
  Outcome s
    (Accept ws ::
     (if writable broken ws then [SendText ws (error_envelope (auth_error token))] else []) ++
     [Close ws])
    (Ok Finished).
Proof.
  intros Hrej. unfold websocket_endpoint, auth_error, writable.
  destruct token as [t|].
  - destruct (String.eqb_spec t "") as [->|Hne].
    + unfold try_except, bind, send_text, emit, ret. simpl.
      by destruct (broken ws).
    + rewrite (Hrej t eq_refl Hne).
      unfold try_except, bind, send_text, emit, ret. simpl.
      by destruct (broken ws).
  - unfold try_except, bind, send_text, emit, ret. simpl.
    by destruct (broken ws).
Qed.

(** X14. A socket that presents no token, an empty token, or a token that
    [validate_websocket_token] rejects never reaches the manager: the
    endpoint accepts it, sends one [error] envelope naming the reason when
    the transport takes it, closes the socket and returns, without reading
    any message and leaving the manager exactly as it was. *)
Theorem auth_failure_never_registers (py_format : json → string)
    (verify_token : string → result json)
    (get_user_by_username : json → result (option User.t))
    (accepted_again : Conn → option exn)
    (s : ConnectionManager) (broken : transport) (ws : Conn) (R : Z)
    (token : option string) (events : list received) :
  (∀ t, token = Some t → t ≠ ""%string →
     validate_websocket_token verify_token get_user_by_username t R = None) →
  let r := websocket_endpoint py_format verify_token get_user_by_username
             accepted_again broken ws R token events s in
  final r = s ∧ value r = Ok Finished ∧
  trace r =
    Accept ws ::
    (if writable broken ws then [SendText ws (error_envelope (auth_error token))] else []) ++
    [Close ws].
Proof.
  intros Hrej r. unfold r.
  by rewrite (auth_failure_run py_format verify_token get_user_by_username
                accepted_again s broken ws R token events Hrej).
Qed.

Lemma auth_failure_never_registers_witness :
  websocket_endpoint (λ _, ""%string) (λ _, Raise ValueError) (λ _, Ok None) (λ _, None)
    up 12 7 (Some "forged"%string) [Text (Some (JObj [("type", JStr "ping")]%string))]
    alice_and_bob =
  Outcome alice_and_bob
    [Accept 12; SendText 12 (error_envelope "Invalid authentication token"); Close 12]
    (Ok Finished).
Proof.
  pose proof (auth_failure_never_registers (λ _, ""%string) (λ _, Raise ValueError)
    (λ _, Ok None) (λ _, None) alice_and_bob up 12 7 (Some "forged"%string)
    [Text (Some (JObj [("type", JStr "ping")]%string))]) as H.
  destruct H as (Hs & Hv & Ht); [reflexivity |].
  destruct (websocket_endpoint _ _ _ _ _ _ _ _ _ _) as [s' tr v]. simpl in *.
  by rewrite Hs, Hv, Ht.
Defined.

(** What [validate_websocket_token] accepts. *)
Lemma validate_websocket_token_Some verify_token get_user_by_username t R user :
  validate_websocket_token verify_token get_user_by_username t R = Some user →
  ∃ d, verify_token t = Ok (JObj d) ∧
       truthy (Dict.get_default d "sub"%string JNull) = true ∧
       get_user_by_username (Dict.get_default d "sub"%string JNull) = Ok (Some user).
Proof.
  unfold validate_websocket_token.
  destruct (verify_token t) as [payload|]; [| done].
  destruct (truthy payload); simpl; [| done].
  destruct payload as [| | | | | |d]; try done.
  destruct (truthy (Dict.get_default d "sub"%string JNull)) eqn:Hsub; simpl; [| done].
  destruct (get_user_by_username _) as [[u|]|] eqn:Hu; try done.
  intros [= ->]. eauto.
Qed.

Lemma receive_iteration_object py_format broken ws R d s :
  wf s → broken ws = None →
  ∃ s' tr,
    receive_iteration py_format broken ws R (Text (Some (JObj d))) s =
      Outcome s' tr (Ok Receiving) ∧
    wf s' ∧ connection_users s' !! ws = connection_users s !! ws ∧
    (∀ e, e ∈ tr → ∃ x m, e = SendText x m).
Proof.
  intros Hwf Hup.
  assert (∀ h : M unit,
    handled (h s) → connection_users (final (h s)) !! ws = connection_users s !! ws →
    handle_websocket_message py_format broken ws (JObj d) R s = h s →
    ∃ s' tr,
      receive_iteration py_format broken ws R (Text (Some (JObj d))) s =
        Outcome s' tr (Ok Receiving) ∧
      wf s' ∧ connection_users s' !! ws = connection_users s !! ws ∧
      (∀ e, e ∈ tr → ∃ x m, e = SendText x m)) as Hvia.
  { intros h (Hok & Hwf' & Htr) Hus Hrun.
    exists (final (h s)), (trace (h s)). split_and!; try done.
    by apply relay_through_router. }
  assert (∀ m, handled (send_text broken ws m s) ∧
    connection_users (final (send_text broken ws m s)) !! ws = connection_users s !! ws)
    as Hsend.
  { intros m. unfold send_text. rewrite Hup. split; [| done].
    split_and!; try done. simpl. intros e ->%list_elem_of_singleton. eauto. }
  unfold handle_websocket_message in Hvia.
  destruct (is_str (Dict.get_default d "type"%string JNull) "cursor_update") eqn:E1.
  { destruct (handle_cursor_update_handled broken ws d s Hwf) as [Hh Hus].
    apply (Hvia (handle_cursor_update broken ws d)); [done | by apply Hus |].
    apply router_dispatch, Hh. }
  destruct (is_str (Dict.get_default d "type"%string JNull) "timeline_update") eqn:E2.
  { destruct (handle_timeline_update_handled broken ws d s Hwf) as [Hh Hus].
    apply (Hvia (handle_timeline_update broken ws d)); [done | by apply Hus |].
    apply router_dispatch, Hh. }
  destruct (is_str (Dict.get_default d "type"%string JNull) "chat_message") eqn:E3.
  { destruct (handle_chat_message_handled broken ws d s Hwf) as [Hh Hus].
    apply (Hvia (handle_chat_message broken ws d)); [done | by apply Hus |].
    apply router_dispatch, Hh. }
  destruct (is_str (Dict.get_default d "type"%string JNull) "ping") eqn:E4.
  { set (m := JObj [("type", JStr "pong");
        ("timestamp", Dict.get_default d "timestamp" JNull)]%string) in *.
    destruct (Hsend m) as (Hh & Hus).
    apply (Hvia (send_text broken ws m)); [done | done |].
    apply router_dispatch, Hh. }
  set (m := JObj [("type", JStr "error");
      ("message", JStr ("Unknown message type: " +:+
         py_format (Dict.get_default d "type" JNull)))]%string) in *.
  destruct (Hsend m) as (Hh & Hus).
  apply (Hvia (send_text broken ws m)); [done | done |].
  apply router_dispatch, Hh.
Qed.

Lemma receive_loop_objects py_format broken ws R msgs s :
  wf s → broken ws = None → Forall object_message msgs →
  ∃ s' tr,
    wf s' ∧ connection_users s' !! ws = connection_users s !! ws ∧
    (∀ e, e ∈ tr → ∃ x m, e = SendText x m) ∧
    ∀ rest,
      receive_loop py_format broken ws R (msgs ++ rest) s =
        let r := receive_loop py_format broken ws R rest s' in
        Outcome (final r) (tr ++ trace r) (value r).
Proof.
  intros Hwf Hup Hmsgs. revert s Hwf.
  induction Hmsgs as [|ev msgs [d ->] _ IH]; intros s Hwf.
  - exists s, []. split_and!; try done; [by intros e ?%elem_of_nil |].
    intros rest. simpl. by destruct (receive_loop _ _ _ _ _ _).
  - destruct (receive_iteration_object py_format broken ws R d s Hwf Hup)
      as (s1 & tr1 & Hrun1 & Hwf1 & Hus1 & Htr1).
    destruct (IH s1 Hwf1) as (s' & tr & Hwf' & Hus & Htr & Hloop).
    exists s', (tr1 ++ tr). split_and!; [done | congruence | |].
    + intros e [?|?]%elem_of_app; eauto.
    + intros rest. simpl. unfold bind. rewrite Hrun1. rewrite Hloop. simpl.
      by rewrite app_assoc.
Qed.

Lemma receive_loop_disconnected py_format broken ws R rest s :
  wf s →
  receive_loop py_format broken ws R (Disconnected :: rest) s =
    Outcome (final (disconnect ws s)) [] (Ok Finished) ∧
  connection_users (final (disconnect ws s)) !! ws = None.
Proof.
  intros Hwf. pose proof (disconnect_users s ws ws Hwf) as Hgone.
  rewrite decide_True in Hgone by done. split; [| done].
  destruct (disconnect_wf s ws Hwf) as (s' & Hd & _).
  cbn [receive_loop]. unfold bind at 1.
  assert (receive_iteration py_format broken ws R Disconnected s =
            Outcome (final (disconnect ws s)) [] (Ok Finished)) as ->; [| done].
  unfold receive_iteration, try_except.
  unfold bind at 2. unfold raise at 1. cbn beta iota.
  unfold bind at 1. by rewrite Hd.
Qed.

(** X15. The life of an authenticated session.  On a reachable manager, for
    a socket that is not registered, a non-empty token that
    [validate_websocket_token] accepts and a transport that lets the second
    [accept] of [connect] pass and takes the writes to this socket, the
    endpoint registers the socket under the user the token was resolved to;
    as long as the payloads are JSON objects, of whatever type, the loop
    keeps reading and the socket stays bound to that user and project; when
    the transport then reports the disconnect the endpoint returns with the
    socket removed from the registry.  The socket is never closed by the
    server on this path, and the messages after the disconnect are not
    read. *)
Theorem session_lifecycle (py_format : json → string)
    (verify_token : string → result json)
    (get_user_by_username : json → result (option User.t))
    (accepted_again : Conn → option exn)
    (s : ConnectionManager) (broken : transport) (ws : Conn) (R : Z)
    (t : string) (user : User.t) (msgs rest : list received) :
  reachable s → connection_users s !! ws = None →
  t ≠ ""%string →
  validate_websocket_token verify_token get_user_by_username t R = Some user →
  accepted_again ws = None →
  broken ws = None →
  Forall object_message msgs →
  let run := websocket_endpoint py_format verify_token get_user_by_username
               accepted_again broken ws R (Some t) in
  (∃ d, verify_token t = Ok (JObj d) ∧
        get_user_by_username (Dict.get_default d "sub"%string JNull) = Ok (Some user)) ∧
  value (run msgs s) = Ok Receiving ∧
  connection_users (final (run msgs s)) !! ws = Some (bound_info R user) ∧
  value (run (msgs ++ Disconnected :: rest) s) = Ok Finished ∧
  connection_users (final (run (msgs ++ Disconnected :: rest) s)) !! ws = None ∧
  (∀ x, Close x ∉ trace (run (msgs ++ Disconnected :: rest) s)) ∧
  run (msgs ++ Disconnected :: rest) s = run (msgs ++ [Disconnected]) s.
Proof.
  intros Hwf%reachable_wf Hfresh Hne Hval Hagain Hup Hmsgs run.
  split.
  { destruct (validate_websocket_token_Some _ _ _ _ _ Hval) as (d & ? & _ & ?). eauto. }
  destruct user as [uid uname].
  destruct (connect_run broken ws R (User.mk uid uname) s Hwf Hfresh)
    as (s2 & room & entries & (_ & Hwf2 & _) & Hws2 & _ & _ & Hconnect).
  destruct (receive_loop_objects py_format broken ws R msgs s2 Hwf2 Hup Hmsgs)
    as (s3 & tr & Hwf3 & Hus3 & Htr & Hloop).
  assert (∃ pre, (∀ x, Close x ∉ pre) ∧ ∀ events,
    run events s =
      let r := receive_loop py_format broken ws R events s2 in
      match value r with
      | Ok st => Outcome (final r) (pre ++ trace r) (Ok st)
      | Raise e => Outcome (final r) (pre ++ trace r ++ [Close ws]) (Ok Finished)
      end) as (pre & Hpre & Hrun).
  { unfold writable in Hconnect. rewrite Hup in Hconnect.
    exists (Accept ws :: Accept ws ::
      deliveries broken
        (user_joined (User.mk uid uname) (initial_cursor (User.mk uid uname)))
        (Some ws) (default [] (active_connections s !! R) ++ [ws]) ++
      [SendText ws (project_state entries)]).
    split.
    - intros x. rewrite !not_elem_of_cons, !not_elem_of_app. split_and!; try done.
      + by intros [? [=]]%deliveries_only_sends.
      + by intros [=]%list_elem_of_singleton.
    - intros events.
      unfold run, websocket_endpoint. destruct (String.eqb_spec t "") as [|_]; [done |].
      rewrite Hval, Hagain. simpl. unfold try_except, bind, emit. simpl.
      rewrite Hconnect. simpl.
      destruct (receive_loop py_format broken ws R events s2) as [sf trf [st|e]]; simpl.
      + by rewrite <- !app_assoc.
      + by rewrite <- !app_assoc. }
  destruct (receive_loop_disconnected py_format broken ws R rest s3 Hwf3)
    as (Hlast & Hgone).
  pose proof (proj1 (receive_loop_disconnected py_format broken ws R [] s3 Hwf3))
    as Hlast'.
  split_and!.
  - rewrite (Hrun msgs), <- (app_nil_r msgs), Hloop. by simpl.
  - rewrite (Hrun msgs), <- (app_nil_r msgs), Hloop. simpl. congruence.
  - rewrite (Hrun (msgs ++ Disconnected :: rest)), Hloop, Hlast. by simpl.
  - rewrite (Hrun (msgs ++ Disconnected :: rest)), Hloop, Hlast. by simpl.
  - rewrite (Hrun (msgs ++ Disconnected :: rest)), Hloop, Hlast. simpl.
    intros x. rewrite app_nil_r, !not_elem_of_app. split; [apply Hpre |].
    intros Hin. by destruct (Htr _ Hin) as (? & ? & [=]).
  - rewrite (Hrun (msgs ++ Disconnected :: rest)), (Hrun (msgs ++ [Disconnected])).
    by rewrite !Hloop, Hlast, Hlast'.
Qed.

Lemma session_lifecycle_witness :
  value (websocket_endpoint (λ _, ""%string) sample_verify_token sample_get_user
           (λ _, None) up 10 7
           (Some "tok"%string)
           [Text (Some (JObj [("type", JStr "ping")]%string)); Disconnected] init) =
    Ok Finished ∧
  connection_users
    (final (websocket_endpoint (λ _, ""%string) sample_verify_token sample_get_user
              (λ _, None) up 10 7
              (Some "tok"%string)
              [Text (Some (JObj [("type", JStr "ping")]%string)); Disconnected] init))
    !! 10 = None.
Proof.
  assert (Forall object_message [Text (Some (JObj [("type", JStr "ping")]%string))]) as Hm.
  { constructor; [by eexists | constructor]. }
  destruct (session_lifecycle (λ _, ""%string) sample_verify_token sample_get_user
    (λ _, None) init up 10 7 "tok" alice
    [Text (Some (JObj [("type", JStr "ping")]%string))] []
    reachable_init eq_refl) as (_ & _ & _ & Hv & Hgone & _ & _);
    [done | reflexivity | reflexivity | reflexivity | exact Hm |].
  split; [exact Hv | exact Hgone].
Defined.

(** X16. When the reply to the sender cannot be written.  For a [ping] or
    an unknown type from a socket whose transport raises on every write, the
    second write attempted by the [except] branch of
    [handle_websocket_message] raises too and the receive loop ends without
    anything written.  If the exception is [WebSocketDisconnect] the
    endpoint runs [disconnect] and the socket is unregistered; for any other
    exception the endpoint closes the socket and leaves the manager as it
    was. *)
Theorem reply_failure_ends_session (py_format : json → string)
    (s : ConnectionManager) (broken : transport) (ws : Conn) (R : Z) (d : pyobj)
    (e : exn) :
  reachable s → broken ws = Some e →
  is_str (Dict.get_default d "type"%string JNull) "cursor_update" = false →
  is_str (Dict.get_default d "type"%string JNull) "timeline_update" = false →
  is_str (Dict.get_default d "type"%string JNull) "chat_message" = false →
  let r := receive_iteration py_format broken ws R (Text (Some (JObj d))) s in
  value r = Ok Finished ∧
  (e = WebSocketDisconnect →
     trace r = [] ∧ final r = final (disconnect ws s) ∧
     connection_users (final r) !! ws = None) ∧
  (e ≠ WebSocketDisconnect → trace r = [Close ws] ∧ final r = s).
Proof.
  intros Hwf%reachable_wf Hb E1 E2 E3 r.
  pose proof (disconnect_users s ws ws Hwf) as Hgone.
  rewrite decide_True in Hgone by done.
  destruct (disconnect_wf s ws Hwf) as (s' & Hd & _). rewrite Hd in Hgone.
  assert (handle_websocket_message py_format broken ws (JObj d) R s =
            Outcome s [] (Raise e)) as Hrun.
  { unfold handle_websocket_message. rewrite E1, E2, E3.
    unfold try_except, send_text. rewrite Hb.
    by destruct (is_str (Dict.get_default d "type"%string JNull) "ping"). }
  unfold r, receive_iteration, try_except, bind. rewrite Hrun.
  destruct e; simpl; rewrite ?Hd; simpl; by split_and!.
Qed.

Lemma reply_failure_ends_session_witness :
  reachable alice_and_bob ∧
  receive_iteration (λ _, ""%string) socket_10_down 10 7
    (Text (Some (JObj [("type", JStr "ping")]%string))) alice_and_bob =
  Outcome alice_and_bob [Close 10] (Ok Finished).
Proof.
  assert (reachable alice_and_bob) as Hr.
  { apply reachable_run; [constructor |]. vm_compute. done. }
  split; [exact Hr |].
  destruct (reply_failure_ends_session (λ _, ""%string) alice_and_bob socket_10_down 10 7
    [("type", JStr "ping")]%string RuntimeError Hr eq_refl eq_refl eq_refl eq_refl)
    as (Hv & _ & Hother).
  destruct (Hother ltac:(done)) as [Ht Hs].
  destruct (receive_iteration _ _ _ _ _ _) as [s' tr v]. simpl in *.
  by rewrite Hv, Ht, Hs.
Defined.

(** X22. When the transport refuses the second [accept].  If [accept] raises
    on a socket that has been accepted already, [connect] ends at its first
    statement and the endpoint registers nobody: whatever the token and
    whatever messages are waiting, the manager is left exactly as it was, no
    message is read, and the socket is closed.  A socket whose token was
    validated is sent nothing at all. *)
Theorem refused_accept_never_registers (py_format : json → string)
    (verify_token : string → result json)
    (get_user_by_username : json → result (option User.t))
    (accepted_again : Conn → option exn)
    (s : ConnectionManager) (broken : transport) (ws : Conn) (R : Z)
    (token : option string) (events : list received) (e : exn) :
  accepted_again ws = Some e →
  let r := websocket_endpoint py_format verify_token get_user_by_username
             accepted_again broken ws R token events s in
  final r = s ∧ value r = Ok Finished ∧
  (∃ sent, trace r = Accept ws :: sent ++ [Close ws] ∧
     (∀ x, x ∈ sent → x = SendText ws (error_envelope (auth_error token))) ∧
     (∀ t user, token = Some t → t ≠ ""%string →
        validate_websocket_token verify_token get_user_by_username t R = Some user →
        sent = [])).
Proof.
  intros Hagain r.
  assert ((∃ t user, token = Some t ∧ t ≠ ""%string ∧
             validate_websocket_token verify_token get_user_by_username t R = Some user) ∨
          (∀ t, token = Some t → t ≠ ""%string →
             validate_websocket_token verify_token get_user_by_username t R = None))
    as [(t & user & -> & Hne & Hval)|Hrej].
  { destruct token as [t|]; [| by right].
    destruct (validate_websocket_token verify_token get_user_by_username t R)
      as [user|] eqn:Hval.
    - destruct (decide (t = ""%string)) as [->|Hne].
      + right. by intros ? [= <-].
      + left. eauto.
    - right. by intros ? [= <-]. }
  - unfold r, websocket_endpoint. destruct (String.eqb_spec t "") as [|_]; [done |].
    rewrite Hval, Hagain. unfold try_except, bind, emit, raise, ret. simpl.
    split_and!; try done. exists []. split_and!; try done.
    by intros x ?%elem_of_nil.
  - unfold r.
    rewrite (auth_failure_run py_format verify_token get_user_by_username
               accepted_again s broken ws R token events Hrej).
    split_and!; try done. simpl.
    exists (if writable broken ws
            then [SendText ws (error_envelope (auth_error token))] else []).
    split_and!; [done | |].
    + intros x. destruct (writable broken ws); [by intros ->%list_elem_of_singleton |].
      by intros ?%elem_of_nil.
    + intros t user -> Hne Hval. by rewrite (Hrej t eq_refl Hne) in Hval.
Qed.

Lemma refused_accept_never_registers_witness :
  websocket_endpoint (λ _, ""%string) sample_verify_token sample_get_user
    (λ _, Some RuntimeError) up 10 7 (Some "tok"%string)
    [Text (Some (JObj [("type", JStr "ping")]%string))] init =
  Outcome init [Accept 10; Close 10] (Ok Finished).
Proof.
  destruct (refused_accept_never_registers (λ _, ""%string) sample_verify_token
    sample_get_user (λ _, Some RuntimeError) init up 10 7 (Some "tok"%string)
    [Text (Some (JObj [("type", JStr "ping")]%string))] RuntimeError eq_refl)
    as (Hs & Hv & sent & Ht & _ & Hnone).
  rewrite (Hnone "tok"%string alice eq_refl ltac:(done) eq_refl) in Ht.
  destruct (websocket_endpoint _ _ _ _ _ _ _ _ _ _) as [s' tr v]. simpl in *.
  by rewrite Hs, Hv, Ht.
Defined.

(** * Further properties of the timeline endpoints *)

Module TimelineApiFacts.
Import Timeline TimelineApi TimelineFacts.

Lemma can_edit_member pid uid db :
  can_edit pid uid db = true →
  ∃ member, member ∈ project_members db ∧
    member_project_id member = pid ∧ member_user_id member = uid ∧
    (role member = "owner"%string ∨ role member = "editor"%string) ∧
    find_member pid uid db = Some member.
Proof.
  unfold can_edit. destruct (find_member pid uid db) as [member|] eqn:Hf; [| done].
  intros Hrole%bool_decide_eq_true. exists member.
  unfold find_member in Hf. apply find_some in Hf as [Hin [Hp Hu]%bool_decide_eq_true].
  split_and!; try done; [by apply list_elem_of_In |].
  rewrite !elem_of_cons in Hrole. destruct Hrole as [?|[?|?%elem_of_nil]]; tauto.
Qed.

(** X17. Reordering is idempotent: sending the same list a second time, by
    the same caller, gives the same answer and leaves the clips and the
    memberships as the first call left them. *)
Theorem reorder_idempotent (pid : Z) (clip_order : list Z) (uid : Z) (db : Db) :
  reorder_timeline_clips pid clip_order uid
    (reorder_timeline_clips pid clip_order uid db).1 =
  reorder_timeline_clips pid clip_order uid db.
Proof.
  unfold reorder_timeline_clips.
  destruct (can_edit pid uid db) eqn:Hauth; simpl; [| by rewrite Hauth].
  assert (can_edit pid uid
    {| timeline_clips := reorder_loop pid 0 clip_order (timeline_clips db);
       project_members := project_members db |} = true) as -> by done.
  do 2 f_equal. simpl. apply map_eq. intros clip_id.
  rewrite !reorder_loop_lookup.
  destruct (timeline_clips db !! clip_id) as [clip|]; [| done]. f_equal.
  destruct (decide (project_id clip = pid)) as [Hp|Hp].
  - destruct (last_index clip_id 0 clip_order) as [i|]; simpl.
    + by rewrite decide_True.
    + by rewrite decide_True.
  - by rewrite decide_False.
Qed.

(** X18. After a reorder with a list that repeats no id, the listed clips of
    the project follow the list: of two of them, the one listed earlier has
    the strictly smaller [start_time], and no [start_time] is negative. *)
Theorem reorder_follows_list (pid : Z) (clip_order : list Z) (uid : Z) (db : Db)
    (i j : nat) (ci cj : Z) (clip_i clip_j : TimelineClip) :
  can_edit pid uid db = true →
  NoDup clip_order →
  clip_order !! i = Some ci → clip_order !! j = Some cj →
  timeline_clips db !! ci = Some clip_i → project_id clip_i = pid →
  timeline_clips db !! cj = Some clip_j → project_id clip_j = pid →
  i < j →
  let clips' := timeline_clips (reorder_timeline_clips pid clip_order uid db).1 in
  ∃ clip_i' clip_j',
    clips' !! ci = Some clip_i' ∧ clips' !! cj = Some clip_j' ∧
    Qlt (start_time clip_i') (start_time clip_j') ∧
    Qle 0 (start_time clip_i').
Proof.
  intros Hauth Hnd Hi Hj Hci Hpi Hcj Hpj Hlt. unfold reorder_timeline_clips.
  rewrite Hauth. simpl. rewrite !reorder_loop_lookup, Hci, Hcj.
  rewrite !decide_True by done.
  rewrite (last_index_NoDup ci 0 clip_order i Hnd Hi).
  rewrite (last_index_NoDup cj 0 clip_order j Hnd Hj). simpl.
  eexists _, _. split_and!; [done | done | |]; simpl.
  - unfold Qlt. simpl. lia.
  - unfold Qle. simpl. lia.
Qed.

Lemma reorder_follows_list_witness :
  ∃ clip_i' clip_j',
    timeline_clips (reorder_timeline_clips 7 [2; 99; 3; 1]%Z 100 sample_db).1 !! 2%Z =
      Some clip_i' ∧
    timeline_clips (reorder_timeline_clips 7 [2; 99; 3; 1]%Z 100 sample_db).1 !! 1%Z =
      Some clip_j' ∧
    Qlt (start_time clip_i') (start_time clip_j') ∧ Qle 0 (start_time clip_i').
Proof.
  assert (NoDup [2; 99; 3; 1]%Z) as Hnd.
  { apply (bool_decide_unpack _). vm_compute. exact I. }
  apply (reorder_follows_list 7 [2; 99; 3; 1]%Z 100 sample_db 0 3 2 1
           (sample_clip 7 (inject_Z 40)) (sample_clip 7 (inject_Z 30)));
    try reflexivity; [exact Hnd | lia].
Defined.

(** X19. Who may touch a clip.  If [create_timeline_clip],
    [delete_timeline_clip] or [reorder_timeline_clips] changes the database
    at all, the caller has a membership row in the project concerned whose
    role is [owner] or [editor]; the membership table itself is never
    changed.  [get_timeline_clip] returns a clip only to a caller who has a
    membership row, of whatever role, in that clip's project. *)
Theorem timeline_access_control (media_files : Z → bool) (uid : Z) (db : Db) :
  let editor pid := ∃ member, member ∈ project_members db ∧
      member_project_id member = pid ∧ member_user_id member = uid ∧
      (role member = "owner"%string ∨ role member = "editor"%string) in
  (∀ new_id clip_data,
     (create_timeline_clip media_files new_id clip_data uid db).1 ≠ db →
     editor (project_id clip_data)) ∧
  (∀ clip_id,
     (delete_timeline_clip clip_id uid db).1 ≠ db →
     ∃ clip, timeline_clips db !! clip_id = Some clip ∧ editor (project_id clip)) ∧
  (∀ pid clip_order,
     (reorder_timeline_clips pid clip_order uid db).1 ≠ db → editor pid) ∧
  (∀ new_id clip_data clip_id pid clip_order,
     project_members (create_timeline_clip media_files new_id clip_data uid db).1 =
       project_members db ∧
     project_members (delete_timeline_clip clip_id uid db).1 = project_members db ∧
     project_members (reorder_timeline_clips pid clip_order uid db).1 = project_members db) ∧
  (∀ clip_id clip,
     get_timeline_clip clip_id uid db = Returned clip →
     timeline_clips db !! clip_id = Some clip ∧
     ∃ member, member ∈ project_members db ∧
       member_project_id member = project_id clip ∧ member_user_id member = uid).
Proof.
  intros editor.
  assert (∀ pid, can_edit pid uid db = true → editor pid) as Hed.
  { intros pid (member & ? & ? & ? & ? & _)%can_edit_member. by exists member. }
  split_and!.
  - intros new_id clip_data. unfold create_timeline_clip.
    destruct (can_edit (project_id clip_data) uid db) eqn:Hauth; [auto | done].
  - intros clip_id. unfold delete_timeline_clip.
    destruct (timeline_clips db !! clip_id) as [clip|]; [| done].
    destruct (can_edit (project_id clip) uid db) eqn:Hauth; [eauto | done].
  - intros pid clip_order. unfold reorder_timeline_clips.
    destruct (can_edit pid uid db) eqn:Hauth; [auto | done].
  - intros new_id clip_data clip_id pid clip_order.
    unfold create_timeline_clip, delete_timeline_clip, reorder_timeline_clips.
    destruct (can_edit (project_id clip_data) uid db), (can_edit pid uid db),
      (row_fits new_id clip_data),
      (fk_accepts media_files (media_file_id clip_data)),
      (timeline_clips db !! clip_id) as [clip|]; simpl; try done;
      destruct (can_edit (project_id clip) uid db); done.
  - intros clip_id clip. unfold get_timeline_clip.
    destruct (timeline_clips db !! clip_id) as [c|]; [| done].
    destruct (find_member (project_id c) uid db) as [member|] eqn:Hf; [| done].
    intros [= ->]. split; [done |]. exists member.
    unfold find_member in Hf. apply find_some in Hf as [Hin [Hp Hu]%bool_decide_eq_true].
    split_and!; try done. by apply list_elem_of_In.
Qed.

Lemma timeline_access_control_witness :
  (delete_timeline_clip 1 100 sample_db).1 ≠ sample_db ∧
  ∃ clip, timeline_clips sample_db !! 1%Z = Some clip ∧
    ∃ member, member ∈ project_members sample_db ∧
      member_project_id member = project_id clip ∧ member_user_id member = 100%Z ∧
      (role member = "owner"%string ∨ role member = "editor"%string).
Proof.
  assert ((delete_timeline_clip 1 100 sample_db).1 ≠ sample_db) as Hne.
  { intros Heq. apply (f_equal (λ d, timeline_clips d !! 1%Z)) in Heq.
    vm_compute in Heq. discriminate Heq. }
  split; [exact Hne |].
  exact (proj1 (proj2 (timeline_access_control (λ _, true) 100 sample_db)) 1%Z Hne).
Defined.

(** X20. Deleting a clip.  For an owner or editor of the clip's project the
    call succeeds, afterwards the clip is not found by anyone (404), and
    every other clip is read exactly as before by every caller; a second
    delete of the same id, like the delete of any id that names no clip,
    answers 404 and changes nothing. *)
Theorem delete_timeline_clip_effect (clip_id uid : Z) (db : Db) (clip : TimelineClip) :
  timeline_clips db !! clip_id = Some clip →
  can_edit (project_id clip) uid db = true →
  let db' := (delete_timeline_clip clip_id uid db).1 in
  (delete_timeline_clip clip_id uid db).2 = Returned tt ∧
  (∀ reader, get_timeline_clip clip_id reader db' =
               Rejected 404 "Timeline clip not found") ∧
  (∀ other reader, other ≠ clip_id →
     get_timeline_clip other reader db' = get_timeline_clip other reader db) ∧
  (∀ caller, delete_timeline_clip clip_id caller db' =
               (db', Rejected 404 "Timeline clip not found")).
Proof.
  intros Hclip Hauth db'. unfold db', delete_timeline_clip.
  rewrite Hclip, Hauth. simpl. split_and!; try done.
  - intros reader. unfold get_timeline_clip. simpl. by rewrite lookup_delete_eq.
  - intros other reader Hne. unfold get_timeline_clip. simpl.
    by rewrite lookup_delete_ne.
  - intros caller. simpl. by rewrite lookup_delete_eq.
Qed.

Lemma delete_timeline_clip_effect_witness :
  timeline_clips sample_db !! 1%Z = Some (sample_clip 7 (inject_Z 30)) ∧
  get_timeline_clip 1 100 (delete_timeline_clip 1 100 sample_db).1 =
    Rejected 404 "Timeline clip not found".
Proof.
  split; [reflexivity |].
  exact (proj1 (proj2 (delete_timeline_clip_effect 1 100 sample_db
    (sample_clip 7 (inject_Z 30)) eq_refl eq_refl)) 100%Z).
Defined.



Lemma set_fields_idem clip clip_data clip' :
  set_fields clip clip_data = Some clip' → set_fields clip' clip_data = Some clip'.
Proof.
  unfold set_fields, required, nullable.
  destruct clip_data as [[[s|]|] [[d|]|] [ms|] [me|] [[t|]|] [pr|] [po|]]; simpl;
    intros [= <-]; done.
Qed.

Lemma set_fields_frame clip clip_data clip' :
  set_fields clip clip_data = Some clip' →
  project_id clip' = project_id clip ∧ media_file_id clip' = media_file_id clip ∧
  clip_type clip' = clip_type clip ∧
  (ClipUpdate.start_time clip_data = None → start_time clip' = start_time clip) ∧
  (ClipUpdate.duration clip_data = None → duration clip' = duration clip) ∧
  (ClipUpdate.media_start clip_data = None → media_start clip' = media_start clip) ∧
  (ClipUpdate.media_end clip_data = None → media_end clip' = media_end clip) ∧
  (ClipUpdate.track_number clip_data = None → track_number clip' = track_number clip) ∧
  (ClipUpdate.properties clip_data = None → properties clip' = properties clip) ∧
  (ClipUpdate.position clip_data = None → position clip' = position clip).
Proof.
  unfold set_fields, required, nullable.
  destruct clip_data as [[[s|]|] [[d|]|] [ms|] [me|] [[t|]|] [pr|] [po|]]; simpl;
    intros [= <-]; simpl; split_and!; done.
Qed.

(** X25. What an update can change.  [update_timeline_clip] never changes
    the memberships nor any other clip.  When it returns a clip, the caller
    is owner or editor of the clip's project, the returned row is the one
    stored, it belongs to the same project with the same media file and
    clip type, and every field the request did not set keeps its value.
    When it does not return a clip the database is as before; this is the
    case whenever the request sets [start_time], [duration] or
    [track_number] to [null].  Sending the same update again changes
    nothing more and gives the same answer. *)
Theorem update_timeline_clip_effect (clip_id : Z) (clip_data : ClipUpdate.t)
    (uid : Z) (db : Db) :
  let r := update_timeline_clip clip_id clip_data uid db in
  project_members r.1 = project_members db ∧
  (∀ other, other ≠ clip_id → timeline_clips r.1 !! other = timeline_clips db !! other) ∧
  (∀ clip', r.2 = Returned clip' →
     timeline_clips r.1 !! clip_id = Some clip' ∧
     ∃ clip, timeline_clips db !! clip_id = Some clip ∧
       can_edit (project_id clip) uid db = true ∧
       project_id clip' = project_id clip ∧ media_file_id clip' = media_file_id clip ∧
       clip_type clip' = clip_type clip ∧
       (ClipUpdate.start_time clip_data = None → start_time clip' = start_time clip) ∧
       (ClipUpdate.duration clip_data = None → duration clip' = duration clip) ∧
       (ClipUpdate.media_start clip_data = None → media_start clip' = media_start clip) ∧
       (ClipUpdate.media_end clip_data = None → media_end clip' = media_end clip) ∧
       (ClipUpdate.track_number clip_data = None → track_number clip' = track_number clip) ∧
       (ClipUpdate.properties clip_data = None → properties clip' = properties clip) ∧
       (ClipUpdate.position clip_data = None → position clip' = position clip)) ∧
  ((∀ clip', r.2 ≠ Returned clip') → r.1 = db) ∧
  (ClipUpdate.start_time clip_data = Some None ∨ ClipUpdate.duration clip_data = Some None ∨
   ClipUpdate.track_number clip_data = Some None → r.1 = db ∧ ∀ clip', r.2 ≠ Returned clip') ∧
  update_timeline_clip clip_id clip_data uid r.1 = r.
Proof.
  intros r. unfold r, update_timeline_clip.
  destruct (timeline_clips db !! clip_id) as [clip|] eqn:Hclip; cycle 1.
  { simpl. rewrite Hclip. split_and!; done. }
  destruct (can_edit (project_id clip) uid db) eqn:Hauth; cycle 1.
  { simpl. rewrite Hclip, Hauth. split_and!; done. }
  destruct (set_fields clip clip_data) as [clip'|] eqn:Hset; cycle 1.
  { simpl. rewrite Hclip, Hauth, Hset. split_and!; done. }
  pose proof (set_fields_frame _ _ _ Hset) as Hframe.
  simpl. split_and!; try done.
  - intros other Hne. by rewrite lookup_insert_ne.
  - intros c [= <-]. split; [by rewrite lookup_insert_eq |]. exists clip.
    destruct Hframe as (? & ? & ? & ? & ? & ? & ? & ? & ? & ?). by split_and!.
  - intros Hno. by destruct (Hno clip').
  - intros Hnull. exfalso. unfold set_fields, required in Hset.
    destruct Hnull as [H|[H|H]]; rewrite H in Hset; try done.
    + by destruct (ClipUpdate.start_time clip_data) as [[?|]|].
    + destruct (ClipUpdate.start_time clip_data) as [[?|]|],
        (ClipUpdate.duration clip_data) as [[?|]|]; done.
  - rewrite lookup_insert_eq.
    destruct Hframe as (Hp & _). rewrite Hp.
    assert (can_edit (project_id clip) uid
      {| timeline_clips := <[clip_id:=clip']> (timeline_clips db);
         project_members := project_members db |} = true) as -> by done.
    rewrite (set_fields_idem _ _ _ Hset). simpl. by rewrite insert_insert_eq.
Qed.

Lemma update_timeline_clip_effect_witness :
  ∃ clip',
    (update_timeline_clip 1
       {| ClipUpdate.start_time := Some (Some (inject_Z 12)); ClipUpdate.duration := None;
          ClipUpdate.media_start := None; ClipUpdate.media_end := None;
          ClipUpdate.track_number := None; ClipUpdate.properties := None;
          ClipUpdate.position := Some None |} 100 sample_db).2 = Returned clip' ∧
    duration clip' = inject_Z 5 ∧ project_id clip' = 7%Z.
Proof.
  eexists. split; [reflexivity |].
  destruct (proj1 (proj2 (proj2 (update_timeline_clip_effect 1
    {| ClipUpdate.start_time := Some (Some (inject_Z 12)); ClipUpdate.duration := None;
       ClipUpdate.media_start := None; ClipUpdate.media_end := None;
       ClipUpdate.track_number := None; ClipUpdate.properties := None;
       ClipUpdate.position := Some None |} 100 sample_db))) _ eq_refl)
    as (_ & clip & Hclip & _ & Hp & _ & _ & _ & Hd & _).
  injection Hclip as <-. split; [exact (Hd eq_refl) | exact Hp].
Defined.

Lemma StronglySorted_lookup {A} (R : relation A) l i j a b :
  StronglySorted R l → l !! i = Some a → l !! j = Some b → (i < j)%nat → R a b.
Proof.
  intros Hs. revert i j. induction Hs as [|x l Hs IH Hall]; intros i j Hi Hj Hlt; [done |].
  destruct j as [|j]; [lia |]. simpl in Hj. destruct i as [|i].
  - simpl in Hi. injection Hi as ->. rewrite Forall_forall in Hall.
    apply Hall. by apply list_elem_of_lookup_2 with j.
  - simpl in Hi. apply (IH i j); [done | done | lia].
Qed.

#[local] Instance timeline_le_total : Total (λ a b : Z * TimelineClip, timeline_le a.2 b.2).
Proof.
  intros [? a] [? b]. unfold timeline_le. simpl.
  destruct (Z.lt_trichotomy (track_number a) (track_number b)) as [?|[?|?]].
  - left. by left.
  - destruct (Qlt_le_dec (start_time b) (start_time a)) as [Hlt|Hle].
    + right. right. split; [done |]. by apply Qlt_le_weak.
    + left. right. done.
  - right. left. lia.
Qed.

#[local] Instance timeline_le_trans : Transitive (λ a b : Z * TimelineClip, timeline_le a.2 b.2).
Proof.
  intros [? a] [? b] [? c]. unfold timeline_le. simpl.
  intros [?|[? ?]] [?|[? ?]]; [left; lia | left; lia | left; lia |].
  right. split; [lia |]. by apply Qle_trans with (start_time b).
Qed.

(** The sorted rows are an answer of the database. *)
Lemma sorted_rows_spec pid db : project_rows pid db (sorted_rows pid db).
Proof.
  unfold sorted_rows.
  set (R := λ a b : Z * TimelineClip, timeline_le a.2 b.2).
  set (l := filter _ _).
  pose proof (merge_sort_Permutation R l) as Hperm.
  split_and!.
  - rewrite Hperm. apply (sublist_NoDup _ (map_to_list (timeline_clips db)).*1).
    + apply NoDup_fst_map_to_list.
    + apply fmap_sublist, sublist_filter.
  - intros clip_id clip. rewrite Hperm. unfold l.
    rewrite list_elem_of_filter, elem_of_map_to_list. simpl. tauto.
  - intros i j a b Hi Hj Hlt.
    by apply (StronglySorted_lookup R (merge_sort R l) i j a b);
      [apply StronglySorted_merge_sort; apply _ | | |].
Qed.

Lemma reordered_start_time pid clip_order uid db n clip_id clip :
  can_edit pid uid db = true → NoDup clip_order → clip_order !! n = Some clip_id →
  timeline_clips (reorder_timeline_clips pid clip_order uid db).1 !! clip_id = Some clip →
  project_id clip = pid →
  start_time clip = inject_Z (Z.of_nat n).
Proof.
  intros Hauth Hnd Hn. unfold reorder_timeline_clips. rewrite Hauth. simpl.
  rewrite reorder_loop_lookup.
  destruct (timeline_clips db !! clip_id) as [c|]; [| done].
  rewrite (last_index_NoDup clip_id 0 clip_order n Hnd Hn). simpl.
  destruct (decide (project_id c = pid)) as [Hp|Hp]; intros [= <-]; [done |].
  intros ?. done.
Qed.

(** X23. Listing after a reorder.  After an authorized reorder with a list
    that repeats no id, every listing [get_project_timeline] may return for
    the project shows two listed clips of the same track in the order of the
    list: the one listed earlier comes first and has the strictly smaller
    [start_time], whichever way the database breaks ties. *)
Theorem listing_follows_reorder (pid : Z) (clip_order : list Z) (uid reader : Z) (db : Db)
    (rows : list (Z * TimelineClip)) (i j n m : nat) (ci cj : Z) (a b : TimelineClip) :
  can_edit pid uid db = true → NoDup clip_order →
  get_project_timeline pid reader (reorder_timeline_clips pid clip_order uid db).1
    (Returned rows) →
  rows !! i = Some (ci, a) → rows !! j = Some (cj, b) →
  track_number a = track_number b →
  clip_order !! n = Some ci → clip_order !! m = Some cj → (n < m)%nat →
  (i < j)%nat ∧ Qlt (start_time a) (start_time b).
Proof.
  intros Hauth Hnd Hget Hi Hj Htrack Hn Hm Hlt.
  unfold get_project_timeline in Hget.
  destruct (find_member _ _ _) as [member|]; [| done].
  destruct Hget as (rows' & [= <-] & Hnodup & Hmem & Hsorted).
  assert ((ci, a) ∈ rows) as Ha by by apply list_elem_of_lookup_2 with i.
  assert ((cj, b) ∈ rows) as Hb by by apply list_elem_of_lookup_2 with j.
  apply Hmem in Ha as [Ha Hpa]. apply Hmem in Hb as [Hb Hpb].
  pose proof (reordered_start_time pid clip_order uid db n ci a Hauth Hnd Hn Ha Hpa) as Hsa.
  pose proof (reordered_start_time pid clip_order uid db m cj b Hauth Hnd Hm Hb Hpb) as Hsb.
  assert (Qlt (start_time a) (start_time b)) as Hq.
  { rewrite Hsa, Hsb. unfold Qlt. simpl. lia. }
  split; [| done].
  destruct (decide (i < j)%nat) as [|Hge]; [done |]. exfalso.
  destruct (decide (i = j)) as [->|Hne].
  - rewrite Hi in Hj. injection Hj as -> ->. by apply Qlt_irrefl in Hq.
  - assert (j < i)%nat as Hji by lia.
    destruct (Hsorted j i _ _ Hj Hi Hji) as [?|[_ Hle]]; simpl in *; [lia |].
    by apply Qle_not_lt in Hle.
Qed.

Lemma listing_follows_reorder_witness :
  get_project_timeline 7 100 (reorder_timeline_clips 7 [2; 99; 3; 1]%Z 100 sample_db).1
    (Returned (sorted_rows 7 (reorder_timeline_clips 7 [2; 99; 3; 1]%Z 100 sample_db).1)) ∧
  (sorted_rows 7 (reorder_timeline_clips 7 [2; 99; 3; 1]%Z 100 sample_db).1).*1 = [2; 1]%Z ∧
  (0 < 1)%nat.
Proof.
  assert (NoDup [2; 99; 3; 1]%Z) as Hnd.
  { apply (bool_decide_unpack _). vm_compute. exact I. }
  assert (get_project_timeline 7 100
            (reorder_timeline_clips 7 [2; 99; 3; 1]%Z 100 sample_db).1
            (Returned (sorted_rows 7
               (reorder_timeline_clips 7 [2; 99; 3; 1]%Z 100 sample_db).1))) as Hget.
  { unfold get_project_timeline.
    change (find_member 7 100 (reorder_timeline_clips 7 [2; 99; 3; 1]%Z 100 sample_db).1)
      with (Some {| member_project_id := 7; member_user_id := 100; role := "editor" |}).
    eexists. split; [done |]. apply sorted_rows_spec. }
  split; [exact Hget |]. split; [vm_compute; reflexivity |].
  exact (proj1 (listing_follows_reorder 7 [2; 99; 3; 1]%Z 100 100 sample_db _ 0 1 0 3 2 1
    (with_start_time (sample_clip 7 (inject_Z 40)) (inject_Z 0))
    (with_start_time (sample_clip 7 (inject_Z 30)) (inject_Z 3))
    eq_refl Hnd Hget ltac:(vm_compute; reflexivity) ltac:(vm_compute; reflexivity)
    eq_refl eq_refl eq_refl ltac:(lia))).
Defined.

(** X24. [get_project_timeline] always answers.  A caller with a membership
    row in the project, of whatever role, gets a list that holds each clip
    id once and holds exactly the clips of the project that
    [get_timeline_clip] returns to this caller, with the same data; a caller
    without a membership row gets 404, and no other exception arises. *)
Theorem project_timeline_listing (pid uid : Z) (db : Db) :
  (∃ answer, get_project_timeline pid uid db answer) ∧
  (∀ answer, get_project_timeline pid uid db answer →
     match answer with
     | Returned rows =>
         (∃ member, member ∈ project_members db ∧
            member_project_id member = pid ∧ member_user_id member = uid) ∧
         NoDup rows.*1 ∧
         (∀ clip_id clip, (clip_id, clip) ∈ rows ↔
            get_timeline_clip clip_id uid db = Returned clip ∧ project_id clip = pid)
     | Rejected status_code detail =>
         status_code = 404%Z ∧
         ∀ member, member ∈ project_members db →
           ¬ (member_project_id member = pid ∧ member_user_id member = uid)
     | Unhandled _ => False
     end).
Proof.
  unfold get_project_timeline.
  destruct (find_member pid uid db) as [member|] eqn:Hf.
  - split.
    + exists (Returned (sorted_rows pid db)). eexists. split; [done |]. apply sorted_rows_spec.
    + intros answer (rows & -> & Hnodup & Hmem & _).
      unfold find_member in Hf. pose proof Hf as Hf'.
      apply find_some in Hf' as [Hin [Hp Hu]%bool_decide_eq_true].
      split_and!; [exists member; split_and!; try done; by apply list_elem_of_In | done |].
      intros clip_id clip. rewrite Hmem. unfold get_timeline_clip.
      split.
      * intros [-> <-]. unfold find_member. by rewrite Hf.
      * intros [Hget <-].
        destruct (timeline_clips db !! clip_id) as [c|]; [| done].
        destruct (find_member (project_id c) uid db); [| done].
        by injection Hget as ->.
  - split; [by eexists |]. intros answer ->. split; [done |].
    intros m Hin [Hp Hu]. unfold find_member in Hf.
    assert (In m (project_members db)) as Hin' by by apply list_elem_of_In.
    pose proof (find_none _ _ Hf m Hin') as Hno. simpl in Hno.
    apply bool_decide_eq_false in Hno. by apply Hno.
Qed.

Lemma project_timeline_listing_witness :
  get_project_timeline 7 100 sample_db (Returned (sorted_rows 7 sample_db)) ∧
  (sorted_rows 7 sample_db).*1 = [1; 2]%Z ∧
  get_timeline_clip 1 100 sample_db = Returned (sample_clip 7 (inject_Z 30)).
Proof.
  assert (get_project_timeline 7 100 sample_db (Returned (sorted_rows 7 sample_db))) as Hget.
  { unfold get_project_timeline.
    change (find_member 7 100 sample_db)
      with (Some {| member_project_id := 7; member_user_id := 100; role := "editor" |}).
    eexists. split; [done |]. apply sorted_rows_spec. }
  split; [exact Hget |]. split; [vm_compute; reflexivity |].
  destruct (proj2 (project_timeline_listing 7 100 sample_db) _ Hget) as (_ & _ & Hmem).
  apply (proj1 (Hmem 1%Z (sample_clip 7 (inject_Z 30)))).
  apply (proj1 (proj2 (sorted_rows_spec 7 sample_db))). split; reflexivity.
Defined.
End TimelineApiFacts.
